(** * li-todd/validator: a Hono worker with a KV-backed validation-request store

    Shallow embedding of [src/unnamed/part_000] (the worker with the
    [RCX_VALIDATOR] binding) and of [src/src/index.ts] (the variant without
    storage), together with the platform functions the handlers call:
    [JSON.stringify] / [JSON.parse], [Date.prototype.toISOString],
    [crypto.randomUUID], zod's [safeParse], the KV namespace, and what
    hono does around a handler: the route table, [validator('json', ...)],
    the [cors()] middleware and [app.onError].

    Conventions.
    - A JavaScript string is held as a [string] of bytes, its UTF-8 encoding
      (what the request body and the KV store carry).  [js_length] counts
      UTF-16 code units, as [String.prototype.length] does.
    - A handler is a computation in the monad [M]: it reads the environment
      (clock, random source, fate of store calls), threads the store, and
      either returns or throws.
    - A response is a status code and a body: JSON, text or none.  Its
      headers are left out. *)

From Stdlib Require Import ZArith NArith String Ascii List Lia Bool DecimalString.
From stdpp Require Import base option list sorting strings gmap.

Local Open Scope Z_scope.

(** stdpp keeps [simpl] from unfolding the concatenation of strings; the
    texts built here are concrete enough to want it unfolded. *)
#[global] Arguments String.append !s1 s2 : simpl nomatch.

(* ===================================================================== *)
(** * JavaScript values shared by every handler *)
(* ===================================================================== *)

Module Js.

(** A thrown value: an instance of [Error] carrying its [message], or any
    other value (for which [error instanceof Error] is false). *)
Inductive Thrown : Type :=
| ThrowError (message : string)
| ThrowOther.

(** JSON values.  A number is kept as its literal. *)
#[warnings="-register-all"]
Inductive json : Type :=
| JNull
| JBool (b : bool)
| JNum (literal : string)
| JStr (s : string)
| JArr (items : list json)
| JObj (props : list (string * json)).

(** ** Strings *)

Definition code (c : ascii) : N := N_of_ascii c.

(** Number of UTF-16 code units contributed by one byte of the UTF-8
    encoding: a continuation byte contributes none, the leading byte of a
    four-byte sequence two (a surrogate pair), any other byte one. *)
Definition utf16_units (c : ascii) : nat :=
  if (code c <? 128)%N then 1%nat
  else if (code c <? 192)%N then 0%nat
  else if (code c <? 240)%N then 1%nat
  else 2%nat.

(** [s.length] *)
Fixpoint js_length (s : string) : nat :=
  match s with
  | EmptyString => 0%nat
  | String c s' => (utf16_units c + js_length s')%nat
  end.

(** [s.startsWith(p)], bytewise. *)
Fixpoint startsWith (p s : string) : bool :=
  match p, s with
  | EmptyString, _ => true
  | String _ _, EmptyString => false
  | String a p', String b s' => if Ascii.eqb a b then startsWith p' s' else false
  end.

(** Strictly below in the bytewise lexicographic order, the order in
    which the store lists keys ([String.le] is its reflexive version). *)
Definition str_lt (a b : string) : Prop := String.compare a b = Lt.

(** ** Objects *)

(** [o[k]] on the property list of an object: the last binding wins, as
    it does when [JSON.parse] meets a repeated key. *)
Fixpoint obj_get (props : list (string * json)) (k : string) : option json :=
  match props with
  | [] => None
  | (k', v) :: rest =>
      match obj_get rest k with
      | Some v' => Some v'
      | None => if String.eqb k' k then Some v else None
      end
  end.

(** The object literal [{ k1: v1, k2: v2, ... }] handed to
    [JSON.stringify] (by [c.json]): a property whose value is [undefined]
    is left out. *)
Definition obj_lit (fields : list (string * option json)) : json :=
  JObj (omap (fun field => match snd field with
                           | Some v => Some (fst field, v)
                           | None => None
                           end) fields).

(** ** [JSON.stringify] *)

Definition dquote : ascii := ascii_of_N 34.
Definition backslash : ascii := ascii_of_N 92.

Definition hex_digit (n : N) : ascii :=
  ascii_of_N (if (n <? 10)%N then 48 + n else 87 + n).

(** QuoteJSONString, one character: the quote, the backslash and the
    control characters are escaped, every other byte is copied. *)
Definition escape_char (c : ascii) : string :=
  let n := code c in
  if (n =? 34)%N then String backslash (String dquote "")
  else if (n =? 92)%N then String backslash (String backslash "")
  else if (n =? 8)%N then String backslash "b"
  else if (n =? 12)%N then String backslash "f"
  else if (n =? 10)%N then String backslash "n"
  else if (n =? 13)%N then String backslash "r"
  else if (n =? 9)%N then String backslash "t"
  else if (n <? 32)%N then
    String backslash
      ("u00" +:+ String (hex_digit (n / 16)) (String (hex_digit (n mod 16)) ""))
  else String c "".

Fixpoint escape (s : string) : string :=
  match s with
  | EmptyString => ""
  | String c s' => escape_char c +:+ escape s'
  end.

Definition quote (s : string) : string :=
  String dquote (escape s +:+ String dquote "").

Fixpoint JSON_stringify (v : json) : string :=
  match v with
  | JNull => "null"
  | JBool true => "true"
  | JBool false => "false"
  | JNum lit => lit
  | JStr s => quote s
  | JArr items =>
      "[" +:+
      (fix elements (l : list json) : string :=
         match l with
         | [] => ""
         | [x] => JSON_stringify x
         | x :: l' => JSON_stringify x +:+ "," +:+ elements l'
         end) items +:+ "]"
  | JObj props =>
      "{" +:+
      (fix members (l : list (string * json)) : string :=
         match l with
         | [] => ""
         | [(k, x)] => quote k +:+ ":" +:+ JSON_stringify x
         | (k, x) :: l' => quote k +:+ ":" +:+ JSON_stringify x +:+ "," +:+ members l'
         end) props +:+ "}"
  end.

(** ** [JSON.parse] *)

Definition is_ws (c : ascii) : bool :=
  ((code c =? 32) || (code c =? 9) || (code c =? 10) || (code c =? 13))%N.

Fixpoint skip_ws (s : string) : string :=
  match s with
  | String c r => if is_ws c then skip_ws r else s
  | EmptyString => ""
  end.

Definition hex_val (c : ascii) : option N :=
  let n := code c in
  if ((48 <=? n) && (n <=? 57))%N then Some (n - 48)%N
  else if ((97 <=? n) && (n <=? 102))%N then Some (n - 87)%N
  else if ((65 <=? n) && (n <=? 70))%N then Some (n - 55)%N
  else None.

Definition hex4 (a b c d : ascii) : option N :=
  match hex_val a, hex_val b, hex_val c, hex_val d with
  | Some x, Some y, Some z, Some w => Some (((x * 16 + y) * 16 + z) * 16 + w)%N
  | _, _, _, _ => None
  end.

(** What a string literal is made of: a byte copied from the text, or a
    UTF-16 code unit written as [\uXXXX]. *)
Inductive StrItem : Type :=
| Raw (c : ascii)
| Unit16 (u : N).

Definition push {A B : Type} (x : A) (r : option (list A * B)) : option (list A * B) :=
  match r with
  | Some (l, rest) => Some (x :: l, rest)
  | None => None
  end.

(** The characters of a string literal after its opening quote, up to and
    including the closing quote; the text that follows is returned. *)
Fixpoint string_items (s : string) : option (list StrItem * string) :=
  match s with
  | EmptyString => None
  | String c r =>
      if (code c =? 34)%N then Some ([], r)
      else if (code c =? 92)%N then
        match r with
        | EmptyString => None
        | String e r1 =>
            let n := code e in
            if ((n =? 34) || (n =? 92) || (n =? 47))%N then push (Raw e) (string_items r1)
            else if (n =? 98)%N then push (Raw (ascii_of_N 8)) (string_items r1)
            else if (n =? 102)%N then push (Raw (ascii_of_N 12)) (string_items r1)
            else if (n =? 110)%N then push (Raw (ascii_of_N 10)) (string_items r1)
            else if (n =? 114)%N then push (Raw (ascii_of_N 13)) (string_items r1)
            else if (n =? 116)%N then push (Raw (ascii_of_N 9)) (string_items r1)
            else if (n =? 117)%N then
              match r1 with
              | String h1 (String h2 (String h3 (String h4 r2))) =>
                  match hex4 h1 h2 h3 h4 with
                  | Some u => push (Unit16 u) (string_items r2)
                  | None => None
                  end
              | _ => None
              end
            else None
        end
      else if (code c <? 32)%N then None
      else push (Raw c) (string_items r)
  end.

Definition byte (n : N) : ascii := ascii_of_N n.

(** UTF-8 encoding of a code point (a lone surrogate is encoded like any
    other code point below 0x10000). *)
Definition utf8_encode (cp : N) : string :=
  if (cp <? 128)%N then String (byte cp) ""
  else if (cp <? 2048)%N then
    String (byte (192 + cp / 64)) (String (byte (128 + cp mod 64)) "")
  else if (cp <? 65536)%N then
    String (byte (224 + cp / 4096))
      (String (byte (128 + (cp / 64) mod 64)) (String (byte (128 + cp mod 64)) ""))
  else
    String (byte (240 + cp / 262144))
      (String (byte (128 + (cp / 4096) mod 64))
         (String (byte (128 + (cp / 64) mod 64)) (String (byte (128 + cp mod 64)) ""))).

Definition is_high_surrogate (u : N) : bool := ((55296 <=? u) && (u <=? 56319))%N.
Definition is_low_surrogate (u : N) : bool := ((56320 <=? u) && (u <=? 57343))%N.

Fixpoint assemble (l : list StrItem) : string :=
  match l with
  | [] => ""
  | Raw c :: l' => String c (assemble l')
  | Unit16 hi :: l' =>
      match l' with
      | Unit16 lo :: l'' =>
          if is_high_surrogate hi && is_low_surrogate lo
          then utf8_encode (65536 + (hi - 55296) * 1024 + (lo - 56320))%N +:+ assemble l''
          else utf8_encode hi +:+ assemble l'
      | _ => utf8_encode hi +:+ assemble l'
      end
  end.

Definition parse_string_lit (s : string) : option (string * string) :=
  match string_items s with
  | Some (l, rest) => Some (assemble l, rest)
  | None => None
  end.

Definition is_digit (c : ascii) : bool := ((48 <=? code c) && (code c <=? 57))%N.

Fixpoint span_digits (s : string) : string * string :=
  match s with
  | String c r =>
      if is_digit c then let (d, rest) := span_digits r in (String c d, rest)
      else ("", s)
  | EmptyString => ("", "")
  end.

(** A number literal: [-? (0 | [1-9][0-9]* ) (. [0-9]+)? ([eE] [+-]? [0-9]+)?]. *)
Definition number_int (s : string) : option (string * string) :=
  match s with
  | String c r =>
      if (code c =? 48)%N then Some ("0", r)
      else if is_digit c then let (d, rest) := span_digits r in Some (String c d, rest)
      else None
  | EmptyString => None
  end.

Definition number_frac (s : string) : option (string * string) :=
  match s with
  | String c r =>
      if (code c =? 46)%N then
        match span_digits r with
        | (EmptyString, _) => None
        | (d, rest) => Some (String c d, rest)
        end
      else Some ("", s)
  | EmptyString => Some ("", "")
  end.

Definition number_exp (s : string) : option (string * string) :=
  match s with
  | String c r =>
      if ((code c =? 101) || (code c =? 69))%N then
        let (sign, r1) :=
          match r with
          | String g r' => if ((code g =? 43) || (code g =? 45))%N then (String g "", r') else ("", r)
          | EmptyString => ("", r)
          end in
        match span_digits r1 with
        | (EmptyString, _) => None
        | (d, rest) => Some (String c (sign +:+ d), rest)
        end
      else Some ("", s)
  | EmptyString => Some ("", "")
  end.

Definition parse_number (s : string) : option (string * string) :=
  let (sign, s1) :=
    match s with
    | String c r => if (code c =? 45)%N then ("-", r) else ("", s)
    | EmptyString => ("", s)
    end in
  match number_int s1 with
  | Some (i, s2) =>
      match number_frac s2 with
      | Some (f, s3) =>
          match number_exp s3 with
          | Some (e, s4) => Some (sign +:+ i +:+ f +:+ e, s4)
          | None => None
          end
      | None => None
      end
  | None => None
  end.

Fixpoint strip_prefix (p s : string) : option string :=
  match p, s with
  | EmptyString, _ => Some s
  | String _ _, EmptyString => None
  | String a p', String b s' => if Ascii.eqb a b then strip_prefix p' s' else None
  end.

(** Result of a parser: a value and the unread text, a syntax error, or
    the recursion budget ran out (shown below never to happen for the
    budget [JSON_parse] gives). *)
Inductive Parsed (A : Type) : Type :=
| PDone (a : A) (rest : string)
| PSyntaxError
| PExhausted.
Arguments PDone {A} a rest.
Arguments PSyntaxError {A}.
Arguments PExhausted {A}.

Definition pcons {A : Type} (x : A) (r : Parsed (list A)) : Parsed (list A) :=
  match r with
  | PDone l rest => PDone (x :: l) rest
  | PSyntaxError => PSyntaxError
  | PExhausted => PExhausted
  end.

Definition pmap {A B : Type} (f : A -> B) (r : Parsed A) : Parsed B :=
  match r with
  | PDone a rest => PDone (f a) rest
  | PSyntaxError => PSyntaxError
  | PExhausted => PExhausted
  end.

Definition parse_scalar (s : string) : Parsed json :=
  match strip_prefix "null" s with
  | Some r => PDone JNull r
  | None =>
  match strip_prefix "true" s with
  | Some r => PDone (JBool true) r
  | None =>
  match strip_prefix "false" s with
  | Some r => PDone (JBool false) r
  | None =>
  match parse_number s with
  | Some (lit, r) => PDone (JNum lit) r
  | None => PSyntaxError
  end end end end.

Fixpoint parse_value (fuel : nat) (s : string) {struct fuel} : Parsed json :=
  match fuel with
  | O => PExhausted
  | S n =>
      match skip_ws s with
      | EmptyString => PSyntaxError
      | String c r =>
          if (code c =? 123)%N then
            match skip_ws r with
            | EmptyString => PSyntaxError
            | String c' r' =>
                if (code c' =? 125)%N then PDone (JObj []) r'
                else pmap JObj (parse_members n r)
            end
          else if (code c =? 91)%N then
            match skip_ws r with
            | EmptyString => PSyntaxError
            | String c' r' =>
                if (code c' =? 93)%N then PDone (JArr []) r'
                else pmap JArr (parse_elements n r)
            end
          else if (code c =? 34)%N then
            match parse_string_lit r with
            | Some (str, rest) => PDone (JStr str) rest
            | None => PSyntaxError
            end
          else parse_scalar (String c r)
      end
  end
with parse_elements (fuel : nat) (s : string) {struct fuel} : Parsed (list json) :=
  match fuel with
  | O => PExhausted
  | S n =>
      match parse_value n s with
      | PDone v r =>
          match skip_ws r with
          | EmptyString => PSyntaxError
          | String c r' =>
              if (code c =? 44)%N then pcons v (parse_elements n r')
              else if (code c =? 93)%N then PDone [v] r'
              else PSyntaxError
          end
      | PSyntaxError => PSyntaxError
      | PExhausted => PExhausted
      end
  end
with parse_members (fuel : nat) (s : string) {struct fuel}
  : Parsed (list (string * json)) :=
  match fuel with
  | O => PExhausted
  | S n =>
      match skip_ws s with
      | EmptyString => PSyntaxError
      | String c r =>
          if (code c =? 34)%N then
            match parse_string_lit r with
            | None => PSyntaxError
            | Some (k, r1) =>
                match skip_ws r1 with
                | EmptyString => PSyntaxError
                | String c1 r2 =>
                    if (code c1 =? 58)%N then
                      match parse_value n r2 with
                      | PDone v r3 =>
                          match skip_ws r3 with
                          | EmptyString => PSyntaxError
                          | String c3 r4 =>
                              if (code c3 =? 44)%N then pcons (k, v) (parse_members n r4)
                              else if (code c3 =? 125)%N then PDone [(k, v)] r4
                              else PSyntaxError
                          end
                      | PSyntaxError => PSyntaxError
                      | PExhausted => PExhausted
                      end
                    else PSyntaxError
                end
            end
          else PSyntaxError
      end
  end.

(** The engine's wording of a syntax error is not modelled; one fixed
    message stands for it. *)
Definition SyntaxError : Thrown := ThrowError "Unexpected token in JSON".

Definition parse_budget (text : string) : nat := (2 * String.length text + 2)%nat.

(** [JSON.parse(text)]: the value, or the [SyntaxError] it throws. *)
Definition JSON_parse (text : string) : Thrown + json :=
  match parse_value (parse_budget text) text with
  | PDone v rest =>
      match skip_ws rest with
      | EmptyString => inr v
      | String _ _ => inl SyntaxError
      end
  | PSyntaxError => inl SyntaxError
  | PExhausted => inl SyntaxError
  end.

(** [value.k] for a parsed JSON value: reading a property of [null] throws
    a [TypeError]; an object yields its property or [undefined]; neither
    [id] nor [salt] is a property of a string, number, boolean or array. *)
Definition TypeError (k : string) : Thrown :=
  ThrowError ("Cannot read properties of null (reading '" +:+ k +:+ "')").

Definition get_prop (v : json) (k : string) : Thrown + option json :=
  match v with
  | JNull => inl (TypeError k)
  | JObj props => inr (obj_get props k)
  | _ => inr None
  end.

(** ** [Date.prototype.toISOString] *)

(** A time value is the number of milliseconds since the epoch. *)
Definition msPerDay : Z := 86400000.
Definition msPerHour : Z := 3600000.
Definition msPerMinute : Z := 60000.
Definition msPerSecond : Z := 1000.

Definition Day (t : Z) : Z := t / msPerDay.

Definition DayFromYear (y : Z) : Z :=
  365 * (y - 1970) + (y - 1969) / 4 - (y - 1901) / 100 + (y - 1601) / 400.

Definition TimeFromYear (y : Z) : Z := msPerDay * DayFromYear y.

(** The largest year [y] with [TimeFromYear y <= t], found from an
    estimate that is off by at most one. *)
Definition YearFromTime (t : Z) : Z :=
  let d := Day t in
  let y0 := 1970 + (400 * d) / 146097 in
  if DayFromYear (y0 + 1) <=? d then y0 + 1
  else if DayFromYear y0 <=? d then y0
  else y0 - 1.

Definition DaysInYear (y : Z) : Z := DayFromYear (y + 1) - DayFromYear y.
Definition InLeapYear (t : Z) : Z := DaysInYear (YearFromTime t) - 365.
Definition DayWithinYear (t : Z) : Z := Day t - DayFromYear (YearFromTime t).

(** Month number (0 = January) of a day within a year, [leap] being 1 in
    a leap year and 0 otherwise. *)
Definition month_of (leap dwy : Z) : Z :=
  if dwy <? 31 then 0
  else if dwy <? 59 + leap then 1
  else if dwy <? 90 + leap then 2
  else if dwy <? 120 + leap then 3
  else if dwy <? 151 + leap then 4
  else if dwy <? 181 + leap then 5
  else if dwy <? 212 + leap then 6
  else if dwy <? 243 + leap then 7
  else if dwy <? 273 + leap then 8
  else if dwy <? 304 + leap then 9
  else if dwy <? 334 + leap then 10
  else 11.

(** First day within the year of a month. *)
Definition month_start (leap m : Z) : Z :=
  if m =? 0 then 0
  else if m =? 1 then 31
  else if m =? 2 then 59 + leap
  else if m =? 3 then 90 + leap
  else if m =? 4 then 120 + leap
  else if m =? 5 then 151 + leap
  else if m =? 6 then 181 + leap
  else if m =? 7 then 212 + leap
  else if m =? 8 then 243 + leap
  else if m =? 9 then 273 + leap
  else if m =? 10 then 304 + leap
  else 334 + leap.

Definition MonthFromTime (t : Z) : Z := month_of (InLeapYear t) (DayWithinYear t).
Definition DateFromTime (t : Z) : Z :=
  DayWithinYear t - month_start (InLeapYear t) (MonthFromTime t) + 1.
Definition HourFromTime (t : Z) : Z := (t / msPerHour) mod 24.
Definition MinFromTime (t : Z) : Z := (t / msPerMinute) mod 60.
Definition SecFromTime (t : Z) : Z := (t / msPerSecond) mod 60.
Definition msFromTime (t : Z) : Z := t mod msPerSecond.

Definition digit (n : Z) : ascii := ascii_of_N (48 + Z.to_N n).

(** The [w] low-order decimal digits of [n], most significant first: the
    zero-padded rendering of a number below [10 ^ w]. *)
Fixpoint pad (w : nat) (n : Z) : string :=
  match w with
  | O => ""
  | S w' => String (digit ((n / 10 ^ Z.of_nat w') mod 10)) (pad w' n)
  end.

(** Years 0 to 9999 are written with four digits, any other year with a
    sign and six digits. *)
Definition iso_year (y : Z) : string :=
  if (0 <=? y) && (y <=? 9999) then pad 4 y
  else if y <? 0 then "-" +:+ pad 6 (- y)
  else "+" +:+ pad 6 y.

Definition toISOString (t : Z) : string :=
  iso_year (YearFromTime t) +:+ "-" +:+ pad 2 (MonthFromTime t + 1) +:+ "-" +:+
  pad 2 (DateFromTime t) +:+ "T" +:+ pad 2 (HourFromTime t) +:+ ":" +:+
  pad 2 (MinFromTime t) +:+ ":" +:+ pad 2 (SecFromTime t) +:+ "." +:+
  pad 3 (msFromTime t) +:+ "Z".

(** ** [crypto.randomUUID] *)

Definition hex_byte (b : N) : string :=
  String (hex_digit (b / 16)) (String (hex_digit (b mod 16)) "").

(** The sixteen bytes of a version-4 UUID made from a draw of random
    bytes: the version nibble is 4 and the variant bits are 10. *)
Definition uuid_bytes (draw : list N) : list N :=
  map (fun i : nat =>
         let b := (nth i draw 0 mod 256)%N in
         if Nat.eqb i 6 then (64 + b mod 16)%N
         else if Nat.eqb i 8 then (128 + b mod 64)%N
         else b)
      (seq 0 16).

Definition hex_bytes (bs : list N) : string :=
  fold_right (fun b acc => hex_byte b +:+ acc) "" bs.

Definition uuid_format (bs : list N) : string :=
  hex_bytes (firstn 4 bs) +:+ "-" +:+
  hex_bytes (firstn 2 (skipn 4 bs)) +:+ "-" +:+
  hex_bytes (firstn 2 (skipn 6 bs)) +:+ "-" +:+
  hex_bytes (firstn 2 (skipn 8 bs)) +:+ "-" +:+
  hex_bytes (skipn 10 bs).

Definition uuid_of_random (draw : list N) : string := uuid_format (uuid_bytes draw).

End Js.

(* ===================================================================== *)
(** * zod: the two schemas and [safeParse] *)
(* ===================================================================== *)

Module Zod.
Import Js.

(** An issue reported by [safeParse]. *)
Inductive Issue : Type :=
| invalid_type (path : list string) (expected received : string)
| too_small (path : list string) (minimum : nat)
| too_big (path : list string) (maximum : nat).

(** zod's name for the type of a value; [None] is [undefined], a missing
    property. *)
Definition type_name (v : option json) : string :=
  match v with
  | None => "undefined"
  | Some JNull => "null"
  | Some (JBool _) => "boolean"
  | Some (JNum _) => "number"
  | Some (JStr _) => "string"
  | Some (JArr _) => "array"
  | Some (JObj _) => "object"
  end.

(** [z.string().min(lo)] and [z.string().min(lo).max(hi)] at a path: the
    value must be a string; each length check adds its own issue. *)
Definition z_string (lo : nat) (hi : option nat) (path : list string)
    (v : option json) : list Issue + string :=
  match v with
  | Some (JStr s) =>
      let small := if (js_length s <? lo)%nat then [too_small path lo] else [] in
      let big :=
        match hi with
        | Some m => if (m <? js_length s)%nat then [too_big path m] else []
        | None => []
        end in
      match small ++ big with
      | [] => inr s
      | issues => inl issues
      end
  | _ => inl [invalid_type path "string" (type_name v)]
  end.

Definition issues_of {A : Type} (r : list Issue + A) : list Issue :=
  match r with
  | inl issues => issues
  | inr _ => []
  end.

(** The parsed output of [postSchema]. *)
Record PostInput : Type := { title : string; content : string }.

(** [interface ValidateRequest], the parsed output of [validateRequestSchema]. *)
Record ValidateRequest : Type := { id : string; salt : string }.

(** [z.object({ title: z.string().min(1).max(100),
                content: z.string().min(1).max(1000) }).safeParse(value)].
    An object schema reads the keys of its shape and drops every other key
    of the input (zod's default for unrecognised keys). *)
Definition postSchema (value : json) : list Issue + PostInput :=
  match value with
  | JObj props =>
      let t := z_string 1 (Some 100%nat) ["title"] (obj_get props "title") in
      let c := z_string 1 (Some 1000%nat) ["content"] (obj_get props "content") in
      match t, c with
      | inr t', inr c' => inr {| title := t'; content := c' |}
      | _, _ => inl (issues_of t ++ issues_of c)
      end
  | _ => inl [invalid_type [] "object" (type_name (Some value))]
  end.

(** [z.object({ id: z.string().min(1), salt: z.string().min(6) }).safeParse(value)] *)
Definition validateRequestSchema (value : json) : list Issue + ValidateRequest :=
  match value with
  | JObj props =>
      let i := z_string 1 None ["id"] (obj_get props "id") in
      let s := z_string 6 None ["salt"] (obj_get props "salt") in
      match i, s with
      | inr i', inr s' => inr {| id := i'; salt := s' |}
      | _, _ => inl (issues_of i ++ issues_of s)
      end
  | _ => inl [invalid_type [] "object" (type_name (Some value))]
  end.

(** [String(n)] for a natural number. *)
Definition decimal (n : nat) : string := NilEmpty.string_of_uint (Nat.to_uint n).

(** [parsed.error.errors] as it is serialised in the response. *)
Definition issue_json (i : Issue) : json :=
  let path_json (p : list string) := JArr (map JStr p) in
  match i with
  | invalid_type p e r =>
      JObj [("code", JStr "invalid_type"); ("expected", JStr e); ("received", JStr r);
            ("path", path_json p);
            ("message", JStr (if String.eqb r "undefined" then "Required"
                              else "Expected " +:+ e +:+ ", received " +:+ r))]
  | too_small p m =>
      JObj [("code", JStr "too_small"); ("minimum", JNum (decimal m));
            ("type", JStr "string"); ("inclusive", JBool true); ("exact", JBool false);
            ("message", JStr ("String must contain at least " +:+ decimal m +:+ " character(s)"));
            ("path", path_json p)]
  | too_big p m =>
      JObj [("code", JStr "too_big"); ("maximum", JNum (decimal m));
            ("type", JStr "string"); ("inclusive", JBool true); ("exact", JBool false);
            ("message", JStr ("String must contain at most " +:+ decimal m +:+ " character(s)"));
            ("path", path_json p)]
  end.

End Zod.

(* ===================================================================== *)
(** * The worker runtime: effects, the KV namespace, hono *)
(* ===================================================================== *)

Module Runtime.
Import Js Zod.

(** What the platform decides for a run: the successive readings of the
    clock, the successive draws of sixteen random bytes, for each call to
    the store whether it rejects, and with what, and what the other
    clients of the namespace have done to its content by the time of each
    call. *)
Record Env : Type := {
  Date_now : nat -> Z;
  getRandomValues : nat -> list N;
  kv_fault : nat -> option Thrown;
  kv_others : nat -> gmap string string -> gmap string string
}.

(** What changes during a run: the content of the KV namespace and how
    many readings, draws and store calls have been made. *)
Record State : Type := {
  RCX_VALIDATOR : gmap string string;
  clock_reads : nat;
  random_draws : nat;
  kv_calls : nat
}.

Inductive Outcome (A : Type) : Type :=
| Returns (a : A)
| Throws (e : Thrown).
Arguments Returns {A} a.
Arguments Throws {A} e.

Definition M (A : Type) : Type := Env -> State -> Outcome A * State.

Definition ret {A : Type} (a : A) : M A := fun _ st => (Returns a, st).

Definition throw {A : Type} (e : Thrown) : M A := fun _ st => (Throws e, st).

Definition bind {A B : Type} (m : M A) (k : A -> M B) : M B :=
  fun env st =>
    match m env st with
    | (Returns a, st') => k a env st'
    | (Throws e, st') => (Throws e, st')
    end.

(** [try { m } catch (error) { h error }] *)
Definition try_catch {A : Type} (m : M A) (h : Thrown -> M A) : M A :=
  fun env st =>
    match m env st with
    | (Returns a, st') => (Returns a, st')
    | (Throws e, st') => h e env st'
    end.

Definition lift {A : Type} (r : Thrown + A) : M A :=
  match r with
  | inl e => throw e
  | inr a => ret a
  end.

Declare Scope js_scope.
Delimit Scope js_scope with js.
Notation "'let*' x ':=' m 'in' k" := (bind m (fun x => k))
  (at level 10, x name, m at level 100, k at level 200) : js_scope.
Notation "m ';;' k" := (bind m (fun _ => k))
  (at level 100, k at level 200, right associativity) : js_scope.
Local Open Scope js_scope.

(** [new Date().toISOString()] *)
Definition now_ISO : M string :=
  fun env st =>
    (Returns (toISOString (Date_now env (clock_reads st))),
     {| RCX_VALIDATOR := RCX_VALIDATOR st; clock_reads := S (clock_reads st);
        random_draws := random_draws st; kv_calls := kv_calls st |}).

(** [crypto.randomUUID()] *)
Definition randomUUID : M string :=
  fun env st =>
    (Returns (uuid_of_random (getRandomValues env (random_draws st))),
     {| RCX_VALIDATOR := RCX_VALIDATOR st; clock_reads := clock_reads st;
        random_draws := S (random_draws st); kv_calls := kv_calls st |}).

(** ** The KV namespace *)

(** Modelled from the spec: the key-value store collaborator, "external
    durable mapping from string key to string value, supporting put, get,
    prefix-list, and delete", with [list({prefix})] returning the matching
    keys in lexicographic order.  Its declaration ([KVNamespace]) is not
    part of the repository.  A listing is taken to hold every matching
    key.  A call meets the content as the other clients left it; a call
    that rejects leaves it as it met it. *)
Definition kv_call {A : Type} (op : gmap string string -> A * gmap string string) : M A :=
  fun env st =>
    let st_next (m : gmap string string) :=
      {| RCX_VALIDATOR := m; clock_reads := clock_reads st;
         random_draws := random_draws st; kv_calls := S (kv_calls st) |} in
    let met := kv_others env (kv_calls st) (RCX_VALIDATOR st) in
    match kv_fault env (kv_calls st) with
    | Some e => (Throws e, st_next met)
    | None => let (a, m') := op met in (Returns a, st_next m')
    end.

(** No call to the store rejects. *)
Definition no_fault (env : Env) : Prop := forall n, kv_fault env n = None.

(** No other client touches the namespace. *)
Definition alone (env : Env) : Prop := forall n m, kv_others env n m = m.

(** [await c.env.RCX_VALIDATOR.put(key, value)] *)
Definition kv_put (key value : string) : M unit :=
  kv_call (fun m => (tt, <[key := value]> m)).

(** [await c.env.RCX_VALIDATOR.get(key)]: the value, or [null]. *)
Definition kv_get (key : string) : M (option string) :=
  kv_call (fun m => (m !! key, m)).

(** The keys of a content that start with a prefix, in lexicographic order. *)
Definition keys_with_prefix (prefix : string) (m : gmap string string) : list string :=
  merge_sort String.le (filter (fun k => startsWith prefix k = true) (elements (dom m))).

(** [(await c.env.RCX_VALIDATOR.list({ prefix })).keys], as key names. *)
Definition kv_list (prefix : string) : M (list string) :=
  kv_call (fun m => (keys_with_prefix prefix m, m)).

(** [c.env.RCX_VALIDATOR.delete(key)] *)
Definition kv_delete (key : string) : M unit :=
  kv_call (fun m => (tt, delete key m)).

(** [await Promise.all(promises)] over store calls that have all been
    started: each one takes effect on its own; the await throws if one of
    them rejected (the first in the order of the array stands for the one
    that rejects first). *)
Fixpoint Promise_all (promises : list (M unit)) : M unit :=
  fun env st =>
    match promises with
    | [] => (Returns tt, st)
    | p :: rest =>
        let (r, st1) := p env st in
        let (rs, st2) := Promise_all rest env st1 in
        (match r with
         | Throws e => Throws e
         | Returns _ => rs
         end, st2)
    end.

(** ** hono *)

(** The body of a response: JSON, text, or none ([new Response(null, ...)]). *)
Inductive Body : Type :=
| JsonBody (j : json)
| TextBody (text : string)
| NoBody.

Record Response : Type := { status : nat; body : Body }.

(** [c.json(object, status)]; the status is 200 when left out. *)
Definition c_json (j : json) (st : nat) : Response :=
  {| status := st; body := JsonBody j |}.

(** [error instanceof Error ? error.message : 'Unknown error'] *)
Definition message_of (error : Thrown) : string :=
  match error with
  | ThrowError message => message
  | ThrowOther => "Unknown error"
  end.

(** [validator('json', (value, c) => { ... })] in front of a handler.
    hono's validator first reads the body with [c.req.json()]; when that
    fails it throws [new HTTPException(400, { message: 'Malformed JSON in
    request body' })], an [Error], and neither the callback nor the
    handler is called.  Otherwise the callback parses the value against
    the schema: a failure is answered at once and the handler is not
    called, a success hands the parsed data to it. *)
Definition validator {A : Type} (schema : json -> list Issue + A)
    (handler : A -> M Response) (body : option json) : M Response :=
  match body with
  | None => throw (ThrowError "Malformed JSON in request body")
  | Some value =>
      match schema value with
      | inl errors =>
          ret (c_json (JObj [("ok", JBool false);
                             ("message", JStr "Invalid input");
                             ("errors", JArr (map issue_json errors))]) 400)
      | inr data => handler data
      end
  end.

(** The method of a request; [OtherMethod] stands for the methods the
    app registers no route for and hono gives no meaning of its own
    (PATCH, for one). *)
Inductive Method : Type := GET | POST | PUT | DELETE | OPTIONS | HEAD | OtherMethod.

(** A request: its method, the segments of its path, and what
    [c.req.json()] makes of its body when the body is sent as JSON: the
    parsed value, or [None] when the text is not JSON.  The body is read
    by [validator('json', ...)] only, on the routes that have one. *)
Record Request : Type := {
  method : Method;
  path : list string;
  json_body : option json
}.

(** hono's answer when no route matches. *)
Definition notFound : M Response :=
  ret {| status := 404; body := TextBody "404 Not Found" |}.

(** [app.onError((err, c) => c.json({ ok: false, message: err.message }, 500))]:
    hono hands it the errors that escape a handler or a validator; a
    thrown value that is not an [Error] is thrown on. *)
Definition onError (m : M Response) : M Response :=
  try_catch m (fun err =>
    match err with
    | ThrowError message =>
        ret (c_json (JObj [("ok", JBool false); ("message", JStr message)]) 500)
    | ThrowOther => throw ThrowOther
    end).

(** [app.use('*', cors())]: hono's cors middleware answers every
    [OPTIONS] request itself, with status 204 and no body, and hands
    every other request on.  [Response] keeps the status and the body of
    an answer; the headers, which is where the middleware writes for the
    other requests, are not part of it. *)
Definition cors (req : Request) (next : M Response) : M Response :=
  match method req with
  | OPTIONS => ret {| status := 204; body := NoBody |}
  | _ => next
  end.

(** hono answers a [HEAD] request as it answers the [GET] request, and
    sends the answer without its body. *)
Definition as_GET (req : Request) : Request :=
  {| method := GET; path := path req; json_body := json_body req |}.

Definition without_body (m : M Response) : M Response :=
  bind m (fun resp => ret {| status := status resp; body := NoBody |}).

End Runtime.

(* ===================================================================== *)
(** * src/unnamed/part_000: the worker with the [RCX_VALIDATOR] binding *)
(* ===================================================================== *)

Module Part000.
Import Js Zod Runtime.
Local Open Scope js_scope.

(** [interface Post] *)
Record Post : Type := {
  post_id : string;
  post_title : string;
  post_content : string;
  createdAt : string;
  updatedAt : string
}.

(** A [Post] as [c.json] serialises it, its properties in the order of
    the object literal [{ id, ...data, createdAt, updatedAt }]. *)
Definition Post_json (p : Post) : json :=
  JObj [("id", JStr (post_id p)); ("title", JStr (post_title p));
        ("content", JStr (post_content p));
        ("createdAt", JStr (createdAt p)); ("updatedAt", JStr (updatedAt p))].

(** The handler of [app.post('/posts', ...)] *)
Definition post_posts (data : PostInput) : M Response :=
  let* id := randomUUID in
  let* created := now_ISO in
  let* updated := now_ISO in
  let post := {| post_id := id; post_title := title data; post_content := content data;
                 createdAt := created; updatedAt := updated |} in
  try_catch
    (ret (c_json (JObj [("ok", JBool true); ("post", Post_json post)]) 201))
    (fun error =>
       ret (c_json (JObj [("ok", JBool false);
                          ("message", JStr "Failed to create post")]) 500)).

(** [app.get('/posts', ...)] *)
Definition get_posts : M Response :=
  try_catch
    (ret (c_json (JObj [("ok", JBool true); ("posts", JArr [])]) 200))
    (fun error =>
       ret (c_json (JObj [("ok", JBool false);
                          ("message", JStr "Failed to fetch posts")]) 500)).

(** [app.get('/posts/:id', ...)] *)
Definition get_posts_id (id : string) : M Response :=
  try_catch
    (ret (c_json (JObj [("ok", JBool true); ("post", JNull)]) 200))
    (fun error =>
       ret (c_json (JObj [("ok", JBool false);
                          ("message", JStr "Failed to fetch post")]) 500)).

(** The handler of [app.put('/posts/:id', ...)] *)
Definition put_posts_id (id : string) (data : PostInput) : M Response :=
  try_catch
    (let* created := now_ISO in
     let* updated := now_ISO in
     let updatedPost := {| post_id := id; post_title := title data;
                           post_content := content data;
                           createdAt := created; updatedAt := updated |} in
     ret (c_json (JObj [("ok", JBool true); ("post", Post_json updatedPost)]) 200))
    (fun error =>
       ret (c_json (JObj [("ok", JBool false);
                          ("message", JStr "Failed to update post")]) 500)).

(** [app.delete('/posts/:id', ...)] *)
Definition delete_posts_id (id : string) : M Response :=
  try_catch
    (ret (c_json (JObj [("ok", JBool true);
                        ("message", JStr "Post deleted successfully")]) 200))
    (fun error =>
       ret (c_json (JObj [("ok", JBool false);
                          ("message", JStr "Failed to delete post")]) 500)).

(** [`${org}:${data.id}:${timestamp}`] *)
Definition composite_key (org id timestamp : string) : string :=
  org +:+ ":" +:+ id +:+ ":" +:+ timestamp.

(** [{ org, ...data, timestamp }] *)
Definition stored_record (org : string) (data : ValidateRequest) (timestamp : string) : json :=
  JObj [("org", JStr org); ("id", JStr (id data)); ("salt", JStr (salt data));
        ("timestamp", JStr timestamp)].

(** [{ id: data.id, salt: data.salt }] for the validated request. *)
Definition echo (data : ValidateRequest) : json :=
  JObj [("id", JStr (id data)); ("salt", JStr (salt data))].

Definition failure (message : string) (error : Thrown) : Response :=
  c_json (JObj [("ok", JBool false); ("message", JStr message);
                ("errors", JArr [JStr (message_of error)])]) 500.

Definition no_data (org : string) : Response :=
  c_json (JObj [("ok", JBool false);
                ("message", JStr ("No data found for organization: " +:+ org));
                ("errors", JArr [JStr "Organization not found"])]) 404.

(** The handler of [app.post('/api/:org/req-validate', ...)] *)
Definition post_req_validate (org : string) (data : ValidateRequest) : M Response :=
  try_catch
    (let* timestamp := now_ISO in
     let key := composite_key org (id data) timestamp in
     kv_put key (JSON_stringify (stored_record org data timestamp));;
     ret (c_json (echo data) 200))
    (fun error => ret (failure "Validation failed" error)).

(** [app.get('/api/:org/req-validate', ...)].  The two nested [if]s either
    return a response or fall through to the 404 below them. *)
Definition get_req_validate (org : string) : M Response :=
  try_catch
    (let* keys := kv_list (org +:+ ":") in
     let* found :=
       if (0 <? length keys)%nat then
         match keys !! (length keys - 1)%nat with
         | Some latestKey =>
             let* value := kv_get latestKey in
             match value with
             | Some (String c v) =>
                 let* data := lift (JSON_parse (String c v)) in
                 let* id := lift (get_prop data "id") in
                 let* salt := lift (get_prop data "salt") in
                 ret (Some (c_json (obj_lit [("id", id); ("salt", salt)]) 200))
             | Some EmptyString => ret None
             | None => ret None
             end
         | None => throw (TypeError "name")
         end
       else ret None in
     match found with
     | Some response => ret response
     | None => ret (no_data org)
     end)
    (fun error => ret (failure "Failed to fetch request" error)).

(** The handler of [app.delete('/api/:org/req-validate', ...)] *)
Definition delete_req_validate (org : string) (data : ValidateRequest) : M Response :=
  try_catch
    (let* keys := kv_list (org +:+ ":" +:+ id data +:+ ":") in
     if (0 <? length keys)%nat then
       Promise_all (map kv_delete keys);;
       ret (c_json (echo data) 200)
     else ret (no_data org))
    (fun error => ret (failure "Failed to delete request" error)).

(** [app.get('/api/health', ...)] *)
Definition get_health : M Response :=
  ret (c_json (JObj [("ok", JBool true); ("status", JStr "healthy");
                     ("version", JStr "1.0.0")]) 200).

Definition seg (a b : string) : bool := String.eqb a b.

(** The route table, in the order of registration. *)
Definition route (req : Request) : M Response :=
  match method req, path req with
  | POST, [p] =>
      if seg p "posts" then validator postSchema post_posts (json_body req)
      else notFound
  | GET, [p] => if seg p "posts" then get_posts else notFound
  | GET, [p; q] =>
      if seg p "posts" then get_posts_id q
      else if seg p "api" && seg q "health" then get_health
      else notFound
  | PUT, [p; q] =>
      if seg p "posts" then validator postSchema (put_posts_id q) (json_body req)
      else notFound
  | DELETE, [p; q] => if seg p "posts" then delete_posts_id q else notFound
  | POST, [p; org; q] =>
      if seg p "api" && seg q "req-validate"
      then validator validateRequestSchema (post_req_validate org) (json_body req)
      else notFound
  | GET, [p; org; q] =>
      if seg p "api" && seg q "req-validate" then get_req_validate org else notFound
  | DELETE, [p; org; q] =>
      if seg p "api" && seg q "req-validate"
      then validator validateRequestSchema (delete_req_validate org) (json_body req)
      else notFound
  | _, _ => notFound
  end.

(** The middleware, then the route; an [Error] that escapes the route
    goes to the handler given to [app.onError]. *)
Definition dispatch (req : Request) : M Response := cors req (onError (route req)).

(** [app.fetch] *)
Definition fetch (req : Request) : M Response :=
  match method req with
  | HEAD => without_body (dispatch (as_GET req))
  | _ => dispatch req
  end.

End Part000.

(* ===================================================================== *)
(** * src/src/index.ts: the worker without a store *)
(* ===================================================================== *)

Module Index.
Import Js Zod Runtime.
Local Open Scope js_scope.

(** The post handlers of this file are, word for word, those of the other
    file. *)
Definition post_posts := Part000.post_posts.
Definition get_posts := Part000.get_posts.
Definition get_posts_id := Part000.get_posts_id.
Definition put_posts_id := Part000.put_posts_id.
Definition delete_posts_id := Part000.delete_posts_id.
Definition get_health := Part000.get_health.

(** The handler of [app.post('/api/:org/req-validate', ...)] *)
Definition post_req_validate (data : ValidateRequest) : M Response :=
  try_catch
    (ret (c_json (JObj [("id", JStr (id data)); ("salt", JStr (salt data))]) 200))
    (fun error =>
       ret (c_json (JObj [("ok", JBool false); ("message", JStr "Validation failed");
                          ("errors", JArr [JStr (message_of error)])]) 500)).

Definition seg (a b : string) : bool := String.eqb a b.

(** The route table, in the order of registration. *)
Definition route (req : Request) : M Response :=
  match method req, path req with
  | POST, [p] =>
      if seg p "posts" then validator postSchema post_posts (json_body req)
      else notFound
  | GET, [p] => if seg p "posts" then get_posts else notFound
  | GET, [p; q] =>
      if seg p "posts" then get_posts_id q
      else if seg p "api" && seg q "health" then get_health
      else notFound
  | PUT, [p; q] =>
      if seg p "posts" then validator postSchema (put_posts_id q) (json_body req)
      else notFound
  | DELETE, [p; q] => if seg p "posts" then delete_posts_id q else notFound
  | POST, [p; org; q] =>
      if seg p "api" && seg q "req-validate"
      then validator validateRequestSchema post_req_validate (json_body req)
      else notFound
  | _, _ => notFound
  end.

(** The middleware, then the route; an [Error] that escapes the route
    goes to the handler given to [app.onError]. *)
Definition dispatch (req : Request) : M Response := cors req (onError (route req)).

(** [app.fetch] *)
Definition fetch (req : Request) : M Response :=
  match method req with
  | HEAD => without_body (dispatch (as_GET req))
  | _ => dispatch req
  end.

End Index.

(* ===================================================================== *)
(** * Vocabulary of the statements *)
(* ===================================================================== *)

Module Spec.
Import Js Zod Runtime.

(** A body that carries a valid ValidationRequest: an object whose [id] is
    a non-empty string and whose [salt] is a string of at least six
    characters. *)
Definition valid_request (value : json) (i s : string) : Prop :=
  exists props, value = JObj props
    /\ obj_get props "id" = Some (JStr i) /\ (1 <= js_length i)%nat
    /\ obj_get props "salt" = Some (JStr s) /\ (6 <= js_length s)%nat.

(** A body that carries a valid Post payload: an object whose [title] is a
    string of 1 to 100 characters and whose [content] is a string of 1 to
    1000 characters. *)
Definition valid_post (value : json) (t c : string) : Prop :=
  exists props, value = JObj props
    /\ obj_get props "title" = Some (JStr t)
    /\ (1 <= js_length t)%nat /\ (js_length t <= 100)%nat
    /\ obj_get props "content" = Some (JStr c)
    /\ (1 <= js_length c)%nat /\ (js_length c <= 1000)%nat.

(** The request [METHOD /api/:org/req-validate] with a JSON body. *)
Definition req_validate (m : Method) (org : string) (value : json) : Request :=
  {| method := m; path := ["api"; org; "req-validate"]; json_body := Some value |}.

(** The requests [METHOD /posts] and [METHOD /posts/:id]. *)
Definition posts (m : Method) (value : json) : Request :=
  {| method := m; path := ["posts"]; json_body := Some value |}.
Definition posts_id (m : Method) (id : string) (value : json) : Request :=
  {| method := m; path := ["posts"; id]; json_body := Some value |}.

(** The content of the namespace as the next store call meets it. *)
Definition met (env : Env) (st : State) : gmap string string :=
  kv_others env (kv_calls st) (RCX_VALIDATOR st).

(** The answer of a route to a body that fails its schema. *)
Definition invalid_input (issues : list Issue) : Response :=
  c_json (JObj [("ok", JBool false); ("message", JStr "Invalid input");
                ("errors", JArr (map issue_json issues))]) 400.

(** The JSON body of a response, when it has one. *)
Definition json_of (r : Outcome Response) : option json :=
  match r with
  | Returns {| status := _; body := JsonBody j |} => Some j
  | _ => None
  end.

(** The status of a response. *)
Definition status_of (r : Outcome Response) : option nat :=
  match r with
  | Returns resp => Some (status resp)
  | Throws _ => None
  end.

(** The year of a time value is written with four digits. *)
Definition four_digit_year (t : Z) : Prop := 0 <= YearFromTime t <= 9999.

End Spec.

(* ===================================================================== *)
(** * Sample runs *)
(* ===================================================================== *)

Module Sample.
Import Js Zod Runtime Spec.

(** A platform whose clock advances by one millisecond per reading from
    2023-11-14T22:13:20.000Z, whose store never rejects, and which no
    other client uses. *)
Definition env : Env :=
  {| Date_now := fun n => 1700000000000 + Z.of_nat n;
     getRandomValues := fun n => repeat (N.of_nat n) 16;
     kv_fault := fun _ => None;
     kv_others := fun _ m => m |}.

(** The state of a worker whose namespace has the given content. *)
Definition state (content : gmap string string) : State :=
  {| RCX_VALIDATOR := content; clock_reads := 0; random_draws := 0; kv_calls := 0 |}.

(** A Post payload with a property the schema does not name. *)
Definition post_with_extra : json :=
  JObj [("title", JStr "a"); ("content", JStr "b"); ("extra", JNum "1")].

(** A valid Post payload. *)
Definition post : json := JObj [("title", JStr "a"); ("content", JStr "b")].

(** A valid ValidationRequest. *)
Definition request : json := JObj [("id", JStr "abc"); ("salt", JStr "s3cret!")].

(** The same identifier with a salt that was never stored. *)
Definition request_other_salt : json :=
  JObj [("id", JStr "abc"); ("salt", JStr "another-salt")].

(** A valid ValidationRequest whose identifier extends ["abc"] past a colon. *)
Definition request_longer_id : json :=
  JObj [("id", JStr "abc:x"); ("salt", JStr "s3cret!")].

(** A platform like [env] whose clock passes from the year 9999 to the
    year 10000 between its first two readings. *)
Definition env_year_10000 : Env :=
  {| Date_now := fun n => 253402300799999 + Z.of_nat n;
     getRandomValues := fun n => repeat (N.of_nat n) 16;
     kv_fault := fun _ => None;
     kv_others := fun _ m => m |}.

(** A platform like [env] whose random source repeats itself. *)
Definition env_stuck_random : Env :=
  {| Date_now := fun n => 1700000000000 + Z.of_nat n;
     getRandomValues := fun _ => repeat 7%N 16;
     kv_fault := fun _ => None;
     kv_others := fun _ m => m |}.

(** A platform like [env] where another client empties the namespace
    between the first and the second store call of the worker. *)
Definition env_emptied_meanwhile : Env :=
  {| Date_now := fun n => 1700000000000 + Z.of_nat n;
     getRandomValues := fun n => repeat (N.of_nat n) 16;
     kv_fault := fun _ => None;
     kv_others := fun n m => if Nat.eqb n 1 then ∅ else m |}.

(** A namespace whose only value is not JSON. *)
Definition unparsable : gmap string string :=
  {[ "acme:x:2020-01-01T00:00:00.000Z" := "oops" ]}.

(** A namespace holding one record, as the worker writes it. *)
Definition one_record (org i s timestamp : string) : gmap string string :=
  {[ Part000.composite_key org i timestamp :=
       JSON_stringify (Part000.stored_record org {| id := i; salt := s |} timestamp) ]}.

(** An organization that already holds a record of the identifier
    ["zzz"], written in 2020. *)
Definition older : gmap string string :=
  one_record "acme" "zzz" "oldsalt1" "2020-01-01T00:00:00.000Z".

End Sample.

(* ===================================================================== *)
(** * Vocabulary and sample runs for the rest of the route table *)
(* ===================================================================== *)

Module Cover.
Import Js Zod Runtime Spec.

(** The path of a request is that of [/api/:org/req-validate]. *)
Definition on_req_validate (req : Request) : bool :=
  match path req with
  | [p; _; q] => String.eqb p "api" && String.eqb q "req-validate"
  | _ => false
  end.

(** The status codes the handlers and hono write. *)
Definition statuses : list nat := [200; 201; 204; 400; 404; 500]%nat.

(** The request is for one of the four routes that have a
    [validator('json', ...)] in front of their handler. *)
Definition validated (req : Request) : bool :=
  match method req, path req with
  | POST, [p] => String.eqb p "posts"
  | PUT, [p; _] => String.eqb p "posts"
  | POST, [p; _; q] => String.eqb p "api" && String.eqb q "req-validate"
  | DELETE, [p; _; q] => String.eqb p "api" && String.eqb q "req-validate"
  | _, _ => false
  end.

(** [POST /api/acme/req-validate] with a body that is not JSON. *)
Definition malformed_request : Request :=
  {| method := POST; path := ["api"; "acme"; "req-validate"]; json_body := None |}.

(** The path an issue points at. *)
Definition issue_path (i : Issue) : list string :=
  match i with
  | invalid_type p _ _ => p
  | too_small p _ => p
  | too_big p _ => p
  end.

(** The property of a body that a string schema reads is a string within
    the bounds [lo] and [hi]. *)
Definition field_ok (lo : nat) (hi : option nat) (props : list (string * json))
    (k : string) : Prop :=
  exists s, obj_get props k = Some (JStr s) /\ (lo <= js_length s)%nat
            /\ forall m, hi = Some m -> (js_length s <= m)%nat.

(** A platform like [Sample.env] whose store rejects the call of the
    given rank, and no other. *)
Definition env_failing_at (rank : nat) (e : Thrown) : Env :=
  {| Date_now := fun n => 1700000000000 + Z.of_nat n;
     getRandomValues := fun n => repeat (N.of_nat n) 16;
     kv_fault := fun n => if Nat.eqb n rank then Some e else None;
     kv_others := fun _ m => m |}.

(** A platform like [Sample.env] whose clock stands still. *)
Definition env_frozen_clock : Env :=
  {| Date_now := fun _ => 1700000000000;
     getRandomValues := fun n => repeat (N.of_nat n) 16;
     kv_fault := fun _ => None;
     kv_others := fun _ m => m |}.

(** Two records of the identifier ["abc"] and one of ["other"], all of
    the organization ["acme"]. *)
Definition three_records : gmap string string :=
  Sample.one_record "acme" "abc" "s3cret!" "2023-11-14T22:13:20.000Z"
  ∪ Sample.one_record "acme" "abc" "s3cret!" "2023-11-15T08:00:00.000Z"
  ∪ Sample.one_record "acme" "other" "0ther-salt" "2022-01-01T00:00:00.000Z".

(** A namespace whose only value is the JSON number 5. *)
Definition a_number : gmap string string :=
  {[ "acme:x:2020-01-01T00:00:00.000Z" := "5" ]}.

End Cover.

(* ===================================================================== *)
(** * Facts about strings and keys *)
(* ===================================================================== *)

Import Js Zod Runtime Spec Cover.

Section StringFacts.

Lemma append_assoc (a b c : string) : (a +:+ b) +:+ c = a +:+ (b +:+ c).
Proof. induction a as [|x a IH]; simpl; [reflexivity | now rewrite IH]. Qed.

Lemma append_empty_r (a : string) : a +:+ "" = a.
Proof. induction a as [|x a IH]; simpl; [reflexivity | now rewrite IH]. Qed.

Lemma append_inj_l (p a b : string) : p +:+ a = p +:+ b -> a = b.
Proof. induction p as [|x p IH]; simpl; [trivial | intros [= H]; auto]. Qed.

Lemma startsWith_append (p s : string) : startsWith p (p +:+ s) = true.
Proof.
  induction p as [|x p IH]; simpl; [reflexivity |].
  now rewrite Ascii.eqb_refl.
Qed.

Lemma startsWith_inv (p k : string) :
  startsWith p k = true -> exists s, k = p +:+ s.
Proof.
  revert k. induction p as [|x p IH]; intros k H; simpl in *.
  - now exists k.
  - destruct k as [|y k]; [discriminate |].
    destruct (Ascii.eqb x y) eqn:E; [| discriminate].
    apply Ascii.eqb_eq in E. subst y.
    destruct (IH k H) as [s ->]. now exists s.
Qed.

Lemma ascii_compare_refl (c : ascii) : Ascii.compare c c = Eq.
Proof. unfold Ascii.compare. apply N.compare_refl. Qed.

Lemma compare_refl (a : string) : String.compare a a = Eq.
Proof.
  induction a as [|x a IH]; simpl; [reflexivity |].
  now rewrite ascii_compare_refl.
Qed.

(** Under a common prefix, two keys compare as their remainders do. *)
Lemma compare_append_same (p a b : string) :
  String.compare (p +:+ a) (p +:+ b) = String.compare a b.
Proof.
  induction p as [|x p IH]; simpl; [reflexivity |].
  now rewrite ascii_compare_refl.
Qed.

Lemma str_lt_le (a b : string) : str_lt a b -> String.le a b.
Proof.
  unfold str_lt, String.le, String.leb. intros ->. exact I.
Qed.

Lemma str_lt_ne (a b : string) : str_lt a b -> a <> b.
Proof.
  unfold str_lt. intros H ->. rewrite compare_refl in H. discriminate.
Qed.

End StringFacts.

Section KeyListing.

Lemma elem_of_keys_with_prefix (prefix k : string) (m : gmap string string) :
  k ∈ keys_with_prefix prefix m <-> is_Some (m !! k) /\ startsWith prefix k = true.
Proof.
  unfold keys_with_prefix.
  rewrite merge_sort_Permutation, list_elem_of_filter, elem_of_elements, elem_of_dom.
  tauto.
Qed.

Lemma keys_with_prefix_sorted (prefix : string) (m : gmap string string) :
  StronglySorted String.le (keys_with_prefix prefix m).
Proof. apply StronglySorted_merge_sort; apply _. Qed.

(** In a sorted listing the last key is the greatest. *)
Lemma sorted_last_greatest (l : list string) (k : string) :
  StronglySorted String.le l -> k ∈ l -> (forall x, x ∈ l -> String.le x k) ->
  l !! (length l - 1)%nat = Some k.
Proof.
  intros Hs Hk Hmax.
  destruct (last l) as [z|] eqn:Hl.
  - rewrite last_lookup in Hl.
    replace (length l - 1)%nat with (pred (length l)) by lia.
    rewrite Hl. f_equal.
    assert (Hz : z ∈ l) by (apply list_elem_of_lookup; eauto).
    apply (anti_symm String.le); [now apply Hmax |].
    rewrite <- last_lookup in Hl. apply last_Some in Hl as [l' ->].
    apply elem_of_app in Hk as [Hk | Hk].
    + apply StronglySorted_app in Hs as (H & _ & _). apply H; [assumption |].
      now apply list_elem_of_singleton.
    + apply list_elem_of_singleton in Hk. now subst.
  - apply last_None in Hl. subst. now apply not_elem_of_nil in Hk.
Qed.

End KeyListing.

(* ===================================================================== *)
(** * [JSON.parse] reads back what [JSON.stringify] wrote *)
(* ===================================================================== *)

Section JsonRoundTrip.

(** One escaped character is read back as one item that assembles to the
    character. *)
Lemma string_items_escape_char (c : ascii) (text : string) l rest :
  string_items text = Some (l, rest) ->
  exists i, string_items (escape_char c +:+ text) = Some (i :: l, rest)
            /\ forall l', assemble (i :: l') = String c (assemble l').
Proof.
  intros H.
  destruct c as [b0 b1 b2 b3 b4 b5 b6 b7].
  destruct b0, b1, b2, b3, b4, b5, b6, b7;
    unfold escape_char; simpl; rewrite H; simpl;
    (eexists; split; [reflexivity | intros [|[|] l']; reflexivity]).
Qed.

Lemma string_items_escape (s rest : string) :
  exists l, string_items (escape s +:+ String dquote rest) = Some (l, rest)
            /\ assemble l = s.
Proof.
  induction s as [|c s (l & Hl & Ha)].
  - exists []. split; reflexivity.
  - cbn [escape]. rewrite append_assoc.
    destruct (string_items_escape_char c _ _ _ Hl) as (i & Hi & Hasm).
    exists (i :: l). split; [assumption |].
    now rewrite Hasm, Ha.
Qed.

Lemma parse_string_lit_escape (s rest : string) :
  parse_string_lit (escape s +:+ String dquote rest) = Some (s, rest).
Proof.
  unfold parse_string_lit.
  destruct (string_items_escape s rest) as (l & -> & ->). reflexivity.
Qed.

Lemma parse_value_string (n : nat) (s rest : string) :
  parse_value (S n) (quote s +:+ rest) = PDone (JStr s) rest.
Proof.
  unfold quote. simpl. rewrite append_assoc. simpl.
  now rewrite parse_string_lit_escape.
Qed.

(** A member with a string value, followed by a comma. *)
Lemma parse_members_more (n : nat) (k v rest : string) :
  parse_members (S (S n)) (quote k +:+ ":" +:+ quote v +:+ "," +:+ rest)
  = pcons (k, JStr v) (parse_members (S n) rest).
Proof.
  remember (S n) as fuel eqn:Hfuel.
  remember (quote v +:+ "," +:+ rest) as tail eqn:Htail.
  unfold quote. simpl. rewrite append_assoc. simpl.
  rewrite parse_string_lit_escape. simpl.
  subst fuel tail. rewrite parse_value_string. reflexivity.
Qed.

(** A member with a string value, followed by the closing brace. *)
Lemma parse_members_last (n : nat) (k v rest : string) :
  parse_members (S (S n)) (quote k +:+ ":" +:+ quote v +:+ "}" +:+ rest)
  = PDone [(k, JStr v)] rest.
Proof.
  remember (S n) as fuel eqn:Hfuel.
  remember (quote v +:+ "}" +:+ rest) as tail eqn:Htail.
  unfold quote. simpl. rewrite append_assoc. simpl.
  rewrite parse_string_lit_escape. simpl.
  subst fuel tail. rewrite parse_value_string. reflexivity.
Qed.

(** The text of an object with four string properties, as [JSON.stringify]
    writes it. *)
Lemma JSON_stringify_4 (k1 v1 k2 v2 k3 v3 k4 v4 : string) :
  JSON_stringify (JObj [(k1, JStr v1); (k2, JStr v2); (k3, JStr v3); (k4, JStr v4)])
  = "{" +:+ quote k1 +:+ ":" +:+ quote v1 +:+ "," +:+
            quote k2 +:+ ":" +:+ quote v2 +:+ "," +:+
            quote k3 +:+ ":" +:+ quote v3 +:+ "," +:+
            quote k4 +:+ ":" +:+ quote v4 +:+ "}" +:+ "".
Proof.
  cbn [JSON_stringify]. rewrite !append_assoc. reflexivity.
Qed.

(** [JSON.parse(JSON.stringify(o))] gives [o] back for an object [o] with
    four string properties. *)
Lemma JSON_parse_stringify_4 (k1 v1 k2 v2 k3 v3 k4 v4 : string) :
  JSON_parse (JSON_stringify
                (JObj [(k1, JStr v1); (k2, JStr v2); (k3, JStr v3); (k4, JStr v4)]))
  = inr (JObj [(k1, JStr v1); (k2, JStr v2); (k3, JStr v3); (k4, JStr v4)]).
Proof.
  rewrite JSON_stringify_4. unfold JSON_parse.
  match goal with |- context [parse_budget ?t] =>
    assert (Hb : exists n, parse_budget t = S (S (S (S (S (S n))))))
  end.
  { match goal with |- context [parse_budget ?t] => exists (parse_budget t - 6)%nat end.
    unfold parse_budget, quote. simpl. lia. }
  destruct Hb as [n ->].
  match goal with |- context [parse_value (S ?f) ("{" +:+ ?r)] =>
    change (parse_value (S f) ("{" +:+ r)) with (pmap JObj (parse_members f r))
  end.
  rewrite parse_members_more, parse_members_more, parse_members_more, parse_members_last.
  reflexivity.
Qed.

End JsonRoundTrip.

(* ===================================================================== *)
(** * The budget of [JSON.parse] is never used up *)
(* ===================================================================== *)

Section ParseBudget.

Local Abbreviation len := String.length.

Lemma skip_ws_length s : (len (skip_ws s) <= len s)%nat.
Proof.
  induction s as [|c s IH]; simpl; [lia |].
  destruct (is_ws c); simpl; lia.
Qed.

Lemma skip_ws_cons s c r : skip_ws s = String c r -> (len r < len s)%nat.
Proof. intros H. pose proof (skip_ws_length s) as L. rewrite H in L. simpl in L. lia. Qed.

Lemma push_Some {A B} (x : A) (o : option (list A * B)) l r :
  push x o = Some (l, r) -> exists l', o = Some (l', r).
Proof. destruct o as [[l' r']|]; simpl; [intros [= <- <-]; eauto | discriminate]. Qed.

Lemma string_items_length n : forall s l r,
  (len s <= n)%nat -> string_items s = Some (l, r) -> (len r < len s)%nat.
Proof.
  induction n as [|n IH]; intros s l r Hn H.
  - destruct s; [discriminate | simpl in Hn; lia].
  - destruct s as [|c s]; [discriminate |].
    simpl in Hn. cbn [string_items] in H.
    destruct (code c =? 34)%N; [injection H as _ <-; simpl; lia |].
    destruct (code c =? 92)%N.
    + destruct s as [|e r1]; [discriminate |]. simpl in Hn. cbv zeta in H.
      repeat match type of H with
             | (if ?b then _ else _) = _ =>
                 destruct b;
                 [ try (apply push_Some in H as [l' H]; apply IH in H; simpl; lia) |]
             end; try discriminate.
      destruct r1 as [|h1 [|h2 [|h3 [|h4 r2]]]]; try discriminate.
      destruct (hex4 h1 h2 h3 h4); [| discriminate].
      apply push_Some in H as [l' H]. apply IH in H; simpl in *; lia.
    + destruct (code c <? 32)%N; [discriminate |].
      apply push_Some in H as [l' H]. apply IH in H; simpl; lia.
Qed.

Lemma parse_string_lit_length s str r :
  parse_string_lit s = Some (str, r) -> (len r < len s)%nat.
Proof.
  unfold parse_string_lit.
  destruct (string_items s) as [[l r']|] eqn:E; [| discriminate].
  intros [= _ <-]. eapply string_items_length; eauto.
Qed.

Lemma span_digits_length s : (len (snd (span_digits s)) <= len s)%nat.
Proof.
  induction s as [|c s IH]; simpl; [lia |].
  destruct (is_digit c); simpl; [| lia].
  destruct (span_digits s); simpl in *. lia.
Qed.

Lemma strip_prefix_length p s r :
  strip_prefix p s = Some r -> len s = (len p + len r)%nat.
Proof.
  revert s. induction p as [|a p IH]; intros [|b s] H; simpl in *;
    try discriminate; try (injection H as <-; reflexivity).
  destruct (Ascii.eqb a b); [| discriminate]. apply IH in H. lia.
Qed.

Lemma parse_number_length s lit r :
  parse_number s = Some (lit, r) -> (len r < len s)%nat.
Proof.
  unfold parse_number.
  set (sgn := match s with String c r0 => _ | EmptyString => _ end).
  assert (Hs : (len (snd sgn) <= len s)%nat).
  { unfold sgn. destruct s as [|c r0]; simpl; [lia |].
    destruct (code c =? 45)%N; simpl; lia. }
  destruct sgn as [sign s1]. simpl in Hs.
  destruct (number_int s1) as [[i s2]|] eqn:Ei; [| discriminate].
  assert (H2 : (len s2 < len s1)%nat).
  { unfold number_int in Ei. destruct s1 as [|c r0]; [discriminate |].
    destruct (code c =? 48)%N; [injection Ei as _ <-; simpl; lia |].
    destruct (is_digit c); [| discriminate].
    pose proof (span_digits_length r0) as L. destruct (span_digits r0).
    injection Ei as _ <-. simpl in *. lia. }
  destruct (number_frac s2) as [[f s3]|] eqn:Ef; [| discriminate].
  assert (H3 : (len s3 <= len s2)%nat).
  { unfold number_frac in Ef. destruct s2 as [|c r0]; [injection Ef as _ <-; simpl; lia |].
    destruct (code c =? 46)%N; [| injection Ef as _ <-; simpl; lia].
    pose proof (span_digits_length r0) as L. destruct (span_digits r0) as [[|d ds] rest];
      [discriminate |]. injection Ef as _ <-. simpl in *. lia. }
  destruct (number_exp s3) as [[e s4]|] eqn:Ee; [| discriminate].
  assert (H4 : (len s4 <= len s3)%nat).
  { unfold number_exp in Ee. destruct s3 as [|c r0]; [injection Ee as _ <-; simpl; lia |].
    destruct ((code c =? 101) || (code c =? 69))%N; [| injection Ee as _ <-; simpl; lia].
    set (sg := match r0 with String g r' => _ | EmptyString => _ end) in Ee.
    assert (Hg : (len (snd sg) <= len r0)%nat).
    { unfold sg. destruct r0 as [|g r']; simpl; [lia |].
      destruct ((code g =? 43) || (code g =? 45))%N; simpl; lia. }
    destruct sg as [sign' r1]. simpl in Hg.
    pose proof (span_digits_length r1) as L. destruct (span_digits r1) as [[|d ds] rest];
      [discriminate |]. injection Ee as _ <-. simpl in *. lia. }
  intros [= _ <-]. lia.
Qed.

Lemma parse_scalar_length s v r :
  parse_scalar s = PDone v r -> (len r < len s)%nat.
Proof.
  unfold parse_scalar.
  destruct (strip_prefix "null" s) eqn:E1.
  { intros [= _ <-]. apply strip_prefix_length in E1. simpl in E1. lia. }
  destruct (strip_prefix "true" s) eqn:E2.
  { intros [= _ <-]. apply strip_prefix_length in E2. simpl in E2. lia. }
  destruct (strip_prefix "false" s) eqn:E3.
  { intros [= _ <-]. apply strip_prefix_length in E3. simpl in E3. lia. }
  destruct (parse_number s) as [[lit r']|] eqn:E4; [| discriminate].
  intros [= _ <-]. eapply parse_number_length; eauto.
Qed.

Lemma pmap_PDone {A B} (f : A -> B) (p : Parsed A) b r :
  pmap f p = PDone b r -> exists a, p = PDone a r.
Proof. destruct p; simpl; [intros [= _ <-]; eauto | discriminate..]. Qed.

Lemma pcons_PDone {A} (x : A) (p : Parsed (list A)) l r :
  pcons x p = PDone l r -> exists l', p = PDone l' r.
Proof. destruct p; simpl; [intros [= _ <-]; eauto | discriminate..]. Qed.

Lemma pmap_PExhausted {A B} (f : A -> B) (p : Parsed A) :
  pmap f p = PExhausted -> p = PExhausted.
Proof. destruct p; simpl; [discriminate.. | reflexivity]. Qed.

Lemma pcons_PExhausted {A} (x : A) (p : Parsed (list A)) :
  pcons x p = PExhausted -> p = PExhausted.
Proof. destruct p; simpl; [discriminate.. | reflexivity]. Qed.

(** A parser that succeeds has read at least one character. *)
Lemma parse_rest_shorter (n : nat) :
  (forall s v r, parse_value n s = PDone v r -> (len r < len s)%nat)
  /\ (forall s l r, parse_elements n s = PDone l r -> (len r < len s)%nat)
  /\ (forall s l r, parse_members n s = PDone l r -> (len r < len s)%nat).
Proof.
  induction n as [|n (IHv & IHe & IHm)]; [repeat split; discriminate |].
  repeat split.
  - intros s v r H. cbn [parse_value] in H.
    destruct (skip_ws s) as [|c r0] eqn:Es; [discriminate |].
    apply skip_ws_cons in Es.
    destruct (code c =? 123)%N.
    { destruct (skip_ws r0) as [|c' r'] eqn:E'; [discriminate |].
      apply skip_ws_cons in E'.
      destruct (code c' =? 125)%N; [injection H as _ <-; lia |].
      apply pmap_PDone in H as [l H]. apply IHm in H. lia. }
    destruct (code c =? 91)%N.
    { destruct (skip_ws r0) as [|c' r'] eqn:E'; [discriminate |].
      apply skip_ws_cons in E'.
      destruct (code c' =? 93)%N; [injection H as _ <-; lia |].
      apply pmap_PDone in H as [l H]. apply IHe in H. lia. }
    destruct (code c =? 34)%N.
    { destruct (parse_string_lit r0) as [[str rest]|] eqn:El; [| discriminate].
      injection H as _ <-. apply parse_string_lit_length in El. lia. }
    apply parse_scalar_length in H. simpl in H. lia.
  - intros s l r H. cbn [parse_elements] in H.
    destruct (parse_value n s) as [v r0| |] eqn:Ev; try discriminate.
    apply IHv in Ev.
    destruct (skip_ws r0) as [|c r'] eqn:Es; [discriminate |].
    apply skip_ws_cons in Es.
    destruct (code c =? 44)%N.
    { apply pcons_PDone in H as [l' H]. apply IHe in H. lia. }
    destruct (code c =? 93)%N; [injection H as _ <-; lia | discriminate].
  - intros s l r H. cbn [parse_members] in H.
    destruct (skip_ws s) as [|c r0] eqn:Es; [discriminate |].
    apply skip_ws_cons in Es.
    destruct (code c =? 34)%N; [| discriminate].
    destruct (parse_string_lit r0) as [[k r1]|] eqn:El; [| discriminate].
    apply parse_string_lit_length in El.
    destruct (skip_ws r1) as [|c1 r2] eqn:E1; [discriminate |].
    apply skip_ws_cons in E1.
    destruct (code c1 =? 58)%N; [| discriminate].
    destruct (parse_value n r2) as [v r3| |] eqn:Ev; try discriminate.
    apply IHv in Ev.
    destruct (skip_ws r3) as [|c3 r4] eqn:E3; [discriminate |].
    apply skip_ws_cons in E3.
    destruct (code c3 =? 44)%N.
    { apply pcons_PDone in H as [l' H]. apply IHm in H. lia. }
    destruct (code c3 =? 125)%N; [injection H as _ <-; lia | discriminate].
Qed.

(** With a budget of twice the length of the text, no parser runs out. *)
Lemma parse_never_exhausted (n : nat) :
  (forall s, (2 * len s + 1 <= n)%nat -> parse_value n s <> PExhausted)
  /\ (forall s, (2 * len s + 2 <= n)%nat -> parse_elements n s <> PExhausted)
  /\ (forall s, (2 * len s + 1 <= n)%nat -> parse_members n s <> PExhausted).
Proof.
  induction n as [|n (IHv & IHe & IHm)]; [repeat split; intros; lia |].
  pose proof (parse_rest_shorter n) as (Sv & Se & Sm).
  repeat split.
  - intros s Hn H. cbn [parse_value] in H.
    destruct (skip_ws s) as [|c r0] eqn:Es; [discriminate |].
    apply skip_ws_cons in Es.
    destruct (code c =? 123)%N.
    { destruct (skip_ws r0) as [|c' r'] eqn:E'; [discriminate |].
      destruct (code c' =? 125)%N; [discriminate |].
      apply pmap_PExhausted in H. revert H. apply IHm. lia. }
    destruct (code c =? 91)%N.
    { destruct (skip_ws r0) as [|c' r'] eqn:E'; [discriminate |].
      destruct (code c' =? 93)%N; [discriminate |].
      apply pmap_PExhausted in H. revert H. apply IHe. lia. }
    destruct (code c =? 34)%N.
    { destruct (parse_string_lit r0) as [[str rest]|]; discriminate. }
    unfold parse_scalar in H.
    repeat match type of H with
           | match ?x with _ => _ end = _ => destruct x as [[? ?]|] || destruct x
           end; discriminate.
  - intros s Hn H. cbn [parse_elements] in H.
    destruct (parse_value n s) as [v r0| |] eqn:Ev; try discriminate.
    + apply Sv in Ev.
      destruct (skip_ws r0) as [|c r'] eqn:Es; [discriminate |].
      apply skip_ws_cons in Es.
      destruct (code c =? 44)%N.
      { apply pcons_PExhausted in H. revert H. apply IHe. lia. }
      destruct (code c =? 93)%N; discriminate.
    + revert Ev. apply IHv. lia.
  - intros s Hn H. cbn [parse_members] in H.
    destruct (skip_ws s) as [|c r0] eqn:Es; [discriminate |].
    apply skip_ws_cons in Es.
    destruct (code c =? 34)%N; [| discriminate].
    destruct (parse_string_lit r0) as [[k r1]|] eqn:El; [| discriminate].
    apply parse_string_lit_length in El.
    destruct (skip_ws r1) as [|c1 r2] eqn:E1; [discriminate |].
    apply skip_ws_cons in E1.
    destruct (code c1 =? 58)%N; [| discriminate].
    destruct (parse_value n r2) as [v r3| |] eqn:Ev; try discriminate.
    + apply Sv in Ev.
      destruct (skip_ws r3) as [|c3 r4] eqn:E3; [discriminate |].
      apply skip_ws_cons in E3.
      destruct (code c3 =? 44)%N.
      { apply pcons_PExhausted in H. revert H. apply IHm. lia. }
      destruct (code c3 =? 125)%N; discriminate.
    + revert Ev. apply IHv. lia.
Qed.

(** [JSON.parse] decides every text: the budget it gives the parser is
    never used up. *)
Lemma JSON_parse_budget_suffices (text : string) :
  parse_value (parse_budget text) text <> PExhausted.
Proof.
  apply (proj1 (parse_never_exhausted (parse_budget text))).
  unfold parse_budget. lia.
Qed.

End ParseBudget.

(* ===================================================================== *)
(** * The schemas *)
(* ===================================================================== *)

Section Schemas.

Lemma z_string_inr lo hi path v s :
  z_string lo hi path v = inr s <->
  v = Some (JStr s) /\ (lo <= js_length s)%nat
  /\ (forall m, hi = Some m -> (js_length s <= m)%nat).
Proof.
  unfold z_string. split.
  - destruct v as [[| | |s'| |]|]; try discriminate.
    destruct (Nat.ltb_spec (js_length s') lo); [discriminate |].
    destruct hi as [m|].
    + destruct (Nat.ltb_spec m (js_length s')); [discriminate |].
      simpl. intros [= ->]. repeat split; try lia. now intros ? [= <-].
    + simpl. intros [= ->]. repeat split; try lia. discriminate.
  - intros (-> & Hlo & Hhi).
    destruct (Nat.ltb_spec (js_length s) lo); [lia |].
    destruct hi as [m|]; [| reflexivity].
    specialize (Hhi m eq_refl).
    destruct (Nat.ltb_spec m (js_length s)); [lia | reflexivity].
Qed.

(** A failing string check reports at least one issue. *)
Lemma z_string_inl lo hi path v issues :
  z_string lo hi path v = inl issues -> issues <> [].
Proof.
  unfold z_string.
  destruct v as [[| | |s'| |]|]; try (intros [= <-]; discriminate).
  destruct (_ ++ _) eqn:E; [discriminate |]. intros [= <-]. discriminate.
Qed.

Lemma validateRequestSchema_inr value i s :
  validateRequestSchema value = inr {| id := i; salt := s |} <-> valid_request value i s.
Proof.
  unfold validateRequestSchema, valid_request. split.
  - destruct value as [| | | | |props]; try discriminate.
    destruct (z_string 1 None ["id"] _) as [|i'] eqn:Ei; [discriminate |].
    destruct (z_string 6 None ["salt"] _) as [|s'] eqn:Es; [discriminate |].
    intros [= -> ->].
    apply z_string_inr in Ei as (Hi & Hli & _), Es as (Hs & Hls & _).
    exists props. auto.
  - intros (props & -> & Hi & Hli & Hs & Hls).
    assert (Ei : z_string 1 None ["id"] (obj_get props "id") = inr i)
      by (apply z_string_inr; repeat split; auto; discriminate).
    assert (Es : z_string 6 None ["salt"] (obj_get props "salt") = inr s)
      by (apply z_string_inr; repeat split; auto; discriminate).
    now rewrite Ei, Es.
Qed.

Lemma postSchema_inr value t c :
  postSchema value = inr {| title := t; content := c |} <-> valid_post value t c.
Proof.
  unfold postSchema, valid_post. split.
  - destruct value as [| | | | |props]; try discriminate.
    destruct (z_string 1 (Some 100%nat) ["title"] _) as [|t'] eqn:Et; [discriminate |].
    destruct (z_string 1 (Some 1000%nat) ["content"] _) as [|c'] eqn:Ec; [discriminate |].
    intros [= -> ->].
    apply z_string_inr in Et as (Ht & Hlt & Hht), Ec as (Hc & Hlc & Hhc).
    exists props. specialize (Hht _ eq_refl). specialize (Hhc _ eq_refl). auto 10.
  - intros (props & -> & Ht & Hlt & Hht & Hc & Hlc & Hhc).
    assert (Et : z_string 1 (Some 100%nat) ["title"] (obj_get props "title") = inr t)
      by (apply z_string_inr; repeat split; auto; now intros ? [= <-]).
    assert (Ec : z_string 1 (Some 1000%nat) ["content"] (obj_get props "content") = inr c)
      by (apply z_string_inr; repeat split; auto; now intros ? [= <-]).
    now rewrite Et, Ec.
Qed.

Lemma validateRequestSchema_inl value issues :
  validateRequestSchema value = inl issues -> issues <> [].
Proof.
  unfold validateRequestSchema.
  destruct value as [| | | | |props]; try (intros [= <-]; discriminate).
  destruct (z_string 1 None ["id"] _) as [l1|] eqn:Ei;
    destruct (z_string 6 None ["salt"] _) as [l2|] eqn:Es;
    try discriminate; intros [= <-]; simpl;
    try apply z_string_inl in Ei; try apply z_string_inl in Es.
  - destruct l1; [congruence | discriminate].
  - rewrite app_nil_r. assumption.
  - assumption.
Qed.

Lemma postSchema_inl value issues :
  postSchema value = inl issues -> issues <> [].
Proof.
  unfold postSchema.
  destruct value as [| | | | |props]; try (intros [= <-]; discriminate).
  destruct (z_string 1 (Some 100%nat) ["title"] _) as [l1|] eqn:Et;
    destruct (z_string 1 (Some 1000%nat) ["content"] _) as [l2|] eqn:Ec;
    try discriminate; intros [= <-]; simpl;
    try apply z_string_inl in Et; try apply z_string_inl in Ec.
  - destruct l1; [congruence | discriminate].
  - rewrite app_nil_r. assumption.
  - assumption.
Qed.

End Schemas.

(* ===================================================================== *)
(** * Input validation (C4) *)
(* ===================================================================== *)

Section Validation.

(** C4, as amended.  Schema validation gates the handlers of the mutating
    routes.  A Post payload passes exactly when it is an object whose
    [title] is a string of 1 to 100 characters and whose [content] is a
    string of 1 to 1000 characters; a ValidationRequest payload passes
    exactly when it is an object whose [id] is a non-empty string and
    whose [salt] is a string of at least 6 characters.  A missing property
    fails; a property the schema does not name is ignored.  On a failure
    the route answers 400 with the message "Invalid input" and the
    non-empty list of issues, and the state is left untouched: no store
    call, no clock reading, no random draw. *)
Theorem C4_validation_gates_the_handlers :
  (forall value t c,
      postSchema value = inr {| title := t; content := c |} <-> valid_post value t c)
  /\ (forall value i s,
      validateRequestSchema value = inr {| id := i; salt := s |}
      <-> valid_request value i s)
  /\ (forall env st value issues id,
      postSchema value = inl issues ->
      issues <> []
      /\ Part000.fetch (posts POST value) env st = (Returns (invalid_input issues), st)
      /\ Part000.fetch (posts_id PUT id value) env st
         = (Returns (invalid_input issues), st))
  /\ (forall env st value issues org,
      validateRequestSchema value = inl issues ->
      issues <> []
      /\ Part000.fetch (req_validate POST org value) env st
         = (Returns (invalid_input issues), st)
      /\ Part000.fetch (req_validate DELETE org value) env st
         = (Returns (invalid_input issues), st)).
Proof.
  split; [exact postSchema_inr |].
  split; [exact validateRequestSchema_inr |].
  split.
  - intros env st value issues id H.
    split; [now apply postSchema_inl in H |].
    unfold Part000.fetch, Part000.dispatch, cors, onError, try_catch, Part000.route, posts,
      posts_id,
      validator; simpl.
    rewrite H. split; reflexivity.
  - intros env st value issues org H.
    split; [now apply validateRequestSchema_inl in H |].
    unfold Part000.fetch, Part000.dispatch, cors, onError, try_catch, Part000.route, req_validate,
      validator; simpl.
    rewrite H. split; reflexivity.
Qed.

(** C4 at work: an empty [id] and a numeric [salt] are both reported, and
    the namespace is what it was. *)
Lemma C4_validation_witness :
  validateRequestSchema (JObj [("id", JStr ""); ("salt", JNum "5")])
  = inl [too_small ["id"] 1; invalid_type ["salt"] "string" "number"]
  /\ Part000.fetch (req_validate POST "acme" (JObj [("id", JStr ""); ("salt", JNum "5")]))
       Sample.env (Sample.state Sample.older)
     = (Returns (invalid_input [too_small ["id"] 1;
                                invalid_type ["salt"] "string" "number"]),
        Sample.state Sample.older).
Proof.
  split; [reflexivity |].
  exact (proj1 (proj2 (proj2 (proj2 (proj2 C4_validation_gates_the_handlers))
                         Sample.env (Sample.state Sample.older)
                         (JObj [("id", JStr ""); ("salt", JNum "5")])
                         [too_small ["id"] 1; invalid_type ["salt"] "string" "number"]
                         "acme" eq_refl))).
Defined.

(** C4, the claim as first stated fails: a Post payload with an extra
    property passes the schema, and the route answers 201. *)
Lemma C4_extra_property_passes :
  postSchema Sample.post_with_extra = inr {| title := "a"; content := "b" |}
  /\ status_of (fst (Part000.fetch (posts POST Sample.post_with_extra)
                       Sample.env (Sample.state ∅))) = Some 201%nat.
Proof. split; reflexivity. Qed.

End Validation.

(* ===================================================================== *)
(** * The post routes that read (C7) *)
(* ===================================================================== *)

Section PostReads.

(** C7.  [GET /posts] answers 200 with [{ok: true, posts: []}] and
    [GET /posts/:id] answers 200 with [{ok: true, post: null}], in every
    state and for every identifier; in particular for whatever a
    [POST /posts] did before.  Neither touches the state. *)
Theorem C7_post_reads_are_constant :
  forall env st value id,
    Part000.fetch (posts GET value) env st
    = (Returns (c_json (JObj [("ok", JBool true); ("posts", JArr [])]) 200), st)
    /\ Part000.fetch (posts_id GET id value) env st
       = (Returns (c_json (JObj [("ok", JBool true); ("post", JNull)]) 200), st)
    /\ (forall created,
          let after := snd (Part000.fetch (posts POST created) env st) in
          Part000.fetch (posts_id GET id value) env after
          = (Returns (c_json (JObj [("ok", JBool true); ("post", JNull)]) 200), after)).
Proof.
  intros env st value id. repeat split.
Qed.

End PostReads.

(* ===================================================================== *)
(** * Create (C1) *)
(* ===================================================================== *)

Section Create.

(** What [POST /api/:org/req-validate] does with a valid payload, whatever
    the store call does. *)
Lemma post_req_validate_run env st org value i s :
  valid_request value i s ->
  Part000.fetch (req_validate POST org value) env st
  = let ts := toISOString (Date_now env (clock_reads st)) in
    let data := {| id := i; salt := s |} in
    let st' (m : gmap string string) :=
      {| RCX_VALIDATOR := m; clock_reads := S (clock_reads st);
         random_draws := random_draws st; kv_calls := S (kv_calls st) |} in
    match kv_fault env (kv_calls st) with
    | Some e => (Returns (Part000.failure "Validation failed" e), st' (met env st))
    | None =>
        (Returns (c_json (Part000.echo data) 200),
         st' (<[Part000.composite_key org i ts :=
                  JSON_stringify (Part000.stored_record org data ts)]> (met env st)))
    end.
Proof.
  intros Hv. apply validateRequestSchema_inr in Hv.
  unfold Part000.fetch, Part000.dispatch, cors, onError, Part000.route, req_validate,
    validator; simpl.
  rewrite Hv.
  unfold Part000.post_req_validate, try_catch, bind, now_ISO, kv_put, kv_call, met, ret;
    simpl.
  destruct (kv_fault env (kv_calls st)); reflexivity.
Qed.

(** C1.  For a valid payload, [POST /api/:org/req-validate] makes one call
    to the store.  When that call succeeds, the namespace gains exactly
    the record under [org:id:timestamp], a JSON text that reads back as
    the object with [org], [id], [salt] and [timestamp], and the answer is
    exactly [{id, salt}] with status 200.  When the call throws an [Error],
    the answer is 500 with the message of that error, as it was thrown,
    in the [errors] array; when it throws a value that is not an [Error],
    the array holds "Unknown error".  Either way the namespace is as the
    call met it. *)
Theorem C1_create_stores_and_echoes :
  forall env st org value i s,
    valid_request value i s ->
    let ts := toISOString (Date_now env (clock_reads st)) in
    let record :=
      JObj [("org", JStr org); ("id", JStr i); ("salt", JStr s); ("timestamp", JStr ts)] in
    let run := Part000.fetch (req_validate POST org value) env st in
    let failed (text : string) :=
      c_json (JObj [("ok", JBool false); ("message", JStr "Validation failed");
                    ("errors", JArr [JStr text])]) 500 in
    kv_calls (snd run) = S (kv_calls st)
    /\ (kv_fault env (kv_calls st) = None ->
        fst run = Returns (c_json (JObj [("id", JStr i); ("salt", JStr s)]) 200)
        /\ RCX_VALIDATOR (snd run)
           = <[org +:+ ":" +:+ i +:+ ":" +:+ ts := JSON_stringify record]> (met env st)
        /\ JSON_parse (JSON_stringify record) = inr record)
    /\ (forall text, kv_fault env (kv_calls st) = Some (ThrowError text) ->
        fst run = Returns (failed text)
        /\ RCX_VALIDATOR (snd run) = met env st)
    /\ (kv_fault env (kv_calls st) = Some ThrowOther ->
        fst run = Returns (failed "Unknown error")
        /\ RCX_VALIDATOR (snd run) = met env st).
Proof.
  intros env st org value i s Hv ts record run failed.
  unfold run. rewrite (post_req_validate_run _ _ _ _ _ _ Hv). cbv zeta.
  destruct (kv_fault env (kv_calls st)) as [e|] eqn:Hf.
  - split; [reflexivity |]. split; [discriminate |]. split.
    + intros text [= ->]. split; reflexivity.
    + intros [= ->]. split; reflexivity.
  - split; [reflexivity |]. split; [| split; discriminate].
    intros _. split; [reflexivity |].
    split; [reflexivity | apply JSON_parse_stringify_4].
Qed.

(** C1 at work on an empty namespace: once with a store that takes the
    record, once with a store whose [put] throws
    [new Error("KV unavailable")]. *)
Lemma C1_create_witness :
  valid_request Sample.request "abc" "s3cret!"
  /\ fst (Part000.fetch (req_validate POST "acme" Sample.request)
            Sample.env (Sample.state ∅))
     = Returns (c_json (JObj [("id", JStr "abc"); ("salt", JStr "s3cret!")]) 200)
  /\ kv_fault (env_failing_at 0 (ThrowError "KV unavailable"))
       (kv_calls (Sample.state ∅))
     = Some (ThrowError "KV unavailable")
  /\ fst (Part000.fetch (req_validate POST "acme" Sample.request)
            (env_failing_at 0 (ThrowError "KV unavailable")) (Sample.state ∅))
     = Returns (c_json (JObj [("ok", JBool false);
                              ("message", JStr "Validation failed");
                              ("errors", JArr [JStr "KV unavailable"])]) 500)
  /\ RCX_VALIDATOR
       (snd (Part000.fetch (req_validate POST "acme" Sample.request)
               (env_failing_at 0 (ThrowError "KV unavailable")) (Sample.state ∅)))
     = met (env_failing_at 0 (ThrowError "KV unavailable")) (Sample.state ∅).
Proof.
  assert (Hv : valid_request Sample.request "abc" "s3cret!").
  { eexists. repeat split; try reflexivity; vm_compute; lia. }
  split; [exact Hv |].
  split.
  { exact (proj1 (proj1 (proj2 (C1_create_stores_and_echoes
                                  Sample.env (Sample.state ∅) "acme" _ _ _ Hv))
                        eq_refl)). }
  split; [reflexivity |].
  exact (proj1 (proj2 (proj2 (C1_create_stores_and_echoes
                                (env_failing_at 0 (ThrowError "KV unavailable"))
                                (Sample.state ∅) "acme" _ _ _ Hv)))
           "KV unavailable" eq_refl).
Defined.

End Create.

(* ===================================================================== *)
(** * List-latest (C2) *)
(* ===================================================================== *)

Section ListLatest.

(** The answer of the handler once the value of the latest key is fetched. *)
Lemma get_req_validate_run env st org value :
  kv_fault env (kv_calls st) = None ->
  kv_fault env (S (kv_calls st)) = None ->
  fst (Part000.fetch (req_validate GET org value) env st)
  = match last (keys_with_prefix (org +:+ ":") (met env st)) with
    | None => Returns (Part000.no_data org)
    | Some k =>
        match kv_others env (S (kv_calls st)) (met env st) !! k with
        | None | Some EmptyString => Returns (Part000.no_data org)
        | Some text =>
            match JSON_parse text with
            | inl e => Returns (Part000.failure "Failed to fetch request" e)
            | inr JNull =>
                Returns (Part000.failure "Failed to fetch request" (TypeError "id"))
            | inr (JObj props) =>
                Returns (c_json (obj_lit [("id", obj_get props "id");
                                          ("salt", obj_get props "salt")]) 200)
            | inr _ => Returns (c_json (JObj []) 200)
            end
        end
    end.
Proof.
  intros Hf1 Hf2.
  unfold Part000.fetch, Part000.dispatch, cors, onError, Part000.route, req_validate; simpl.
  unfold Part000.get_req_validate, try_catch, bind, kv_list, kv_call, met; simpl.
  rewrite Hf1.
  set (keys := keys_with_prefix _ _).
  rewrite last_lookup.
  replace (pred (length keys)) with (length keys - 1)%nat by lia.
  destruct keys as [|k0 keys'] eqn:Hk; [reflexivity |].
  change (0 <? length (k0 :: keys'))%nat with true. cbv iota.
  destruct ((k0 :: keys') !! (length (k0 :: keys') - 1)%nat) as [k|] eqn:Hlast.
  - unfold kv_get, kv_call; simpl. rewrite Hf2.
    destruct (_ !! k) as [[|c v]|]; try reflexivity.
    unfold lift. destruct (JSON_parse (String c v)) as [e|[| | | | |props]];
      reflexivity.
  - apply lookup_ge_None in Hlast. simpl in Hlast. lia.
Qed.

(** C2, as amended.  [GET /api/:org/req-validate] lists the keys with
    prefix [org:].  With no key it answers 404 with an explanatory
    message.  Otherwise it fetches the value of the last key of the
    listing: a missing or empty value gets the same 404; a value that
    parses to an object gets 200 with the [id] and [salt] of that object;
    a value that does not parse gets 500 with the message of the parser's
    error (as does the JSON text [null], whose properties cannot be read). *)
Theorem C2_list_latest_answers :
  forall env st org value,
    kv_fault env (kv_calls st) = None ->
    kv_fault env (S (kv_calls st)) = None ->
    let keys := keys_with_prefix (org +:+ ":") (met env st) in
    let answer := fst (Part000.fetch (req_validate GET org value) env st) in
    let not_found :=
      c_json (JObj [("ok", JBool false);
                    ("message", JStr ("No data found for organization: " +:+ org));
                    ("errors", JArr [JStr "Organization not found"])]) 404 in
    let failed (e : Thrown) :=
      c_json (JObj [("ok", JBool false); ("message", JStr "Failed to fetch request");
                    ("errors", JArr [JStr (message_of e)])]) 500 in
    (keys = [] -> answer = Returns not_found)
    /\ (forall k, last keys = Some k ->
        let fetched := kv_others env (S (kv_calls st)) (met env st) !! k in
        (fetched = None \/ fetched = Some "" -> answer = Returns not_found)
        /\ (forall text props,
              fetched = Some text -> text <> "" -> JSON_parse text = inr (JObj props) ->
              answer = Returns (c_json (obj_lit [("id", obj_get props "id");
                                                 ("salt", obj_get props "salt")]) 200))
        /\ (forall text e,
              fetched = Some text -> text <> "" -> JSON_parse text = inl e ->
              answer = Returns (failed e))
        /\ (forall text,
              fetched = Some text -> text <> "" -> JSON_parse text = inr JNull ->
              answer = Returns (failed (TypeError "id")))).
Proof.
  intros env st org value Hf1 Hf2 keys answer not_found failed.
  unfold answer. rewrite (get_req_validate_run _ _ _ _ Hf1 Hf2). fold keys.
  split.
  - intros ->. reflexivity.
  - intros k ->. cbv zeta. repeat split.
    + intros [-> | ->]; reflexivity.
    + intros text props -> Hne ->. destruct text; [congruence | reflexivity].
    + intros text e -> Hne ->. destruct text; [congruence | reflexivity].
    + intros text -> Hne ->. destruct text; [congruence | reflexivity].
Qed.

End ListLatest.

(** C2, the claim as first stated fails: the only key of the organization
    holds a value that is not JSON, and the answer is 500, not 404. *)
Lemma C2_unparsable_value_is_a_500 :
  keys_with_prefix "acme:" Sample.unparsable = ["acme:x:2020-01-01T00:00:00.000Z"]
  /\ Sample.unparsable !! "acme:x:2020-01-01T00:00:00.000Z" = Some "oops"
  /\ JSON_parse "oops" = inl SyntaxError
  /\ fst (Part000.fetch (req_validate GET "acme" JNull)
            Sample.env (Sample.state Sample.unparsable))
     = Returns (c_json (JObj [("ok", JBool false);
                              ("message", JStr "Failed to fetch request");
                              ("errors", JArr [JStr "Unexpected token in JSON"])]) 500).
Proof. repeat split; vm_compute; reflexivity. Qed.

(** C2 at work: the organization holds one record, and the list answers
    with its [id] and [salt]; when another client empties the namespace
    between the listing and the fetch, the value is missing and the list
    answers 404. *)
Lemma C2_list_latest_witness :
  kv_fault Sample.env 0 = None
  /\ kv_fault Sample.env 1 = None
  /\ fst (Part000.fetch (req_validate GET "acme" JNull) Sample.env
            (Sample.state (Sample.one_record "acme" "abc" "s3cret!"
                             "2023-11-14T22:13:20.000Z")))
     = Returns (c_json (JObj [("id", JStr "abc"); ("salt", JStr "s3cret!")]) 200)
  /\ status_of
       (fst (Part000.fetch (req_validate GET "acme" JNull) Sample.env_emptied_meanwhile
               (Sample.state (Sample.one_record "acme" "abc" "s3cret!"
                                "2023-11-14T22:13:20.000Z"))))
     = Some 404%nat.
Proof.
  split; [reflexivity |]. split; [reflexivity |].
  split.
  - destruct (C2_list_latest_answers Sample.env
                (Sample.state (Sample.one_record "acme" "abc" "s3cret!"
                                 "2023-11-14T22:13:20.000Z"))
                "acme" JNull eq_refl eq_refl) as [_ H].
    destruct (H "acme:abc:2023-11-14T22:13:20.000Z" ltac:(vm_compute; reflexivity))
      as (_ & Hobj & _).
    exact (Hobj (JSON_stringify (Part000.stored_record "acme"
                                   {| id := "abc"; salt := "s3cret!" |}
                                   "2023-11-14T22:13:20.000Z"))
                [("org", JStr "acme"); ("id", JStr "abc"); ("salt", JStr "s3cret!");
                 ("timestamp", JStr "2023-11-14T22:13:20.000Z")]
                ltac:(vm_compute; reflexivity) ltac:(discriminate)
                ltac:(vm_compute; reflexivity)).
  - destruct (C2_list_latest_answers Sample.env_emptied_meanwhile
                (Sample.state (Sample.one_record "acme" "abc" "s3cret!"
                                 "2023-11-14T22:13:20.000Z"))
                "acme" JNull eq_refl eq_refl) as [_ H].
    destruct (H "acme:abc:2023-11-14T22:13:20.000Z" ltac:(vm_compute; reflexivity))
      as (Hmiss & _).
    rewrite (Hmiss ltac:(left; vm_compute; reflexivity)). reflexivity.
Defined.

(* ===================================================================== *)
(** * Delete-matching (C3, C9) *)
(* ===================================================================== *)

Section DeleteMatching.

Lemma sample_env_no_fault : no_fault Sample.env.
Proof. intros n. reflexivity. Qed.

Lemma sample_env_alone : alone Sample.env.
Proof. intros n m. reflexivity. Qed.

Lemma lookup_foldl_delete (keys : list string) (m : gmap string string) (k : string) :
  foldl (fun m k => delete k m) m keys !! k
  = if decide (k ∈ keys) then None else m !! k.
Proof.
  revert m. induction keys as [|k0 keys IH]; intros m; simpl.
  - destruct (decide (k ∈ [])) as [H|_]; [now apply not_elem_of_nil in H | reflexivity].
  - rewrite IH.
    destruct (decide (k ∈ keys)) as [Hin|Hout];
      destruct (decide (k ∈ k0 :: keys)) as [Hin'|Hout']; try reflexivity.
    + exfalso. apply Hout'. now right.
    + apply elem_of_cons in Hin' as [-> | ?]; [| contradiction].
      apply lookup_delete_eq.
    + apply lookup_delete_ne. intros ->. apply Hout'. now left.
Qed.

Lemma composite_key_longer_id (org i x ts : string) :
  Part000.composite_key org (i +:+ ":" +:+ x) ts
  = (org +:+ ":" +:+ i +:+ ":") +:+ (x +:+ ":" +:+ ts).
Proof.
  unfold Part000.composite_key. now rewrite !append_assoc.
Qed.

(** The rest of the section is about a store whose calls do not reject
    and which no other client changes meanwhile. *)
Section QuietStore.

Context (env : Env) (Hf : no_fault env) (Ha : alone env).

(** The deletes of a [Promise.all]: every key is removed. *)
Lemma Promise_all_delete keys st :
  Promise_all (map kv_delete keys) env st
  = (Returns tt,
     {| RCX_VALIDATOR := foldl (fun m k => delete k m) (RCX_VALIDATOR st) keys;
        clock_reads := clock_reads st; random_draws := random_draws st;
        kv_calls := (length keys + kv_calls st)%nat |}).
Proof.
  revert st. induction keys as [|k keys IH]; intros st.
  - destruct st; reflexivity.
  - cbn [map Promise_all]. unfold kv_delete at 1, kv_call.
    rewrite Hf, Ha. rewrite IH. simpl.
    do 3 f_equal. lia.
Qed.

#[local] Arguments Promise_all : simpl never.

(** What [DELETE /api/:org/req-validate] does with a valid payload. *)
Lemma delete_req_validate_run st org value i s :
  valid_request value i s ->
  Part000.fetch (req_validate DELETE org value) env st
  = let keys := keys_with_prefix (org +:+ ":" +:+ i +:+ ":") (RCX_VALIDATOR st) in
    match keys with
    | [] =>
        (Returns (Part000.no_data org),
         {| RCX_VALIDATOR := RCX_VALIDATOR st; clock_reads := clock_reads st;
            random_draws := random_draws st; kv_calls := S (kv_calls st) |})
    | _ :: _ =>
        (Returns (c_json (JObj [("id", JStr i); ("salt", JStr s)]) 200),
         {| RCX_VALIDATOR := foldl (fun m k => delete k m) (RCX_VALIDATOR st) keys;
            clock_reads := clock_reads st; random_draws := random_draws st;
            kv_calls := (length keys + S (kv_calls st))%nat |})
    end.
Proof.
  intros Hv. apply validateRequestSchema_inr in Hv.
  unfold Part000.fetch, Part000.dispatch, cors, onError, Part000.route, req_validate,
    validator; simpl.
  rewrite Hv.
  unfold Part000.delete_req_validate, try_catch, bind, kv_list, kv_call; simpl.
  rewrite Hf, Ha.
  destruct (keys_with_prefix _ (RCX_VALIDATOR st)) as [|k0 keys] eqn:Hk; [reflexivity |].
  change (0 <? length (k0 :: keys))%nat with true. cbv beta iota.
  rewrite Promise_all_delete. reflexivity.
Qed.

(** When some key has the prefix, the answer echoes the payload and the
    namespace loses exactly the keys with the prefix. *)
Lemma delete_req_validate_effect st org value i s :
  valid_request value i s ->
  keys_with_prefix (org +:+ ":" +:+ i +:+ ":") (RCX_VALIDATOR st) <> [] ->
  fst (Part000.fetch (req_validate DELETE org value) env st)
  = Returns (c_json (JObj [("id", JStr i); ("salt", JStr s)]) 200)
  /\ forall k,
      RCX_VALIDATOR (snd (Part000.fetch (req_validate DELETE org value) env st)) !! k
      = if startsWith (org +:+ ":" +:+ i +:+ ":") k then None
        else RCX_VALIDATOR st !! k.
Proof.
  intros Hv Hne. rewrite (delete_req_validate_run _ _ _ _ _ Hv). cbv zeta.
  set (prefix := org +:+ ":" +:+ i +:+ ":") in *.
  assert (Hmem := fun k => elem_of_keys_with_prefix prefix k (RCX_VALIDATOR st)).
  destruct (keys_with_prefix prefix (RCX_VALIDATOR st)) as [|k0 ks] eqn:Hk;
    [congruence |].
  split; [reflexivity |].
  intros k. cbn [RCX_VALIDATOR snd]. rewrite lookup_foldl_delete.
  specialize (Hmem k).
  destruct (decide (k ∈ k0 :: ks)) as [Hin|Hout].
  - apply Hmem in Hin as [_ ->]. reflexivity.
  - destruct (startsWith prefix k) eqn:Hp; [| reflexivity].
    destruct (RCX_VALIDATOR st !! k) eqn:Hl; [| reflexivity].
    exfalso. apply Hout. apply Hmem. eauto.
Qed.

(** C3.  For a valid payload, and a store that neither rejects nor is
    used by another client meanwhile, [DELETE /api/:org/req-validate]
    lists the keys with prefix [org:id:], which are the stored keys that
    start with it.  With no such key it answers 404 and leaves the
    namespace as it is.  Otherwise it deletes every one of them, and no
    other key, and answers 200 with [{id, salt}] as the payload gives
    them: the stored values play no part in the answer. *)
Theorem C3_delete_matching_echoes_the_payload :
  forall st org value i s,
    valid_request value i s ->
    let prefix := org +:+ ":" +:+ i +:+ ":" in
    let keys := keys_with_prefix prefix (RCX_VALIDATOR st) in
    let run := Part000.fetch (req_validate DELETE org value) env st in
    (forall k, k ∈ keys <-> is_Some (RCX_VALIDATOR st !! k) /\ startsWith prefix k = true)
    /\ (keys = [] ->
        fst run
        = Returns (c_json (JObj [("ok", JBool false);
                                 ("message",
                                  JStr ("No data found for organization: " +:+ org));
                                 ("errors", JArr [JStr "Organization not found"])]) 404)
        /\ RCX_VALIDATOR (snd run) = RCX_VALIDATOR st)
    /\ (keys <> [] ->
        fst run = Returns (c_json (JObj [("id", JStr i); ("salt", JStr s)]) 200)
        /\ forall k,
            RCX_VALIDATOR (snd run) !! k
            = if startsWith prefix k then None else RCX_VALIDATOR st !! k).
Proof.
  intros st org value i s Hv prefix keys run.
  split; [intros k; apply elem_of_keys_with_prefix |].
  split.
  - unfold run, keys, prefix. rewrite (delete_req_validate_run _ _ _ _ _ Hv). cbv zeta.
    intros ->. split; reflexivity.
  - now apply delete_req_validate_effect.
Qed.

(** C9.  The victims of a delete are chosen by prefix alone, and an
    identifier may contain the delimiter.  So, for a valid payload and a
    store that neither rejects nor is used by another client meanwhile:
    every stored key made for the identifier [id:x] starts with [org:id:],
    and [DELETE] for [(org, id)] removes it; in particular a record just
    created for [(org, id:x)] is gone after a [DELETE] for [(org, id)],
    which answers 200.  And two different pairs of organization and
    identifier give the same key at every timestamp. *)
Theorem C9_delete_reaches_other_identifiers :
  forall st org value i s,
    valid_request value i s ->
    (forall x ts,
        let victim := Part000.composite_key org (i +:+ ":" +:+ x) ts in
        startsWith (org +:+ ":" +:+ i +:+ ":") victim = true
        /\ (is_Some (RCX_VALIDATOR st !! victim) ->
            fst (Part000.fetch (req_validate DELETE org value) env st)
            = Returns (c_json (JObj [("id", JStr i); ("salt", JStr s)]) 200)
            /\ RCX_VALIDATOR (snd (Part000.fetch (req_validate DELETE org value) env st))
                 !! victim = None))
    /\ (forall x s' value',
        valid_request value' (i +:+ ":" +:+ x) s' ->
        let created := snd (Part000.fetch (req_validate POST org value') env st) in
        let victim :=
          Part000.composite_key org (i +:+ ":" +:+ x)
            (toISOString (Date_now env (clock_reads st))) in
        is_Some (RCX_VALIDATOR created !! victim)
        /\ fst (Part000.fetch (req_validate DELETE org value) env created)
           = Returns (c_json (JObj [("id", JStr i); ("salt", JStr s)]) 200)
        /\ RCX_VALIDATOR (snd (Part000.fetch (req_validate DELETE org value) env created))
             !! victim = None)
    /\ (exists org1 id1 org2 id2,
        (org1, id1) <> (org2, id2)
        /\ forall ts, Part000.composite_key org1 id1 ts
                      = Part000.composite_key org2 id2 ts).
Proof.
  intros st org value i s Hv.
  assert (Hgen : forall st' x ts,
             let victim := Part000.composite_key org (i +:+ ":" +:+ x) ts in
             startsWith (org +:+ ":" +:+ i +:+ ":") victim = true
             /\ (is_Some (RCX_VALIDATOR st' !! victim) ->
                 fst (Part000.fetch (req_validate DELETE org value) env st')
                 = Returns (c_json (JObj [("id", JStr i); ("salt", JStr s)]) 200)
                 /\ RCX_VALIDATOR
                      (snd (Part000.fetch (req_validate DELETE org value) env st'))
                      !! victim = None)).
  { intros st' x ts victim.
    assert (Hp : startsWith (org +:+ ":" +:+ i +:+ ":") victim = true).
    { unfold victim. rewrite composite_key_longer_id. apply startsWith_append. }
    split; [exact Hp |]. intros Hsome.
    destruct (delete_req_validate_effect st' org value i s Hv) as [Hans Hlook].
    { intros Hnil.
      assert (Hin : victim ∈ keys_with_prefix (org +:+ ":" +:+ i +:+ ":")
                               (RCX_VALIDATOR st'))
        by (apply elem_of_keys_with_prefix; auto).
      rewrite Hnil in Hin. now apply not_elem_of_nil in Hin. }
    split; [exact Hans |]. rewrite Hlook, Hp. reflexivity. }
  split; [exact (Hgen st) |].
  split.
  - intros x s' value' Hv' created victim.
    assert (Hc : is_Some (RCX_VALIDATOR created !! victim)).
    { unfold created, victim.
      rewrite (post_req_validate_run _ _ _ _ _ _ Hv'). cbv zeta. rewrite Hf.
      simpl. rewrite lookup_insert_eq. eauto. }
    split; [exact Hc |]. exact (proj2 (Hgen created x _) Hc).
  - exists "a", "b:c", "a:b", "c". split; [discriminate | reflexivity].
Qed.

End QuietStore.

(** C3 at work: the record was stored with the salt ["s3cret!"], the
    payload of the delete carries ["another-salt"], and that is the salt
    of the answer. *)
Lemma C3_delete_witness :
  no_fault Sample.env /\ alone Sample.env
  /\ valid_request Sample.request_other_salt "abc" "another-salt"
  /\ Sample.one_record "acme" "abc" "s3cret!" "2023-11-14T22:13:20.000Z"
       !! "acme:abc:2023-11-14T22:13:20.000Z"
     = Some (JSON_stringify
               (JObj [("org", JStr "acme"); ("id", JStr "abc"); ("salt", JStr "s3cret!");
                      ("timestamp", JStr "2023-11-14T22:13:20.000Z")]))
  /\ fst (Part000.fetch (req_validate DELETE "acme" Sample.request_other_salt)
            Sample.env
            (Sample.state (Sample.one_record "acme" "abc" "s3cret!"
                             "2023-11-14T22:13:20.000Z")))
     = Returns (c_json (JObj [("id", JStr "abc"); ("salt", JStr "another-salt")]) 200).
Proof.
  assert (Hv : valid_request Sample.request_other_salt "abc" "another-salt").
  { eexists. repeat split; try reflexivity; vm_compute; lia. }
  split; [intros n; reflexivity |].
  split; [intros n m; reflexivity |].
  split; [exact Hv |].
  split; [vm_compute; reflexivity |].
  refine (proj1 (proj2 (proj2 (C3_delete_matching_echoes_the_payload
            Sample.env sample_env_no_fault sample_env_alone
            _ "acme" _ _ _ Hv)) _)).
  vm_compute. discriminate.
Defined.

(** C9 at work: a record is created for the identifier ["abc:x"], a
    delete for the identifier ["abc"] follows, and the record is gone. *)
Lemma C9_delete_witness :
  no_fault Sample.env /\ alone Sample.env
  /\ valid_request Sample.request "abc" "s3cret!"
  /\ valid_request Sample.request_longer_id "abc:x" "s3cret!"
  /\ RCX_VALIDATOR
       (snd (Part000.fetch (req_validate DELETE "acme" Sample.request) Sample.env
               (snd (Part000.fetch (req_validate POST "acme" Sample.request_longer_id)
                       Sample.env (Sample.state ∅)))))
       !! Part000.composite_key "acme" ("abc" +:+ ":" +:+ "x")
            (toISOString (Date_now Sample.env (clock_reads (Sample.state ∅))))
     = None.
Proof.
  assert (Hv : valid_request Sample.request "abc" "s3cret!").
  { eexists. repeat split; try reflexivity; vm_compute; lia. }
  assert (Hv' : valid_request Sample.request_longer_id "abc:x" "s3cret!").
  { eexists. repeat split; try reflexivity; vm_compute; lia. }
  split; [intros n; reflexivity |].
  split; [intros n m; reflexivity |].
  split; [exact Hv |].
  split; [exact Hv' |].
  exact (proj2 (proj2 (proj1 (proj2 (C9_delete_reaches_other_identifiers
           Sample.env sample_env_no_fault sample_env_alone
           (Sample.state ∅) "acme" _ _ _ Hv)) "x" "s3cret!" _ Hv'))).
Defined.

End DeleteMatching.

(* ===================================================================== *)
(** * The calendar, and the order of ISO texts *)
(* ===================================================================== *)

Section DateFacts.

Lemma DayFromYear_step y : 365 <= DayFromYear (y + 1) - DayFromYear y <= 366.
Proof. unfold DayFromYear. Z.div_mod_to_equations; lia. Qed.

Lemma DayFromYear_mono y y' : y <= y' -> DayFromYear y <= DayFromYear y'.
Proof. unfold DayFromYear. Z.div_mod_to_equations; lia. Qed.

Lemma YearFromTime_spec t :
  DayFromYear (YearFromTime t) <= Day t < DayFromYear (YearFromTime t + 1).
Proof.
  unfold YearFromTime. cbv zeta.
  set (d := Day t).
  destruct (Z.leb_spec (DayFromYear (1970 + 400 * d / 146097 + 1)) d) as [H1|H1].
  - split; [assumption |]. clear H1. unfold DayFromYear. Z.div_mod_to_equations; lia.
  - destruct (Z.leb_spec (DayFromYear (1970 + 400 * d / 146097)) d) as [H2|H2].
    + split; assumption.
    + split.
      * clear H1 H2. unfold DayFromYear. Z.div_mod_to_equations; lia.
      * replace (1970 + 400 * d / 146097 - 1 + 1) with (1970 + 400 * d / 146097) by lia. assumption.
Qed.

Lemma Day_mono t1 t2 : t1 <= t2 -> Day t1 <= Day t2.
Proof. unfold Day, msPerDay. intros. Z.div_mod_to_equations; lia. Qed.

Lemma YearFromTime_mono t1 t2 : t1 <= t2 -> YearFromTime t1 <= YearFromTime t2.
Proof.
  intros H. apply Day_mono in H.
  pose proof (YearFromTime_spec t1) as [L1 U1].
  pose proof (YearFromTime_spec t2) as [L2 U2].
  destruct (Z_le_gt_dec (YearFromTime t1) (YearFromTime t2)) as [|Hgt]; [assumption |].
  assert (DayFromYear (YearFromTime t2 + 1) <= DayFromYear (YearFromTime t1))
    by (apply DayFromYear_mono; lia).
  lia.
Qed.

Lemma InLeapYear_range t : 0 <= InLeapYear t <= 1.
Proof. unfold InLeapYear, DaysInYear. pose proof (DayFromYear_step (YearFromTime t)). lia. Qed.

Lemma DayWithinYear_range t : 0 <= DayWithinYear t < 365 + InLeapYear t.
Proof.
  unfold DayWithinYear, InLeapYear, DaysInYear.
  pose proof (YearFromTime_spec t). lia.
Qed.

Lemma month_of_range leap dwy : 0 <= month_of leap dwy <= 11.
Proof. unfold month_of. repeat destruct (_ <? _); lia. Qed.

Lemma month_of_mono leap d1 d2 : d1 <= d2 -> month_of leap d1 <= month_of leap d2.
Proof.
  intros H. unfold month_of.
  repeat match goal with |- context [?a <? ?b] => destruct (Z.ltb_spec a b) end; lia.
Qed.

Lemma month_start_bounds leap dwy :
  0 <= leap <= 1 -> 0 <= dwy < 365 + leap ->
  month_start leap (month_of leap dwy) <= dwy
  /\ dwy - month_start leap (month_of leap dwy) < 31.
Proof.
  intros Hl Hd. unfold month_of.
  repeat match goal with |- context [?a <? ?b] => destruct (Z.ltb_spec a b) end;
    cbn; lia.
Qed.

Lemma DateFromTime_range t : 1 <= DateFromTime t <= 31.
Proof.
  unfold DateFromTime, MonthFromTime.
  pose proof (month_start_bounds _ _ (InLeapYear_range t) (DayWithinYear_range t)).
  lia.
Qed.

Lemma time_fields_range t :
  0 <= HourFromTime t < 24 /\ 0 <= MinFromTime t < 60
  /\ 0 <= SecFromTime t < 60 /\ 0 <= msFromTime t < 1000.
Proof.
  unfold HourFromTime, MinFromTime, SecFromTime, msFromTime, msPerHour, msPerMinute, msPerSecond.
  Z.div_mod_to_equations; lia.
Qed.

(** Two instants of the same day: the later one has the later time of day. *)
Lemma time_of_day_lt t1 t2 :
  Day t1 = Day t2 -> t1 < t2 ->
  HourFromTime t1 < HourFromTime t2
  \/ HourFromTime t1 = HourFromTime t2
     /\ (MinFromTime t1 < MinFromTime t2
         \/ MinFromTime t1 = MinFromTime t2
            /\ (SecFromTime t1 < SecFromTime t2
                \/ SecFromTime t1 = SecFromTime t2 /\ msFromTime t1 < msFromTime t2)).
Proof.
  unfold Day, HourFromTime, MinFromTime, SecFromTime, msFromTime,
    msPerDay, msPerHour, msPerMinute, msPerSecond.
  intros Hd Hlt. Z.div_mod_to_equations; lia.
Qed.

Lemma same_year_lt t1 t2 :
  YearFromTime t1 = YearFromTime t2 -> t1 < t2 ->
  MonthFromTime t1 < MonthFromTime t2
  \/ MonthFromTime t1 = MonthFromTime t2
     /\ (DateFromTime t1 < DateFromTime t2
         \/ DateFromTime t1 = DateFromTime t2 /\ Day t1 = Day t2).
Proof.
  intros Hy Hlt.
  assert (Hd : Day t1 <= Day t2) by (apply Day_mono; lia).
  unfold DateFromTime, MonthFromTime, InLeapYear, DayWithinYear. rewrite Hy.
  set (leap := DaysInYear (YearFromTime t2) - 365).
  set (base := DayFromYear (YearFromTime t2)).
  pose proof (month_of_mono leap (Day t1 - base) (Day t2 - base)).
  destruct (Z.eq_dec (month_of leap (Day t1 - base)) (month_of leap (Day t2 - base)))
    as [E|N]; [| lia].
  right. split; [assumption |]. rewrite E. lia.
Qed.

Lemma digit_compare x y :
  0 <= x <= 9 -> 0 <= y <= 9 -> Ascii.compare (digit x) (digit y) = (x ?= y).
Proof.
  intros Hx Hy. unfold Ascii.compare, digit.
  rewrite !N_ascii_embedding by lia.
  rewrite <- N2Z.inj_compare, !N2Z.inj_add, !Z2N.id by lia.
  apply Z.add_compare_mono_l.
Qed.

Lemma compare_pad (w : nat) (a b : Z) (X Y : string) :
  0 <= a -> 0 <= b -> a / 10 ^ Z.of_nat w = b / 10 ^ Z.of_nat w ->
  String.compare (pad w a +:+ X) (pad w b +:+ Y)
  = match a ?= b with Eq => String.compare X Y | c => c end.
Proof.
  revert a b. induction w as [|w IH]; intros a b Ha Hb Hq.
  - change (10 ^ Z.of_nat 0) with 1 in Hq. rewrite !Z.div_1_r in Hq. subst b.
    rewrite Z.compare_refl. reflexivity.
  - cbn [pad]. rewrite Nat2Z.inj_succ, Z.pow_succ_r in Hq by lia.
    set (p := 10 ^ Z.of_nat w) in *.
    assert (Hp : 0 < p) by (apply Z.pow_pos_nonneg; lia).
    rewrite (Z.mul_comm 10 p), <- !Z.div_div in Hq by lia.
    assert (Hda : 0 <= (a / p) mod 10 <= 9) by (pose proof (Z.mod_pos_bound (a / p) 10); lia).
    assert (Hdb : 0 <= (b / p) mod 10 <= 9) by (pose proof (Z.mod_pos_bound (b / p) 10); lia).
    change (String.compare (String ?c ?x +:+ X) (String ?d ?y +:+ Y))
      with (match Ascii.compare c d with
            | Eq => String.compare (x +:+ X) (y +:+ Y)
            | ne => ne
            end).
    rewrite digit_compare by assumption.
    pose proof (Z.div_mod (a / p) 10 ltac:(lia)) as Ea.
    pose proof (Z.div_mod (b / p) 10 ltac:(lia)) as Eb.
    destruct (Z.compare_spec ((a / p) mod 10) ((b / p) mod 10)) as [E|L|G].
    + apply IH; [assumption.. | lia].
    + assert (a / p < b / p) by lia.
      assert (a < b).
      { destruct (Z_lt_le_dec a b); [assumption |].
        assert (b / p <= a / p) by (apply Z.div_le_mono; lia). lia. }
      rewrite (proj2 (Z.compare_lt_iff a b)) by assumption. reflexivity.
    + assert (b / p < a / p) by lia.
      assert (b < a).
      { destruct (Z_lt_le_dec b a); [assumption |].
        assert (a / p <= b / p) by (apply Z.div_le_mono; lia). lia. }
      rewrite (proj2 (Z.compare_gt_iff a b)) by assumption. reflexivity.
Qed.

Lemma compare_field (w : nat) (a b : Z) (sep X Y : string) :
  0 <= a < 10 ^ Z.of_nat w -> 0 <= b < 10 ^ Z.of_nat w ->
  String.compare (pad w a +:+ sep +:+ X) (pad w b +:+ sep +:+ Y)
  = match a ?= b with Eq => String.compare X Y | c => c end.
Proof.
  intros Ha Hb. rewrite compare_pad; try lia.
  - now rewrite compare_append_same.
  - rewrite !Z.div_small; lia.
Qed.

Lemma toISOString_four_digits t :
  four_digit_year t ->
  toISOString t
  = pad 4 (YearFromTime t) +:+ "-" +:+ pad 2 (MonthFromTime t + 1) +:+ "-" +:+
    pad 2 (DateFromTime t) +:+ "T" +:+ pad 2 (HourFromTime t) +:+ ":" +:+
    pad 2 (MinFromTime t) +:+ ":" +:+ pad 2 (SecFromTime t) +:+ "." +:+
    pad 3 (msFromTime t) +:+ "Z".
Proof.
  unfold four_digit_year, toISOString, iso_year. intros [H1 H2].
  rewrite (proj2 (Z.leb_le _ _) H1), (proj2 (Z.leb_le _ _) H2). reflexivity.
Qed.

Ltac compare_is_lt := rewrite (proj2 (Z.compare_lt_iff _ _)) by lia; reflexivity.
Ltac compare_is_eq := rewrite (proj2 (Z.compare_eq_iff _ _)) by lia.

(** Within the years written with four digits, a later instant has a
    greater ISO text. *)
Lemma toISOString_lt t1 t2 :
  four_digit_year t1 -> four_digit_year t2 -> t1 < t2 ->
  String.compare (toISOString t1) (toISOString t2) = Lt.
Proof.
  intros Hy1 Hy2 Hlt.
  rewrite !toISOString_four_digits by assumption.
  pose proof (month_of_range (InLeapYear t1) (DayWithinYear t1)) as Hm1.
  pose proof (month_of_range (InLeapYear t2) (DayWithinYear t2)) as Hm2.
  fold (MonthFromTime t1) in Hm1. fold (MonthFromTime t2) in Hm2.
  pose proof (DateFromTime_range t1) as Hd1.
  pose proof (DateFromTime_range t2) as Hd2.
  pose proof (time_fields_range t1) as (Hh1 & Hmi1 & Hs1 & Hms1).
  pose proof (time_fields_range t2) as (Hh2 & Hmi2 & Hs2 & Hms2).
  unfold four_digit_year in Hy1, Hy2.
  rewrite (compare_field 4) by (change (10 ^ Z.of_nat 4) with 10000; lia).
  rewrite !(compare_field 2) by (change (10 ^ Z.of_nat 2) with 100; lia).
  rewrite (compare_pad 3)
    by (try lia; change (10 ^ Z.of_nat 3) with 1000; rewrite !Z.div_small; lia).
  assert (Hy : YearFromTime t1 <= YearFromTime t2) by (apply YearFromTime_mono; lia).
  destruct (Z.eq_dec (YearFromTime t1) (YearFromTime t2)) as [Ey|Ny];
    [| compare_is_lt].
  compare_is_eq.
  destruct (same_year_lt t1 t2 Ey Hlt) as [Lm | (Em & [Ld | (Ed & Eday)])];
    [compare_is_lt | compare_is_eq; compare_is_lt |].
  do 2 compare_is_eq.
  destruct (time_of_day_lt t1 t2 Eday Hlt)
    as [Lh | (Eh & [Lmi | (Emi & [Ls | (Es & Lms)])])].
  - compare_is_lt.
  - compare_is_eq. compare_is_lt.
  - do 2 compare_is_eq. compare_is_lt.
  - do 3 compare_is_eq. compare_is_lt.
Qed.

(** Keys of one organization and identifier are ordered as their capture
    times are. *)
Lemma composite_key_compare org i t1 t2 :
  four_digit_year t1 -> four_digit_year t2 ->
  String.compare (Part000.composite_key org i (toISOString t1))
                 (Part000.composite_key org i (toISOString t2))
  = (t1 ?= t2).
Proof.
  intros H1 H2. unfold Part000.composite_key.
  rewrite !(compare_append_same org), (compare_append_same ":"),
    (compare_append_same i), (compare_append_same ":").
  destruct (Z.compare_spec t1 t2) as [E|L|G].
  - subst. apply compare_refl.
  - now apply toISOString_lt.
  - rewrite String.compare_antisym, toISOString_lt by assumption. reflexivity.
Qed.

End DateFacts.

(* ===================================================================== *)
(** * Create, then list (C5, C6) *)
(* ===================================================================== *)

Section CreateThenList.

(** Listing an organization whose greatest key holds a record written by
    the worker answers with the [id] and [salt] of that record. *)
Lemma list_latest_of_greatest env st org value k o i s ts :
  no_fault env -> alone env ->
  RCX_VALIDATOR st !! k
  = Some (JSON_stringify (Part000.stored_record o {| id := i; salt := s |} ts)) ->
  startsWith (org +:+ ":") k = true ->
  (forall k', is_Some (RCX_VALIDATOR st !! k') -> startsWith (org +:+ ":") k' = true ->
              String.le k' k) ->
  fst (Part000.fetch (req_validate GET org value) env st)
  = Returns (c_json (JObj [("id", JStr i); ("salt", JStr s)]) 200).
Proof.
  intros Hf Ha Hk Hp Hmax.
  rewrite get_req_validate_run by apply Hf.
  unfold met. rewrite !Ha.
  assert (Hlast : last (keys_with_prefix (org +:+ ":") (RCX_VALIDATOR st)) = Some k).
  { rewrite last_lookup.
    replace (pred (length (keys_with_prefix (org +:+ ":") (RCX_VALIDATOR st))))
      with (length (keys_with_prefix (org +:+ ":") (RCX_VALIDATOR st)) - 1)%nat by lia.
    apply sorted_last_greatest.
    - apply keys_with_prefix_sorted.
    - apply elem_of_keys_with_prefix. rewrite Hk. eauto.
    - intros x Hx. apply elem_of_keys_with_prefix in Hx as [Hs Hpx]. now apply Hmax. }
  rewrite Hlast, Hk.
  unfold Part000.stored_record. rewrite JSON_parse_stringify_4, JSON_stringify_4.
  reflexivity.
Qed.

Lemma startsWith_composite_key org i ts :
  startsWith (org +:+ ":") (Part000.composite_key org i ts) = true.
Proof.
  unfold Part000.composite_key. rewrite <- append_assoc. apply startsWith_append.
Qed.

(** The state after a create that succeeded. *)
Lemma post_req_validate_state env st org value i s :
  valid_request value i s -> no_fault env -> alone env ->
  snd (Part000.fetch (req_validate POST org value) env st)
  = let ts := toISOString (Date_now env (clock_reads st)) in
    {| RCX_VALIDATOR := <[Part000.composite_key org i ts :=
                 JSON_stringify (Part000.stored_record org {| id := i; salt := s |} ts)]>
               (RCX_VALIDATOR st);
       clock_reads := S (clock_reads st);
       random_draws := random_draws st; kv_calls := S (kv_calls st) |}.
Proof.
  intros Hv Hf Ha. rewrite (post_req_validate_run _ _ _ _ _ _ Hv). cbv zeta.
  unfold met. rewrite Hf, Ha. reflexivity.
Qed.

(** Create, then list: the answer is the record just created, provided
    no key of the organization sorts after its key. *)
Lemma create_then_list env st org value value' i s :
  valid_request value i s -> no_fault env -> alone env ->
  (forall k, is_Some (RCX_VALIDATOR st !! k) -> startsWith (org +:+ ":") k = true ->
             String.le k (Part000.composite_key org i
                            (toISOString (Date_now env (clock_reads st))))) ->
  fst (Part000.fetch (req_validate GET org value') env
         (snd (Part000.fetch (req_validate POST org value) env st)))
  = Returns (c_json (JObj [("id", JStr i); ("salt", JStr s)]) 200).
Proof.
  intros Hv Hf Ha Hmax.
  rewrite (post_req_validate_state _ _ _ _ _ _ Hv Hf Ha). cbv zeta.
  eapply list_latest_of_greatest; try assumption.
  - cbn [RCX_VALIDATOR]. apply lookup_insert_eq.
  - apply startsWith_composite_key.
  - cbn [RCX_VALIDATOR]. intros k' Hs Hp.
    destruct (decide (Part000.composite_key org i
                        (toISOString (Date_now env (clock_reads st))) = k'))
      as [<- | Hne]; [reflexivity |].
    rewrite lookup_insert_ne in Hs by assumption. now apply Hmax.
Qed.

(** C5, at the failing input: the organization holds a record of the
    identifier ["zzz"]; a create for the identifier ["abc"] succeeds, and
    the list that follows answers with the old record, whose key sorts
    last. *)
Theorem C5_list_after_create_returns_an_older_record :
  let created :=
    Part000.fetch (req_validate POST "acme" Sample.request) Sample.env
      (Sample.state Sample.older) in
  fst created = Returns (c_json (JObj [("id", JStr "abc"); ("salt", JStr "s3cret!")]) 200)
  /\ keys_with_prefix "acme:" (RCX_VALIDATOR (snd created))
     = ["acme:abc:2023-11-14T22:13:20.000Z"; "acme:zzz:2020-01-01T00:00:00.000Z"]
  /\ fst (Part000.fetch (req_validate GET "acme" JNull) Sample.env (snd created))
     = Returns (c_json (JObj [("id", JStr "zzz"); ("salt", JStr "oldsalt1")]) 200).
Proof. repeat split; vm_compute; reflexivity. Qed.

(** C6, as amended.  For capture times whose year is written with four
    digits (0000 to 9999), two keys made for the same organization and
    identifier compare as their capture times do.  Consequently, after two
    creates for the same organization and identifier at two such times
    that differ, on a store that neither rejects nor is used by another
    client meanwhile and that lists keys in lexicographic order, the list
    answers with the record of the later time, provided no stored key
    that begins with [org:] sorts after the key of that record.  Such a
    key need not be one of the organization: the keys of an organization
    named [org:x] begin with [org:] too. *)
Theorem C6_key_order_is_capture_order :
  (forall org i t1 t2,
      four_digit_year t1 -> four_digit_year t2 ->
      String.compare (Part000.composite_key org i (toISOString t1))
                     (Part000.composite_key org i (toISOString t2))
      = (t1 ?= t2))
  /\ (forall env st org value1 value2 value' i s1 s2,
      valid_request value1 i s1 -> valid_request value2 i s2 ->
      no_fault env -> alone env ->
      let t1 := Date_now env (clock_reads st) in
      let t2 := Date_now env (S (clock_reads st)) in
      four_digit_year t1 -> four_digit_year t2 -> t1 <> t2 ->
      (forall k, is_Some (RCX_VALIDATOR st !! k) -> startsWith (org +:+ ":") k = true ->
                 String.le k (Part000.composite_key org i (toISOString (Z.max t1 t2)))) ->
      let st1 := snd (Part000.fetch (req_validate POST org value1) env st) in
      let st2 := snd (Part000.fetch (req_validate POST org value2) env st1) in
      fst (Part000.fetch (req_validate GET org value') env st2)
      = Returns (c_json (JObj [("id", JStr i);
                               ("salt", JStr (if t1 <? t2 then s2 else s1))]) 200)).
Proof.
  split; [exact composite_key_compare |].
  intros env st org value1 value2 value' i s1 s2 Hv1 Hv2 Hf Ha t1 t2 Hy1 Hy2 Hne Hmax
    st1 st2.
  unfold st2, st1.
  rewrite (post_req_validate_state _ _ _ _ _ _ Hv1 Hf Ha). cbv zeta.
  rewrite (post_req_validate_state _ _ _ _ _ _ Hv2 Hf Ha). cbv zeta. cbn [clock_reads RCX_VALIDATOR].
  fold t1 t2.
  set (key1 := Part000.composite_key org i (toISOString t1)).
  set (key2 := Part000.composite_key org i (toISOString t2)).
  pose proof (composite_key_compare org i t1 t2 Hy1 Hy2) as Hc. fold key1 key2 in Hc.
  destruct (Z.ltb_spec t1 t2) as [Hlt | Hge].
  - rewrite Z.max_r in Hmax by lia. fold key2 in Hmax.
    rewrite (proj2 (Z.compare_lt_iff _ _) Hlt) in Hc.
    eapply list_latest_of_greatest; try assumption.
    + cbn [RCX_VALIDATOR]. apply lookup_insert_eq.
    + apply startsWith_composite_key.
    + cbn [RCX_VALIDATOR]. intros k' Hs Hp.
      destruct (decide (key2 = k')) as [<- | Hn2]; [reflexivity |].
      rewrite lookup_insert_ne in Hs by assumption.
      destruct (decide (key1 = k')) as [<- | Hn1]; [now apply str_lt_le |].
      rewrite lookup_insert_ne in Hs by assumption. now apply Hmax.
  - assert (Hgt : t2 < t1) by lia.
    rewrite Z.max_l in Hmax by lia. fold key1 in Hmax.
    rewrite (proj2 (Z.compare_gt_iff _ _) Hgt) in Hc.
    assert (Hc' : str_lt key2 key1).
    { unfold str_lt. rewrite String.compare_antisym, Hc. reflexivity. }
    apply (list_latest_of_greatest env _ org value' key1 org i s1 (toISOString t1));
      try assumption.
    + cbn [RCX_VALIDATOR]. rewrite lookup_insert_ne by (now apply str_lt_ne).
      apply lookup_insert_eq.
    + apply startsWith_composite_key.
    + cbn [RCX_VALIDATOR]. intros k' Hs Hp.
      destruct (decide (key2 = k')) as [<- | Hn2]; [now apply str_lt_le |].
      rewrite lookup_insert_ne in Hs by assumption.
      destruct (decide (key1 = k')) as [<- | Hn1]; [reflexivity |].
      rewrite lookup_insert_ne in Hs by assumption. now apply Hmax.
Qed.

(** C6, the claim as first stated fails past the year 9999: the last
    millisecond of 9999 comes before the first of 10000, yet its key
    sorts after, and a list that follows the two creates answers with the
    earlier record.  It also fails for two keys that share the prefix
    [acme:abc:] without being made for the same identifier: the key of
    the identifier [abc:x] captured in 2020 sorts after the key of the
    identifier [abc] captured in 2023.  And the list that follows two
    creates does not answer with the later of them when a key that begins
    with [acme:] sorts after theirs, be it the key of another
    organization: here a record of the organization [acme:zz]. *)
Lemma C6_year_10000_sorts_first :
  253402300799999 < 253402300800000
  /\ toISOString 253402300799999 = "9999-12-31T23:59:59.999Z"
  /\ toISOString 253402300800000 = "+010000-01-01T00:00:00.000Z"
  /\ String.compare (Part000.composite_key "acme" "abc" (toISOString 253402300799999))
                    (Part000.composite_key "acme" "abc" (toISOString 253402300800000))
     = Gt
  /\ fst (Part000.fetch (req_validate GET "acme" JNull) Sample.env_year_10000
            (snd (Part000.fetch (req_validate POST "acme" Sample.request_other_salt)
                    Sample.env_year_10000
                    (snd (Part000.fetch (req_validate POST "acme" Sample.request)
                            Sample.env_year_10000 (Sample.state ∅))))))
     = Returns (c_json (JObj [("id", JStr "abc"); ("salt", JStr "s3cret!")]) 200)
  /\ 1577836800000 < 1700000000000
  /\ Part000.composite_key "acme" "abc:x" (toISOString 1577836800000)
     = "acme:abc:x:2020-01-01T00:00:00.000Z"
  /\ Part000.composite_key "acme" "abc" (toISOString 1700000000000)
     = "acme:abc:2023-11-14T22:13:20.000Z"
  /\ String.compare "acme:abc:x:2020-01-01T00:00:00.000Z"
                    "acme:abc:2023-11-14T22:13:20.000Z" = Gt
  /\ fst (Part000.fetch (req_validate GET "acme" JNull) Sample.env
            (snd (Part000.fetch (req_validate POST "acme" Sample.request_other_salt)
                    Sample.env
                    (snd (Part000.fetch (req_validate POST "acme" Sample.request)
                            Sample.env
                            (Sample.state
                               (Sample.one_record "acme:zz" "q" "qsalt123"
                                  "2020-01-01T00:00:00.000Z")))))))
     = Returns (c_json (JObj [("id", JStr "q"); ("salt", JStr "qsalt123")]) 200).
Proof. repeat split; vm_compute; reflexivity. Qed.

(** C6 at work: two creates for ["abc"], one millisecond apart, on an
    empty namespace; the list answers with the salt of the second. *)
Lemma C6_key_order_witness :
  valid_request Sample.request "abc" "s3cret!"
  /\ valid_request Sample.request_other_salt "abc" "another-salt"
  /\ no_fault Sample.env /\ alone Sample.env
  /\ four_digit_year (Date_now Sample.env 0)
  /\ four_digit_year (Date_now Sample.env 1)
  /\ fst (Part000.fetch (req_validate GET "acme" JNull) Sample.env
            (snd (Part000.fetch (req_validate POST "acme" Sample.request_other_salt)
                    Sample.env
                    (snd (Part000.fetch (req_validate POST "acme" Sample.request)
                            Sample.env (Sample.state ∅))))))
     = Returns (c_json (JObj [("id", JStr "abc"); ("salt", JStr "another-salt")]) 200).
Proof.
  assert (Hv1 : valid_request Sample.request "abc" "s3cret!").
  { eexists. repeat split; try reflexivity; vm_compute; lia. }
  assert (Hv2 : valid_request Sample.request_other_salt "abc" "another-salt").
  { eexists. repeat split; try reflexivity; vm_compute; lia. }
  assert (Hy1 : four_digit_year (Date_now Sample.env 0)).
  { unfold four_digit_year. vm_compute. split; discriminate. }
  assert (Hy2 : four_digit_year (Date_now Sample.env 1)).
  { unfold four_digit_year. vm_compute. split; discriminate. }
  split; [exact Hv1 |]. split; [exact Hv2 |].
  split; [intros n; reflexivity |].
  split; [intros n m; reflexivity |].
  split; [exact Hy1 |]. split; [exact Hy2 |].
  refine (proj2 C6_key_order_is_capture_order Sample.env (Sample.state ∅) "acme"
            _ _ JNull _ _ _ Hv1 Hv2 sample_env_no_fault sample_env_alone Hy1 Hy2 _ _).
  - vm_compute. discriminate.
  - intros k [v Hk]. unfold Sample.state in Hk. cbn [RCX_VALIDATOR] in Hk.
    rewrite lookup_empty in Hk. discriminate.
Defined.

End CreateThenList.

(* ===================================================================== *)
(** * Create a post (C8) *)
(* ===================================================================== *)

Section CreatePost.

Lemma hex_digit_inj (x y : N) :
  (x < 16)%N -> (y < 16)%N -> hex_digit x = hex_digit y -> x = y.
Proof.
  unfold hex_digit. intros Hx Hy H.
  apply (f_equal N_of_ascii) in H.
  rewrite !N_ascii_embedding in H
    by (destruct (N.ltb_spec x 10), (N.ltb_spec y 10); lia).
  destruct (N.ltb_spec x 10), (N.ltb_spec y 10); lia.
Qed.

Lemma hex_byte_inj (a b : N) (r1 r2 : string) :
  (a < 256)%N -> (b < 256)%N ->
  hex_byte a +:+ r1 = hex_byte b +:+ r2 -> a = b /\ r1 = r2.
Proof.
  unfold hex_byte. simpl. intros Ha Hb [= H1 H2 H3].
  apply hex_digit_inj in H1;
    [| apply N.Div0.div_lt_upper_bound; lia | apply N.Div0.div_lt_upper_bound; lia].
  apply hex_digit_inj in H2; [| apply N.mod_lt; lia | apply N.mod_lt; lia].
  split; [| assumption].
  rewrite (N.Div0.div_mod a 16), (N.Div0.div_mod b 16). congruence.
Qed.

Lemma hex_bytes_inj (l1 l2 : list N) (r1 r2 : string) :
  length l1 = length l2 ->
  Forall (fun b => (b < 256)%N) l1 -> Forall (fun b => (b < 256)%N) l2 ->
  hex_bytes l1 +:+ r1 = hex_bytes l2 +:+ r2 -> l1 = l2 /\ r1 = r2.
Proof.
  revert l2. induction l1 as [|a l1 IH]; intros [|b l2] Hlen H1 H2 H;
    try discriminate.
  - split; [reflexivity | exact H].
  - apply Forall_cons in H1 as [Ha H1]. apply Forall_cons in H2 as [Hb H2].
    cbn [hex_bytes fold_right] in H. fold (hex_bytes l1) in H. fold (hex_bytes l2) in H.
    rewrite !append_assoc in H.
    apply hex_byte_inj in H as [-> H]; [| assumption..].
    apply IH in H as [-> ->]; [split; reflexivity | simpl in Hlen; lia | assumption..].
Qed.

Lemma uuid_bytes_length (draw : list N) : length (uuid_bytes draw) = 16%nat.
Proof. reflexivity. Qed.

Lemma uuid_bytes_bounded (draw : list N) :
  Forall (fun b => (b < 256)%N) (uuid_bytes draw).
Proof.
  unfold uuid_bytes. apply Forall_forall. intros b Hb.
  apply list_elem_of_In, in_map_iff in Hb as (i & <- & _).
  assert (nth i draw 0 mod 256 < 256)%N by (apply N.mod_lt; lia).
  assert ((nth i draw 0 mod 256) mod 16 < 16)%N by (apply N.mod_lt; lia).
  assert ((nth i draw 0 mod 256) mod 64 < 64)%N by (apply N.mod_lt; lia).
  destruct (Nat.eqb i 6); [lia |]. destruct (Nat.eqb i 8); lia.
Qed.

(** The text of a UUID determines its sixteen bytes. *)
Lemma uuid_format_inj (l1 l2 : list N) :
  length l1 = 16%nat -> length l2 = 16%nat ->
  Forall (fun b => (b < 256)%N) l1 -> Forall (fun b => (b < 256)%N) l2 ->
  uuid_format l1 = uuid_format l2 -> l1 = l2.
Proof.
  intros Hl1 Hl2 H1 H2 H.
  do 17 (destruct l1 as [|? l1]; try discriminate).
  do 17 (destruct l2 as [|? l2]; try discriminate).
  unfold uuid_format in H. cbn [firstn skipn] in H.
  repeat match goal with
         | Hf : Forall _ (_ :: _) |- _ => apply Forall_cons in Hf as [? Hf]
         end.
  rewrite <- (append_empty_r (hex_bytes [n9; n10; n11; n12; n13; n14]))
    in H at 1.
  rewrite <- (append_empty_r (hex_bytes [n25; n26; n27; n28; n29; n30])) in H.
  apply hex_bytes_inj in H as [E1 H]; [| reflexivity | repeat constructor; assumption..].
  apply append_inj_l in H.
  apply hex_bytes_inj in H as [E2 H]; [| reflexivity | repeat constructor; assumption..].
  apply append_inj_l in H.
  apply hex_bytes_inj in H as [E3 H]; [| reflexivity | repeat constructor; assumption..].
  apply append_inj_l in H.
  apply hex_bytes_inj in H as [E4 H]; [| reflexivity | repeat constructor; assumption..].
  apply append_inj_l in H.
  apply hex_bytes_inj in H as [E5 _]; [| reflexivity | repeat constructor; assumption..].
  congruence.
Qed.

(** Two draws give the same identifier exactly when they give the same
    UUID bytes. *)
Lemma uuid_of_random_eq (d1 d2 : list N) :
  uuid_of_random d1 = uuid_of_random d2 <-> uuid_bytes d1 = uuid_bytes d2.
Proof.
  unfold uuid_of_random. split; [| now intros ->].
  apply uuid_format_inj;
    auto using uuid_bytes_length, uuid_bytes_bounded.
Qed.

(** C8, as amended.  For a valid Post payload, [POST /posts] answers 201
    with [{ok: true, post}], where the title and content of the post are
    those of the payload, its identifier is the 36-character UUID made
    from the next draw of the random source, and its two timestamps are
    the ISO texts of the next two readings of the clock: they are
    identical when the clock shows the same time at both readings.  The
    create makes no store call and leaves the namespace as it is; it uses
    up one draw, and two draws give the same identifier exactly when they
    give the same UUID bytes. *)
Theorem C8_create_post_answers :
  forall env st value t c,
    valid_post value t c ->
    let run := Part000.fetch (posts POST value) env st in
    let ident := uuid_of_random (getRandomValues env (random_draws st)) in
    let created := toISOString (Date_now env (clock_reads st)) in
    let updated := toISOString (Date_now env (S (clock_reads st))) in
    fst run
    = Returns (c_json (JObj [("ok", JBool true);
                             ("post", JObj [("id", JStr ident); ("title", JStr t);
                                            ("content", JStr c);
                                            ("createdAt", JStr created);
                                            ("updatedAt", JStr updated)])]) 201)
    /\ String.length ident = 36%nat
    /\ (Date_now env (clock_reads st) = Date_now env (S (clock_reads st)) ->
        created = updated)
    /\ RCX_VALIDATOR (snd run) = RCX_VALIDATOR st /\ kv_calls (snd run) = kv_calls st
    /\ random_draws (snd run) = S (random_draws st)
    /\ (forall d1 d2,
          uuid_of_random d1 = uuid_of_random d2 <-> uuid_bytes d1 = uuid_bytes d2).
Proof.
  intros env st value t c Hv run ident created updated.
  apply postSchema_inr in Hv.
  unfold run, Part000.fetch, Part000.dispatch, cors, onError, Part000.route, posts,
    validator; simpl.
  rewrite Hv.
  repeat split; try reflexivity.
  - unfold created, updated. now intros ->.
  - apply uuid_of_random_eq.
  - apply uuid_of_random_eq.
Qed.

(** C8, the claim as first stated fails.  With a clock that advances
    between the two readings the two timestamps of the post differ; with
    a random source that repeats a draw, two creates in a row return the
    same identifier. *)
Lemma C8_timestamps_and_identifiers_may_clash :
  json_of (fst (Part000.fetch (posts POST Sample.post) Sample.env (Sample.state ∅)))
  = Some (JObj [("ok", JBool true);
                ("post", JObj [("id", JStr "00000000-0000-4000-8000-000000000000");
                               ("title", JStr "a"); ("content", JStr "b");
                               ("createdAt", JStr "2023-11-14T22:13:20.000Z");
                               ("updatedAt", JStr "2023-11-14T22:13:20.001Z")])])
  /\ (let first :=
        Part000.fetch (posts POST Sample.post) Sample.env_stuck_random (Sample.state ∅) in
      let second :=
        Part000.fetch (posts POST Sample.post) Sample.env_stuck_random (snd first) in
      json_of (fst first)
      = Some (JObj [("ok", JBool true);
                    ("post", JObj [("id", JStr "07070707-0707-4707-8707-070707070707");
                                   ("title", JStr "a"); ("content", JStr "b");
                                   ("createdAt", JStr "2023-11-14T22:13:20.000Z");
                                   ("updatedAt", JStr "2023-11-14T22:13:20.001Z")])])
      /\ json_of (fst second)
         = Some (JObj [("ok", JBool true);
                       ("post", JObj [("id", JStr "07070707-0707-4707-8707-070707070707");
                                      ("title", JStr "a"); ("content", JStr "b");
                                      ("createdAt", JStr "2023-11-14T22:13:20.002Z");
                                      ("updatedAt", JStr "2023-11-14T22:13:20.003Z")])])).
Proof. repeat split; vm_compute; reflexivity. Qed.

(** C8 at work: the create leaves the namespace empty. *)
Lemma C8_create_post_witness :
  valid_post Sample.post "a" "b"
  /\ RCX_VALIDATOR (snd (Part000.fetch (posts POST Sample.post) Sample.env (Sample.state ∅)))
     = RCX_VALIDATOR (Sample.state ∅).
Proof.
  assert (Hv : valid_post Sample.post "a" "b").
  { eexists. repeat split; try reflexivity; vm_compute; lia. }
  split; [exact Hv |].
  exact (proj1 (proj2 (proj2 (proj2 (C8_create_post_answers
                  Sample.env (Sample.state ∅) _ _ _ Hv))))).
Defined.

End CreatePost.

(* ===================================================================== *)
(** * The two source files compared (C10) *)
(* ===================================================================== *)

Section Variants.

(** C10, as amended.  The two source files differ on the
    validation-request routes.  In [src/src/index.ts] no [GET] and no
    [DELETE] route exists for [/api/:org/req-validate]: hono answers
    "404 Not Found"; and the [POST] handler echoes [{id, salt}] of a valid
    payload without touching the state.  In [src/unnamed/part_000] the
    [POST] handler makes one store call: when it succeeds the record is in
    the namespace under [org:id:timestamp] and the answer is the one of
    the other file; when it throws the answer is 500, which the other
    file never gives.  So for a valid payload the two [POST] answers are
    equal exactly when the store call of part_000 succeeds; for a payload
    that fails the schema both files answer the same 400.  In part_000
    [GET] is the list-latest: on a store that neither rejects nor is
    changed meanwhile it answers 404, in JSON, when no key begins with
    [org:], and the [{id, salt}] of the record under the greatest such
    key otherwise.  And [DELETE] is the delete-matching: it answers 404
    when no key begins with [org:id:], and otherwise echoes the payload
    and removes exactly the keys that begin with [org:id:]. *)
Theorem C10_variants_differ_on_validation_requests :
  (forall env st org value,
      Index.fetch (req_validate GET org value) env st
      = (Returns {| status := 404; body := TextBody "404 Not Found" |}, st)
      /\ Index.fetch (req_validate DELETE org value) env st
         = (Returns {| status := 404; body := TextBody "404 Not Found" |}, st))
  /\ (forall env st org value issues,
      validateRequestSchema value = inl issues ->
      Index.fetch (req_validate POST org value) env st
      = (Returns (invalid_input issues), st)
      /\ Part000.fetch (req_validate POST org value) env st
         = (Returns (invalid_input issues), st))
  /\ (forall env st org value i s,
      valid_request value i s ->
      let ts := toISOString (Date_now env (clock_reads st)) in
      let record :=
        JObj [("org", JStr org); ("id", JStr i); ("salt", JStr s);
              ("timestamp", JStr ts)] in
      let echoed := c_json (JObj [("id", JStr i); ("salt", JStr s)]) 200 in
      let here := Index.fetch (req_validate POST org value) env st in
      let there := Part000.fetch (req_validate POST org value) env st in
      here = (Returns echoed, st)
      /\ kv_calls (snd there) = S (kv_calls st)
      /\ (kv_fault env (kv_calls st) = None ->
          fst there = Returns echoed
          /\ RCX_VALIDATOR (snd there)
             = <[Part000.composite_key org i ts := JSON_stringify record]> (met env st))
      /\ (kv_fault env (kv_calls st) <> None ->
          status_of (fst there) = Some 500%nat
          /\ RCX_VALIDATOR (snd there) = met env st)
      /\ (fst there = fst here <-> kv_fault env (kv_calls st) = None))
  /\ (forall env st org value,
      no_fault env -> alone env ->
      let answer := fst (Part000.fetch (req_validate GET org value) env st) in
      (keys_with_prefix (org +:+ ":") (RCX_VALIDATOR st) = [] ->
       answer
       = Returns (c_json (JObj [("ok", JBool false);
                                ("message",
                                 JStr ("No data found for organization: " +:+ org));
                                ("errors", JArr [JStr "Organization not found"])]) 404))
      /\ (forall k o i s ts,
            RCX_VALIDATOR st !! k
            = Some (JSON_stringify
                      (JObj [("org", JStr o); ("id", JStr i); ("salt", JStr s);
                             ("timestamp", JStr ts)])) ->
            startsWith (org +:+ ":") k = true ->
            (forall k', is_Some (RCX_VALIDATOR st !! k') ->
                        startsWith (org +:+ ":") k' = true -> String.le k' k) ->
            answer = Returns (c_json (JObj [("id", JStr i); ("salt", JStr s)]) 200)))
  /\ (forall env st org value i s,
      no_fault env -> alone env -> valid_request value i s ->
      let prefix := org +:+ ":" +:+ i +:+ ":" in
      let run := Part000.fetch (req_validate DELETE org value) env st in
      (keys_with_prefix prefix (RCX_VALIDATOR st) = [] ->
       fst run
       = Returns (c_json (JObj [("ok", JBool false);
                                ("message",
                                 JStr ("No data found for organization: " +:+ org));
                                ("errors", JArr [JStr "Organization not found"])]) 404)
       /\ RCX_VALIDATOR (snd run) = RCX_VALIDATOR st)
      /\ (keys_with_prefix prefix (RCX_VALIDATOR st) <> [] ->
          fst run = Returns (c_json (JObj [("id", JStr i); ("salt", JStr s)]) 200)
          /\ forall k,
              RCX_VALIDATOR (snd run) !! k
              = if startsWith prefix k then None else RCX_VALIDATOR st !! k)).
Proof.
  split; [intros; split; reflexivity |].
  split.
  { intros env st org value issues H.
    unfold Index.fetch, Part000.fetch, Index.dispatch, Part000.dispatch, cors, onError,
      Index.route, Part000.route, req_validate, validator; simpl.
    rewrite H. split; reflexivity. }
  split.
  { intros env st org value i s Hv ts record echoed here there.
    assert (Hi : here = (Returns echoed, st)).
    { pose proof (proj2 (validateRequestSchema_inr value i s) Hv) as Hs.
      unfold here, Index.fetch, Index.dispatch, cors, onError, Index.route, req_validate,
        validator; simpl.
      rewrite Hs. reflexivity. }
    split; [exact Hi |].
    rewrite Hi. unfold there.
    rewrite (post_req_validate_run _ _ _ _ _ _ Hv). cbv zeta.
    destruct (kv_fault env (kv_calls st)) as [e|] eqn:Hf; cbn [fst snd RCX_VALIDATOR kv_calls].
    - split; [reflexivity |]. split; [discriminate |].
      split; [intros _; split; reflexivity |].
      split; [| discriminate].
      unfold Part000.failure, echoed, c_json. intros [=].
    - split; [reflexivity |]. split; [intros _; split; reflexivity |].
      split; [congruence |]. split; reflexivity. }
  split.
  { intros env st org value Hf Ha answer. split.
    - intros Hnil. unfold answer. rewrite get_req_validate_run by apply Hf.
      unfold met. rewrite Ha, Hnil. reflexivity.
    - intros k o i s ts Hk Hp Hmax.
      exact (list_latest_of_greatest env st org value k o i s ts Hf Ha Hk Hp Hmax). }
  intros env st org value i s Hf Ha Hv prefix run. split.
  - intros Hnil. unfold run, prefix in *.
    rewrite (delete_req_validate_run env Hf Ha _ _ _ _ _ Hv). cbv zeta.
    rewrite Hnil. split; reflexivity.
  - intros Hne. exact (delete_req_validate_effect env Hf Ha st org value i s Hv Hne).
Qed.

(** C10, the claim as first stated fails: for a valid payload the two
    [POST] answers differ when the store call of part_000 throws.  Here
    the [put] throws [new Error("KV unavailable")]; part_000 answers 500
    and index.ts answers 200. *)
Lemma C10_rejecting_put_answers_differ :
  valid_request Sample.request "abc" "s3cret!"
  /\ kv_fault (env_failing_at 0 (ThrowError "KV unavailable"))
       (kv_calls (Sample.state ∅))
     = Some (ThrowError "KV unavailable")
  /\ fst (Part000.fetch (req_validate POST "acme" Sample.request)
            (env_failing_at 0 (ThrowError "KV unavailable")) (Sample.state ∅))
     = Returns (c_json (JObj [("ok", JBool false);
                              ("message", JStr "Validation failed");
                              ("errors", JArr [JStr "KV unavailable"])]) 500)
  /\ fst (Index.fetch (req_validate POST "acme" Sample.request)
            (env_failing_at 0 (ThrowError "KV unavailable")) (Sample.state ∅))
     = Returns (c_json (JObj [("id", JStr "abc"); ("salt", JStr "s3cret!")]) 200).
Proof.
  split; [eexists; repeat split; try reflexivity; vm_compute; lia |].
  repeat split; vm_compute; reflexivity.
Qed.

(** C10 at work on a namespace with one record of the organization: the
    list of part_000 answers with it, the delete of part_000 removes it,
    and index.ts has neither route. *)
Lemma C10_variants_witness :
  no_fault Sample.env /\ alone Sample.env
  /\ valid_request Sample.request "abc" "s3cret!"
  /\ Index.fetch (req_validate GET "acme" JNull) Sample.env
       (Sample.state (Sample.one_record "acme" "abc" "s3cret!"
                        "2023-11-14T22:13:20.000Z"))
     = (Returns {| status := 404; body := TextBody "404 Not Found" |},
        Sample.state (Sample.one_record "acme" "abc" "s3cret!"
                        "2023-11-14T22:13:20.000Z"))
  /\ fst (Part000.fetch (req_validate GET "acme" JNull) Sample.env
            (Sample.state (Sample.one_record "acme" "abc" "s3cret!"
                             "2023-11-14T22:13:20.000Z")))
     = Returns (c_json (JObj [("id", JStr "abc"); ("salt", JStr "s3cret!")]) 200)
  /\ RCX_VALIDATOR
       (snd (Part000.fetch (req_validate DELETE "acme" Sample.request) Sample.env
               (Sample.state (Sample.one_record "acme" "abc" "s3cret!"
                                "2023-11-14T22:13:20.000Z"))))
       !! "acme:abc:2023-11-14T22:13:20.000Z"
     = None.
Proof.
  assert (Hv : valid_request Sample.request "abc" "s3cret!").
  { eexists. repeat split; try reflexivity; vm_compute; lia. }
  destruct C10_variants_differ_on_validation_requests as (Hi & _ & _ & Hget & Hdel).
  split; [exact sample_env_no_fault |]. split; [exact sample_env_alone |].
  split; [exact Hv |].
  split; [exact (proj1 (Hi Sample.env _ "acme" JNull)) |].
  split.
  - apply (proj2 (Hget Sample.env
                    (Sample.state (Sample.one_record "acme" "abc" "s3cret!"
                                     "2023-11-14T22:13:20.000Z"))
                    "acme" JNull sample_env_no_fault sample_env_alone)
             "acme:abc:2023-11-14T22:13:20.000Z" "acme" "abc" "s3cret!"
             "2023-11-14T22:13:20.000Z").
    + vm_compute. reflexivity.
    + reflexivity.
    + intros k' [v Hk] _. unfold Sample.state, Sample.one_record in Hk.
      cbn [RCX_VALIDATOR] in Hk.
      apply lookup_singleton_Some in Hk as [<- _]. reflexivity.
  - destruct (proj2 (Hdel Sample.env
                       (Sample.state (Sample.one_record "acme" "abc" "s3cret!"
                                        "2023-11-14T22:13:20.000Z"))
                       "acme" Sample.request "abc" "s3cret!"
                       sample_env_no_fault sample_env_alone Hv))
      as [_ Hgone].
    + vm_compute. discriminate.
    + rewrite (Hgone "acme:abc:2023-11-14T22:13:20.000Z"). reflexivity.
Defined.

End Variants.

(* ===================================================================== *)
(** * The rest of the route table *)
(* ===================================================================== *)

Section RouteTable.

(** X1.  For a valid Post payload, [PUT /posts/:id] answers 200 with a
    post made on the spot: its identifier is the one of the path, whether
    or not a post was ever created under it, its title and content are
    those of the payload, and both of its timestamps are fresh readings of
    the clock, the creation time included.  It makes no store call and no
    random draw. *)
Theorem X1_put_post_fabricates_a_record :
  forall env st id value t c,
    valid_post value t c ->
    Part000.fetch (posts_id PUT id value) env st
    = (Returns
         (c_json
            (JObj [("ok", JBool true);
                   ("post",
                    JObj [("id", JStr id); ("title", JStr t); ("content", JStr c);
                          ("createdAt",
                           JStr (toISOString (Date_now env (clock_reads st))));
                          ("updatedAt",
                           JStr (toISOString (Date_now env (S (clock_reads st)))))])])
            200),
       {| RCX_VALIDATOR := RCX_VALIDATOR st; clock_reads := S (S (clock_reads st));
          random_draws := random_draws st; kv_calls := kv_calls st |}).
Proof.
  intros env st id value t c Hv. apply postSchema_inr in Hv.
  unfold Part000.fetch, Part000.dispatch, cors, onError, Part000.route, posts_id, validator; simpl.
  rewrite Hv. reflexivity.
Qed.

(** X1 at work: an update of a post that was never created. *)
Lemma X1_put_post_witness :
  valid_post Sample.post "a" "b"
  /\ status_of (fst (Part000.fetch (posts_id PUT "never-created" Sample.post)
                       Sample.env (Sample.state ∅))) = Some 200%nat.
Proof.
  assert (Hv : valid_post Sample.post "a" "b").
  { eexists. repeat split; try reflexivity; vm_compute; lia. }
  split; [exact Hv |].
  rewrite (X1_put_post_fabricates_a_record Sample.env (Sample.state ∅)
             "never-created" _ _ _ Hv).
  reflexivity.
Defined.

(** Unfolds a request through the route table and splits on the tests
    of the table and on the verdicts of the schemas. *)
Ltac through_the_table :=
  unfold Part000.fetch, Index.fetch, Part000.dispatch, Index.dispatch, cors,
    without_body, as_GET, onError, Part000.route, Index.route,
    Part000.seg, Index.seg, validator, try_catch, bind;
  cbn [method path json_body];
  repeat match goal with
         | |- context [match ?b with Some _ => _ | None => _ end] => destruct b
         | |- context [match ?m with GET => _ | POST => _ | PUT => _ | DELETE => _ | OPTIONS => _
                                       | HEAD => _ | OtherMethod => _ end] =>
             destruct m
         | |- context [match ?l with [] => _ | _ :: _ => _ end] => destruct l
         | |- context [if ?b then _ else _] => destruct b eqn:?
         | |- context [match postSchema ?v with inl _ => _ | inr _ => _ end] =>
             destruct (postSchema v) eqn:?
         | |- context [match validateRequestSchema ?v with inl _ => _ | inr _ => _ end] =>
             destruct (validateRequestSchema v) eqn:?
         end.

(** X2.  In [src/unnamed/part_000], a request whose path is not that of
    [/api/:org/req-validate] makes no store call and leaves the namespace
    as it is: the post routes, the health check and the paths without a
    route never reach the store. *)
Theorem X2_only_req_validate_reaches_the_store :
  forall req env st,
    on_req_validate req = false ->
    RCX_VALIDATOR (snd (Part000.fetch req env st)) = RCX_VALIDATOR st
    /\ kv_calls (snd (Part000.fetch req env st)) = kv_calls st.
Proof.
  intros [m p b] env st H. unfold on_req_validate in H. cbn [path] in H.
  through_the_table; try (split; reflexivity); simpl in H; congruence.
Qed.

(** X2 at work on the health check. *)
Lemma X2_health_witness :
  on_req_validate {| method := GET; path := ["api"; "health"]; json_body := Some JNull |}
  = false
  /\ Part000.fetch {| method := GET; path := ["api"; "health"]; json_body := Some JNull |}
       Sample.env (Sample.state Sample.older)
     = (Returns (c_json (JObj [("ok", JBool true); ("status", JStr "healthy");
                               ("version", JStr "1.0.0")]) 200),
        Sample.state Sample.older)
  /\ RCX_VALIDATOR
       (snd (Part000.fetch
               {| method := GET; path := ["api"; "health"]; json_body := Some JNull |}
               Sample.env (Sample.state Sample.older)))
     = RCX_VALIDATOR (Sample.state Sample.older).
Proof.
  split; [reflexivity |]. split; [reflexivity |].
  exact (proj1 (X2_only_req_validate_reaches_the_store
                  {| method := GET; path := ["api"; "health"]; json_body := Some JNull |}
                  Sample.env (Sample.state Sample.older) eq_refl)).
Defined.

(** X3.  [src/src/index.ts] never reaches a store: whatever the request,
    no store call is made and the namespace is as it was. *)
Theorem X3_index_never_reaches_a_store :
  forall req env st,
    RCX_VALIDATOR (snd (Index.fetch req env st)) = RCX_VALIDATOR st
    /\ kv_calls (snd (Index.fetch req env st)) = kv_calls st.
Proof.
  intros [m p b] env st.
  through_the_table; split; reflexivity.
Qed.

(** X4.  The two source files answer alike, and leave the same state,
    on every request whose path is not that of [/api/:org/req-validate],
    and on every [POST /api/:org/req-validate] whose body fails the
    schema. *)
Theorem X4_files_agree_off_the_store_routes :
  (forall req env st,
      on_req_validate req = false ->
      Index.fetch req env st = Part000.fetch req env st)
  /\ (forall org value issues env st,
      validateRequestSchema value = inl issues ->
      Index.fetch (req_validate POST org value) env st
      = Part000.fetch (req_validate POST org value) env st).
Proof.
  split.
  - intros [m p b] env st H. unfold on_req_validate in H. cbn [path] in H.
    through_the_table; try reflexivity; simpl in H; congruence.
  - intros org value issues env st H.
    unfold Index.fetch, Part000.fetch, Index.dispatch, Part000.dispatch, cors, onError,
      Index.route, Part000.route,
      req_validate, validator; simpl.
    rewrite H. reflexivity.
Qed.

(** X4 at work: the create of a post gives the same answer and state in
    both files. *)
Lemma X4_files_agree_witness :
  on_req_validate (posts POST Sample.post) = false
  /\ Index.fetch (posts POST Sample.post) Sample.env (Sample.state ∅)
     = Part000.fetch (posts POST Sample.post) Sample.env (Sample.state ∅).
Proof.
  split; [reflexivity |].
  exact (proj1 X4_files_agree_off_the_store_routes (posts POST Sample.post)
           Sample.env (Sample.state ∅) eq_refl).
Defined.

(** A computation that always returns a response with one of the known
    status codes. *)
Local Abbreviation answers m :=
  (forall env st, exists resp st',
      m env st = (Returns resp, st') /\ In (status resp) statuses).

Ltac answered := eexists _, _; split; [reflexivity | simpl; auto 10].

Lemma post_req_validate_answers org data : answers (Part000.post_req_validate org data).
Proof.
  intros env st.
  unfold Part000.post_req_validate, try_catch, bind, now_ISO, kv_put, kv_call, ret,
    Part000.failure.
  simpl. destruct (kv_fault env (kv_calls st)); answered.
Qed.

Lemma get_req_validate_answers org : answers (Part000.get_req_validate org).
Proof.
  intros env st.
  unfold Part000.get_req_validate, try_catch, bind, kv_list, kv_get, kv_call, lift,
    throw, ret, Part000.failure, Part000.no_data.
  destruct (kv_fault env (kv_calls st)); [answered |].
  destruct (0 <? length _)%nat; [| answered].
  destruct (_ !! (length _ - 1)%nat); [| answered].
  simpl. destruct (kv_fault env (S (kv_calls st))); [answered |].
  destruct (_ !! _) as [[|ch text]|]; [answered | | answered].
  destruct (JSON_parse (String ch text)) as [e|[| | | | |props]]; answered.
Qed.

Lemma delete_req_validate_answers org data :
  answers (Part000.delete_req_validate org data).
Proof.
  intros env st.
  unfold Part000.delete_req_validate, try_catch, bind, kv_list, kv_call,
    ret, Part000.failure, Part000.no_data.
  destruct (kv_fault env (kv_calls st)); [answered |].
  destruct (0 <? length _)%nat; [| answered].
  destruct (Promise_all _ _ _) as [[u|e] st']; answered.
Qed.

Lemma post_posts_answers data : answers (Part000.post_posts data).
Proof.
  intros env st.
  unfold Part000.post_posts, try_catch, bind, randomUUID, now_ISO, ret. answered.
Qed.

Lemma put_posts_id_answers id data : answers (Part000.put_posts_id id data).
Proof.
  intros env st.
  unfold Part000.put_posts_id, try_catch, bind, now_ISO, ret. answered.
Qed.

(** A request for a route with a validator whose body is not JSON makes
    the route throw, before anything else happens. *)
Lemma route_malformed req env st :
  validated req = true -> json_body req = None ->
  Part000.route req env st = (Throws (ThrowError "Malformed JSON in request body"), st).
Proof.
  destruct req as [m p b]. unfold validated. cbn [method path json_body].
  intros Hv ->. unfold Part000.route, Part000.seg, validator. cbn [method path json_body].
  destruct m; try discriminate;
    destruct p as [|p1 [|p2 [|p3 [|p4 p]]]]; try discriminate;
    rewrite Hv; reflexivity.
Qed.

(** Every other request is answered by the route itself. *)
Lemma route_answers req :
  validated req = false \/ json_body req <> None -> answers (Part000.route req).
Proof.
  destruct req as [m p b]. unfold validated. cbn [method path json_body].
  intros Hb env st.
  unfold Part000.route, Part000.seg, validator. cbn [method path json_body].
  repeat match goal with
         | |- context [match ?b with Some _ => _ | None => _ end] => destruct b
         | |- context [match ?m with GET => _ | POST => _ | PUT => _ | DELETE => _ | OPTIONS => _
                                       | HEAD => _ | OtherMethod => _ end] =>
             destruct m
         | |- context [match ?l with [] => _ | _ :: _ => _ end] => destruct l
         | |- context [if ?b then _ else _] => destruct b eqn:?
         | |- context [match postSchema ?v with inl _ => _ | inr _ => _ end] =>
             destruct (postSchema v) eqn:?
         | |- context [match validateRequestSchema ?v with inl _ => _ | inr _ => _ end] =>
             destruct (validateRequestSchema v) eqn:?
         end;
    first [ apply post_posts_answers
          | apply put_posts_id_answers
          | apply post_req_validate_answers
          | apply get_req_validate_answers
          | apply delete_req_validate_answers
          | answered
          | destruct Hb; congruence ].
Qed.

Lemma Method_eq_dec (m m' : Method) : {m = m'} + {m <> m'}.
Proof. decide equality. Defined.

Lemma dispatch_past_cors req env st :
  method req <> OPTIONS ->
  Part000.dispatch req env st = onError (Part000.route req) env st.
Proof. unfold Part000.dispatch, cors. destruct (method req); congruence. Qed.

(** What [Part000.dispatch] does with a request, case by case. *)
Lemma dispatch_cases req env st :
  (method req = OPTIONS
   /\ Part000.dispatch req env st = (Returns {| status := 204; body := NoBody |}, st))
  \/ (validated req = true /\ json_body req = None
      /\ Part000.dispatch req env st
         = (Returns (c_json (JObj [("ok", JBool false);
                                   ("message", JStr "Malformed JSON in request body")])
                       500), st))
  \/ (method req <> OPTIONS
      /\ (validated req = false \/ json_body req <> None)
      /\ Part000.dispatch req env st = Part000.route req env st
      /\ exists resp st',
          Part000.route req env st = (Returns resp, st') /\ In (status resp) statuses).
Proof.
  destruct (validated req) eqn:Hv; [destruct (json_body req) as [value|] eqn:Hb |].
  - right. right.
    assert (Hc : validated req = false \/ json_body req <> None) by (right; congruence).
    destruct (route_answers req Hc env st) as (resp & st' & Hr & Hs).
    assert (Hm : method req <> OPTIONS).
    { intros E. unfold validated in Hv. rewrite E in Hv. discriminate. }
    split; [exact Hm |]. split; [right; discriminate |]. split; [| eauto].
    rewrite (dispatch_past_cors _ _ _ Hm). unfold onError, try_catch.
    rewrite Hr. reflexivity.
  - right. left. split; [reflexivity |]. split; [reflexivity |].
    assert (Hm : method req <> OPTIONS).
    { intros E. unfold validated in Hv. rewrite E in Hv. discriminate. }
    rewrite (dispatch_past_cors _ _ _ Hm). unfold onError, try_catch.
    rewrite (route_malformed req env st Hv Hb). reflexivity.
  - destruct (route_answers req (or_introl Hv) env st) as (resp & st' & Hr & Hs).
    destruct (Method_eq_dec (method req) OPTIONS) as [Hm | Hm].
    + left. split; [exact Hm |]. unfold Part000.dispatch, cors. rewrite Hm. reflexivity.
    + right. right. split; [exact Hm |]. split; [left; reflexivity |]. split; [| eauto].
      rewrite (dispatch_past_cors _ _ _ Hm). unfold onError, try_catch.
      rewrite Hr. reflexivity.
Qed.

(** X5.  In [src/unnamed/part_000] every request is answered, whatever
    the store does and whatever the body is: no thrown value leaves
    [app.fetch], and the status is one of 200, 201, 204, 400, 404 and 500.
    An [OPTIONS] request is answered by the cors middleware, with 204.  A
    request for one of the four routes with a validator whose body is not
    JSON makes the validator throw, and that is the one case in which the
    handler given to [app.onError] writes the answer: 500 with the
    message of the exception, and the state untouched.  In every other
    case the route itself returns the answer, since each handler catches
    what its store calls throw. *)
Theorem X5_every_request_is_answered :
  forall req env st,
    (exists resp,
        fst (Part000.fetch req env st) = Returns resp /\ In (status resp) statuses)
    /\ (method req = OPTIONS ->
        Part000.fetch req env st = (Returns {| status := 204; body := NoBody |}, st))
    /\ (validated req = true -> json_body req = None ->
        Part000.fetch req env st
        = (Returns (c_json (JObj [("ok", JBool false);
                                  ("message", JStr "Malformed JSON in request body")])
                      500), st))
    /\ (validated req = false \/ json_body req <> None ->
        (exists resp st', Part000.route req env st = (Returns resp, st'))
        /\ (method req <> OPTIONS -> method req <> HEAD ->
            Part000.fetch req env st = Part000.route req env st)).
Proof.
  intros req env st.
  assert (Hfetch : method req <> HEAD ->
                   Part000.fetch req env st = Part000.dispatch req env st).
  { intros Hm. unfold Part000.fetch. destruct (method req); congruence. }
  split; [| split; [| split]].
  - destruct (method req) eqn:Hm;
      try (rewrite Hfetch by congruence;
           destruct (dispatch_cases req env st)
             as [[_ ->] | [(_ & _ & ->) | (_ & _ & -> & resp & st' & -> & Hs)]];
           [ eexists; split; [reflexivity | simpl; auto 10]
           | eexists; split; [reflexivity | simpl; auto 10]
           | eauto ]).
    unfold Part000.fetch. rewrite Hm. unfold without_body, bind.
    destruct (dispatch_cases (as_GET req) env st)
      as [[E _] | [(E & _) | (_ & _ & -> & resp & st' & -> & Hs)]];
      [discriminate | discriminate |].
    eexists. split; [reflexivity | exact Hs].
  - intros Hm. rewrite Hfetch by congruence.
    unfold Part000.dispatch, cors. rewrite Hm. reflexivity.
  - intros Hv Hb.
    assert (Hm : method req <> HEAD).
    { intros E. unfold validated in Hv. rewrite E in Hv. discriminate. }
    rewrite (Hfetch Hm).
    destruct (dispatch_cases req env st)
      as [[E _] | [(_ & _ & ->) | (_ & [E | E] & _)]];
      [| reflexivity | congruence | congruence].
    unfold validated in Hv. rewrite E in Hv. discriminate.
  - intros Hc.
    destruct (route_answers req Hc env st) as (resp & st' & Hr & Hs).
    split; [eauto |].
    intros Ho Hh. rewrite (Hfetch Hh), (dispatch_past_cors _ _ _ Ho).
    unfold onError, try_catch. rewrite Hr. reflexivity.
Qed.

(** X5 at work: a create whose body is not JSON is answered by the
    handler given to [app.onError]; a preflight request is answered by
    the middleware. *)
Lemma X5_malformed_body_witness :
  validated malformed_request = true
  /\ json_body malformed_request = None
  /\ Part000.fetch malformed_request Sample.env (Sample.state Sample.older)
     = (Returns (c_json (JObj [("ok", JBool false);
                               ("message", JStr "Malformed JSON in request body")])
                   500), Sample.state Sample.older)
  /\ Part000.fetch {| method := OPTIONS; path := ["posts"]; json_body := None |}
       Sample.env (Sample.state Sample.older)
     = (Returns {| status := 204; body := NoBody |}, Sample.state Sample.older).
Proof.
  split; [reflexivity |]. split; [reflexivity |].
  split.
  - exact (proj1 (proj2 (proj2 (X5_every_request_is_answered malformed_request
                                  Sample.env (Sample.state Sample.older))))
             eq_refl eq_refl).
  - exact (proj1 (proj2 (X5_every_request_is_answered
                           {| method := OPTIONS; path := ["posts"]; json_body := None |}
                           Sample.env (Sample.state Sample.older)))
             eq_refl).
Defined.

End RouteTable.

(* ===================================================================== *)
(** * The store routes when the store fails, and what they never do *)
(* ===================================================================== *)

Section StoreRoutes.

(** X6.  [GET /api/:org/req-validate] only reads: when no other client
    changes the namespace meanwhile, the namespace after the request is
    the namespace before it, whatever the store calls do and whatever the
    stored values are; and the handler makes one or two store calls. *)
Theorem X6_list_latest_never_writes :
  forall env st org value,
    alone env ->
    let after := snd (Part000.fetch (req_validate GET org value) env st) in
    RCX_VALIDATOR after = RCX_VALIDATOR st
    /\ (kv_calls st < kv_calls after <= kv_calls st + 2)%nat.
Proof.
  intros env st org value Ha after. unfold after.
  unfold Part000.fetch, Part000.dispatch, cors, onError, Part000.route, req_validate; simpl.
  unfold Part000.get_req_validate, try_catch, bind, kv_list, kv_get, kv_call, lift,
    throw, ret.
  rewrite !Ha.
  destruct (kv_fault env (kv_calls st)); [simpl; split; [reflexivity | lia] |].
  destruct (0 <? length _)%nat; [| simpl; split; [reflexivity | lia]].
  destruct (_ !! (length _ - 1)%nat); [| simpl; split; [reflexivity | lia]].
  simpl. rewrite !Ha.
  destruct (kv_fault env (S (kv_calls st))); [simpl; split; [reflexivity | lia] |].
  destruct (_ !! _) as [[|ch text]|]; try (simpl; split; [reflexivity | lia]).
  destruct (JSON_parse (String ch text)) as [e|[| | | | |props]];
    simpl; split; try reflexivity; lia.
Qed.

(** X6 at work on a namespace whose value does not parse. *)
Lemma X6_list_latest_witness :
  alone Sample.env
  /\ RCX_VALIDATOR (snd (Part000.fetch (req_validate GET "acme" JNull) Sample.env
                           (Sample.state Sample.unparsable)))
     = RCX_VALIDATOR (Sample.state Sample.unparsable).
Proof.
  split; [intros n m; reflexivity |].
  exact (proj1 (X6_list_latest_never_writes Sample.env (Sample.state Sample.unparsable)
                  "acme" JNull sample_env_alone)).
Defined.

(** X7.  A store call that throws inside [GET /api/:org/req-validate] is
    answered with 500 "Failed to fetch request" and the message of what
    was thrown ("Unknown error" for a thrown value that is not an
    [Error]): so for the listing, and so for the fetch of the latest key
    when the listing was not empty. *)
Theorem X7_list_latest_store_failure :
  forall env st org value e,
    let answer := fst (Part000.fetch (req_validate GET org value) env st) in
    let failed :=
      c_json (JObj [("ok", JBool false); ("message", JStr "Failed to fetch request");
                    ("errors", JArr [JStr (message_of e)])]) 500 in
    (kv_fault env (kv_calls st) = Some e -> answer = Returns failed)
    /\ (kv_fault env (kv_calls st) = None ->
        keys_with_prefix (org +:+ ":") (met env st) <> [] ->
        kv_fault env (S (kv_calls st)) = Some e ->
        answer = Returns failed).
Proof.
  intros env st org value e answer failed. unfold answer, failed.
  unfold Part000.fetch, Part000.dispatch, cors, onError, Part000.route, req_validate; simpl.
  unfold Part000.get_req_validate, try_catch, bind, kv_list, kv_get, kv_call, lift,
    throw, ret, met.
  split.
  - intros ->. reflexivity.
  - intros -> Hne Hf.
    destruct (keys_with_prefix _ _) as [|k0 keys] eqn:Hk; [congruence |].
    change (0 <? length (k0 :: keys))%nat with true. cbv iota.
    destruct ((k0 :: keys) !! (length (k0 :: keys) - 1)%nat) as [k|] eqn:Hlast.
    + simpl. rewrite Hf. reflexivity.
    + apply lookup_ge_None in Hlast. simpl in Hlast. lia.
Qed.

(** X7 at work: the listing succeeds, the fetch of the latest key throws. *)
Lemma X7_list_latest_failure_witness :
  kv_fault (env_failing_at 1 (ThrowError "KV unavailable")) 0 = None
  /\ kv_fault (env_failing_at 1 (ThrowError "KV unavailable")) 1
     = Some (ThrowError "KV unavailable")
  /\ fst (Part000.fetch (req_validate GET "acme" JNull)
            (env_failing_at 1 (ThrowError "KV unavailable"))
            (Sample.state Sample.older))
     = Returns (c_json (JObj [("ok", JBool false);
                              ("message", JStr "Failed to fetch request");
                              ("errors", JArr [JStr "KV unavailable"])]) 500).
Proof.
  split; [reflexivity |]. split; [reflexivity |].
  refine (proj2 (X7_list_latest_store_failure
                   (env_failing_at 1 (ThrowError "KV unavailable"))
                   (Sample.state Sample.older) "acme" JNull
                   (ThrowError "KV unavailable")) eq_refl _ eq_refl).
  vm_compute. discriminate.
Defined.

Lemma keys_with_prefix_NoDup (prefix : string) (m : gmap string string) :
  NoDup (keys_with_prefix prefix m).
Proof.
  unfold keys_with_prefix. rewrite merge_sort_Permutation.
  apply NoDup_filter, NoDup_elements.
Qed.

(** The deletes of a [Promise.all] when some of them may reject and no
    other client interferes: the delete of rank [j] was the store call of
    rank [kv_calls st + j]; a key whose delete went through is gone, a key
    whose deletes all rejected is as before, and the await throws exactly
    when one of the deletes rejected. *)
Lemma Promise_all_delete_faulty env (Ha : alone env) :
  forall keys st,
    let r := Promise_all (map kv_delete keys) env st in
    kv_calls (snd r) = (length keys + kv_calls st)%nat
    /\ (forall k, RCX_VALIDATOR (snd r) !! k = None
                  \/ RCX_VALIDATOR (snd r) !! k = RCX_VALIDATOR st !! k)
    /\ (forall j k, keys !! j = Some k ->
                    kv_fault env (kv_calls st + j)%nat = None ->
                    RCX_VALIDATOR (snd r) !! k = None)
    /\ (forall k, (forall j, keys !! j = Some k ->
                             kv_fault env (kv_calls st + j)%nat <> None) ->
                  RCX_VALIDATOR (snd r) !! k = RCX_VALIDATOR st !! k)
    /\ ((forall j, (j < length keys)%nat -> kv_fault env (kv_calls st + j)%nat = None)
        -> fst r = Returns tt)
    /\ ((exists j, (j < length keys)%nat /\ kv_fault env (kv_calls st + j)%nat <> None)
        -> exists e, fst r = Throws e).
Proof.
  induction keys as [|k0 keys IH]; intros st r.
  - subst r. simpl. repeat split; auto.
    + intros j k Hj. rewrite lookup_nil in Hj. discriminate.
    + intros (j & Hj & _). lia.
  - subst r.
    set (st1 := {| RCX_VALIDATOR :=
                     match kv_fault env (kv_calls st) with
                     | Some _ => RCX_VALIDATOR st
                     | None => delete k0 (RCX_VALIDATOR st)
                     end;
                   clock_reads := clock_reads st; random_draws := random_draws st;
                   kv_calls := S (kv_calls st) |}).
    assert (Hrun :
      Promise_all (map kv_delete (k0 :: keys)) env st
      = (match kv_fault env (kv_calls st) with
         | Some e => Throws e
         | None => fst (Promise_all (map kv_delete keys) env st1)
         end,
         snd (Promise_all (map kv_delete keys) env st1))).
    { cbn [map Promise_all]. unfold kv_delete at 1, kv_call. rewrite Ha.
      unfold st1. destruct (kv_fault env (kv_calls st)); simpl;
        destruct (Promise_all _ _ _); reflexivity. }
    rewrite Hrun. cbn [fst snd]. clear Hrun.
    specialize (IH st1). cbv zeta in IH.
    destruct IH as (Hc & Hmono & Hgone & Hkept & Hok & Hbad).
    assert (Hstep : forall k, RCX_VALIDATOR st1 !! k = None
                              \/ RCX_VALIDATOR st1 !! k = RCX_VALIDATOR st !! k).
    { intros k. unfold st1. cbn [RCX_VALIDATOR].
      destruct (kv_fault env (kv_calls st)); [now right |].
      destruct (decide (k0 = k)) as [-> | Hne];
        [left; apply lookup_delete_eq | right; now apply lookup_delete_ne]. }
    split; [rewrite Hc; simpl; lia |].
    split.
    { intros k. destruct (Hmono k) as [-> | ->]; [now left | apply Hstep]. }
    split.
    { intros [|j] k Hj Hf.
      - simpl in Hj. injection Hj as ->.
        rewrite Nat.add_0_r in Hf.
        destruct (Hmono k) as [-> | ->]; [reflexivity |].
        unfold st1. cbn [RCX_VALIDATOR]. rewrite Hf. apply lookup_delete_eq.
      - simpl in Hj. apply (Hgone j k Hj).
        cbn [kv_calls st1]. now replace (S (kv_calls st) + j)%nat
                              with (kv_calls st + S j)%nat by lia. }
    split.
    { intros k Hall. rewrite Hkept.
      - unfold st1. cbn [RCX_VALIDATOR].
        destruct (kv_fault env (kv_calls st)) eqn:Hf; [reflexivity |].
        apply lookup_delete_ne. intros ->.
        apply (Hall 0%nat); [reflexivity | now rewrite Nat.add_0_r].
      - intros j Hj. cbn [kv_calls st1].
        replace (S (kv_calls st) + j)%nat with (kv_calls st + S j)%nat by lia.
        now apply (Hall (S j)). }
    split.
    { intros Hall.
      pose proof (Hall 0%nat ltac:(simpl; lia)) as H0. rewrite Nat.add_0_r in H0.
      rewrite H0. apply Hok. intros j Hj. cbn [kv_calls st1].
      replace (S (kv_calls st) + j)%nat with (kv_calls st + S j)%nat by lia.
      apply Hall. simpl. lia. }
    intros (j & Hj & Hf).
    destruct (kv_fault env (kv_calls st)) as [e|] eqn:H0; [eauto |].
    apply Hbad. destruct j as [|j].
    + rewrite Nat.add_0_r in Hf. congruence.
    + exists j. split; [simpl in Hj; lia |]. cbn [kv_calls st1].
      now replace (S (kv_calls st) + j)%nat with (kv_calls st + S j)%nat by lia.
Qed.

#[local] Arguments Promise_all : simpl never.

(** What [DELETE /api/:org/req-validate] does with a valid payload once
    the listing has succeeded, whatever the deletes do. *)
Lemma delete_req_validate_run_faulty env st org value i s :
  valid_request value i s -> alone env ->
  kv_fault env (kv_calls st) = None ->
  Part000.fetch (req_validate DELETE org value) env st
  = let listed :=
      {| RCX_VALIDATOR := RCX_VALIDATOR st; clock_reads := clock_reads st;
         random_draws := random_draws st; kv_calls := S (kv_calls st) |} in
    match keys_with_prefix (org +:+ ":" +:+ i +:+ ":") (RCX_VALIDATOR st) with
    | [] => (Returns (Part000.no_data org), listed)
    | k0 :: keys =>
        let r := Promise_all (map kv_delete (k0 :: keys)) env listed in
        (match fst r with
         | Returns _ => Returns (c_json (JObj [("id", JStr i); ("salt", JStr s)]) 200)
         | Throws e => Returns (Part000.failure "Failed to delete request" e)
         end, snd r)
    end.
Proof.
  intros Hv Ha Hf. apply validateRequestSchema_inr in Hv.
  unfold Part000.fetch, Part000.dispatch, cors, onError, Part000.route, req_validate,
    validator; simpl.
  rewrite Hv.
  unfold Part000.delete_req_validate, try_catch, bind, kv_list, kv_call; simpl.
  rewrite Hf, Ha.
  destruct (keys_with_prefix _ (RCX_VALIDATOR st)) as [|k0 keys] eqn:Hk; [reflexivity |].
  change (0 <? length (k0 :: keys))%nat with true. cbv beta iota zeta.
  destruct (Promise_all _ _ _) as [[u|e] st']; reflexivity.
Qed.

(** X8.  Storage failure in [DELETE /api/:org/req-validate], for a valid
    payload and a namespace no other client changes meanwhile.  When the
    listing throws, the answer is 500 "Failed to delete request" with the
    message of what was thrown, and nothing is deleted.  When the listing
    succeeds and one of the deletes rejects, the answer is again that
    500, and yet the deletion is partial: every listed key whose own
    delete went through is gone, every listed key whose delete rejected
    is still there, and the keys without the prefix are untouched. *)
Theorem X8_delete_matching_store_failure :
  forall env st org value i s,
    valid_request value i s -> alone env ->
    let prefix := org +:+ ":" +:+ i +:+ ":" in
    let keys := keys_with_prefix prefix (RCX_VALIDATOR st) in
    let run := Part000.fetch (req_validate DELETE org value) env st in
    let failed (e : Thrown) :=
      c_json (JObj [("ok", JBool false); ("message", JStr "Failed to delete request");
                    ("errors", JArr [JStr (message_of e)])]) 500 in
    (forall e, kv_fault env (kv_calls st) = Some e ->
               fst run = Returns (failed e) /\ RCX_VALIDATOR (snd run) = RCX_VALIDATOR st)
    /\ (kv_fault env (kv_calls st) = None ->
        ((exists j, (j < length keys)%nat
                    /\ kv_fault env (S (kv_calls st) + j)%nat <> None) ->
         exists e, fst run = Returns (failed e))
        /\ (forall j k, keys !! j = Some k ->
                        kv_fault env (S (kv_calls st) + j)%nat = None ->
                        RCX_VALIDATOR (snd run) !! k = None)
        /\ (forall j k, keys !! j = Some k ->
                        kv_fault env (S (kv_calls st) + j)%nat <> None ->
                        RCX_VALIDATOR (snd run) !! k = RCX_VALIDATOR st !! k)
        /\ (forall k, startsWith prefix k = false ->
                      RCX_VALIDATOR (snd run) !! k = RCX_VALIDATOR st !! k)).
Proof.
  intros env st org value i s Hv Ha prefix keys run failed.
  split.
  - intros e Hf. unfold run, failed.
    apply validateRequestSchema_inr in Hv.
    unfold Part000.fetch, Part000.dispatch, cors, onError, Part000.route, req_validate,
      validator; simpl.
    rewrite Hv.
    unfold Part000.delete_req_validate, try_catch, bind, kv_list, kv_call; simpl.
    rewrite Hf, Ha. split; reflexivity.
  - intros Hf. unfold run.
    rewrite (delete_req_validate_run_faulty _ _ _ _ _ _ Hv Ha Hf). cbv zeta.
    fold prefix. fold keys.
    pose proof (keys_with_prefix_NoDup prefix (RCX_VALIDATOR st)) as Hnd.
    assert (Hmem := fun k => elem_of_keys_with_prefix prefix k (RCX_VALIDATOR st)).
    fold keys in Hnd, Hmem.
    set (listed := {| RCX_VALIDATOR := RCX_VALIDATOR st; clock_reads := clock_reads st;
                      random_draws := random_draws st; kv_calls := S (kv_calls st) |}).
    pose proof (Promise_all_delete_faulty env Ha keys listed)
      as (_ & _ & Hgone & Hkept & _ & Hbad).
    cbn [kv_calls RCX_VALIDATOR listed] in Hgone, Hkept, Hbad.
    clearbody keys.
    destruct keys as [|k0 ks].
    + split; [| split; [| split]].
      * intros (j & Hj & _). simpl in Hj. lia.
      * intros j k Hj. rewrite lookup_nil in Hj. discriminate.
      * intros j k Hj. rewrite lookup_nil in Hj. discriminate.
      * reflexivity.
    + cbn [fst snd]. split; [| split; [| split]].
      * intros Hex. destruct (Hbad Hex) as [e ->]. exists e. reflexivity.
      * exact Hgone.
      * intros j k Hj Hfault. apply Hkept. intros j' Hj'.
        assert (j' = j) as -> by (eapply NoDup_lookup; eauto). exact Hfault.
      * intros k Hp. apply Hkept. intros j Hj. exfalso.
        assert (Hin : k ∈ k0 :: ks) by (apply list_elem_of_lookup; eauto).
        apply Hmem in Hin as [_ Hp']. congruence.
Qed.

(** X8 at work: the organization holds two records of ["abc"]; the
    delete of the first goes through, the delete of the second rejects;
    the answer is 500, the first record is gone and the second remains. *)
Lemma X8_delete_failure_witness :
  valid_request Sample.request "abc" "s3cret!"
  /\ alone (env_failing_at 2 ThrowOther)
  /\ keys_with_prefix "acme:abc:" three_records
     = ["acme:abc:2023-11-14T22:13:20.000Z"; "acme:abc:2023-11-15T08:00:00.000Z"]
  /\ status_of (fst (Part000.fetch (req_validate DELETE "acme" Sample.request)
                       (env_failing_at 2 ThrowOther) (Sample.state three_records)))
     = Some 500%nat
  /\ RCX_VALIDATOR
       (snd (Part000.fetch (req_validate DELETE "acme" Sample.request)
               (env_failing_at 2 ThrowOther) (Sample.state three_records)))
       !! "acme:abc:2023-11-14T22:13:20.000Z" = None
  /\ RCX_VALIDATOR
       (snd (Part000.fetch (req_validate DELETE "acme" Sample.request)
               (env_failing_at 2 ThrowOther) (Sample.state three_records)))
       !! "acme:abc:2023-11-15T08:00:00.000Z"
     = RCX_VALIDATOR (Sample.state three_records) !! "acme:abc:2023-11-15T08:00:00.000Z".
Proof.
  assert (Hv : valid_request Sample.request "abc" "s3cret!").
  { eexists. repeat split; try reflexivity; vm_compute; lia. }
  assert (Ha : alone (env_failing_at 2 ThrowOther)) by (intros n m; reflexivity).
  split; [exact Hv |]. split; [exact Ha |].
  split; [vm_compute; reflexivity |].
  split; [vm_compute; reflexivity |].
  destruct (proj2 (X8_delete_matching_store_failure
                     (env_failing_at 2 ThrowOther) (Sample.state three_records)
                     "acme" _ _ _ Hv Ha) eq_refl) as (_ & Hgone & Hkept & _).
  split.
  - apply (Hgone 0%nat); [vm_compute; reflexivity | reflexivity].
  - apply (Hkept 1%nat); [vm_compute; reflexivity | discriminate].
Defined.

End StoreRoutes.

(* ===================================================================== *)
(** * How the store routes compose *)
(* ===================================================================== *)

Section Compositions.

Lemma StronglySorted_filter {A} (R : relation A) (P : A -> Prop)
    `{forall x, Decision (P x)} (l : list A) :
  StronglySorted R l -> StronglySorted R (filter P l).
Proof.
  induction 1 as [|x l Hs IH Hx]; [constructor |].
  rewrite filter_cons. destruct (decide (P x)); [| assumption].
  constructor; [assumption |].
  apply Forall_forall. intros y Hy. apply list_elem_of_filter in Hy as [_ Hy].
  rewrite Forall_forall in Hx. now apply Hx.
Qed.

(** A listing is determined by its members. *)
Lemma keys_with_prefix_ext (prefix : string) (m : gmap string string) (l : list string) :
  StronglySorted String.le l -> NoDup l ->
  (forall k, k ∈ l <-> is_Some (m !! k) /\ startsWith prefix k = true) ->
  keys_with_prefix prefix m = l.
Proof.
  intros Hs Hnd Hmem.
  apply (StronglySorted_unique String.le);
    [apply keys_with_prefix_sorted | assumption |].
  apply NoDup_Permutation; [apply keys_with_prefix_NoDup | assumption |].
  intros k. rewrite elem_of_keys_with_prefix. symmetry. apply Hmem.
Qed.

Lemma keys_with_prefix_nil (prefix : string) (m : gmap string string) :
  keys_with_prefix prefix m = []
  <-> forall k, is_Some (m !! k) -> startsWith prefix k = false.
Proof.
  split.
  - intros Hnil k Hk. destruct (startsWith prefix k) eqn:Hp; [| reflexivity].
    assert (Hin : k ∈ keys_with_prefix prefix m)
      by (apply elem_of_keys_with_prefix; auto).
    rewrite Hnil in Hin. now apply not_elem_of_nil in Hin.
  - intros Hall. apply elem_of_nil_inv. intros k Hin.
    apply elem_of_keys_with_prefix in Hin as [Hk Hp].
    rewrite (Hall k Hk) in Hp. discriminate.
Qed.

Lemma composite_key_by_prefix (org i ts : string) :
  Part000.composite_key org i ts = (org +:+ ":" +:+ i +:+ ":") +:+ ts.
Proof. unfold Part000.composite_key. now rewrite !append_assoc. Qed.

Lemma startsWith_composite_key_id (org i ts : string) :
  startsWith (org +:+ ":" +:+ i +:+ ":") (Part000.composite_key org i ts) = true.
Proof. rewrite composite_key_by_prefix. apply startsWith_append. Qed.

Lemma length_append (a b : string) :
  String.length (a +:+ b) = (String.length a + String.length b)%nat.
Proof. induction a as [|x a IH]; simpl; [reflexivity | now rewrite IH]. Qed.

(** Two texts that end in suffixes of one length and are equal have equal
    suffixes and equal beginnings. *)
Lemma append_inj_same_length (a b x y : string) :
  a +:+ x = b +:+ y -> String.length x = String.length y -> a = b /\ x = y.
Proof.
  revert b. induction a as [|c a IH]; intros [|d b]; simpl; intros E Hl.
  - auto.
  - subst x. simpl in Hl. rewrite length_append in Hl. lia.
  - subst y. simpl in Hl. rewrite length_append in Hl. lia.
  - injection E as -> E. destruct (IH _ E Hl) as [-> ->]. auto.
Qed.

Lemma pad_length (w : nat) (n : Z) : String.length (pad w n) = w.
Proof. induction w as [|w IH]; simpl; [reflexivity | now rewrite IH]. Qed.

(** Within the years written with four digits the ISO text has 24
    characters. *)
Lemma toISOString_length (t : Z) :
  four_digit_year t -> String.length (toISOString t) = 24%nat.
Proof.
  intros H. rewrite (toISOString_four_digits t H).
  rewrite !length_append, !pad_length. reflexivity.
Qed.

Lemma toISOString_inj (t1 t2 : Z) :
  four_digit_year t1 -> four_digit_year t2 ->
  toISOString t1 = toISOString t2 -> t1 = t2.
Proof.
  intros H1 H2 E.
  destruct (Z.lt_total t1 t2) as [L | [-> | L]]; [| reflexivity |].
  - pose proof (toISOString_lt t1 t2 H1 H2 L) as C.
    rewrite E, compare_refl in C. discriminate.
  - pose proof (toISOString_lt t2 t1 H2 H1 L) as C.
    rewrite E, compare_refl in C. discriminate.
Qed.

(** Within one organization, and within the years written with four
    digits, a key determines its identifier and its capture time. *)
Lemma composite_key_inj (org i1 i2 : string) (t1 t2 : Z) :
  four_digit_year t1 -> four_digit_year t2 ->
  Part000.composite_key org i1 (toISOString t1)
  = Part000.composite_key org i2 (toISOString t2) ->
  i1 = i2 /\ t1 = t2.
Proof.
  intros H1 H2 E. unfold Part000.composite_key in E.
  apply append_inj_l, append_inj_l in E.
  apply append_inj_same_length in E as [-> E].
  - apply append_inj_l in E. split; [reflexivity |]. now apply toISOString_inj.
  - simpl. now rewrite !toISOString_length.
Qed.

(** The texts of the issues a string schema reports are at its path. *)
Lemma z_string_issue_paths lo hi path v :
  Forall (fun iss => issue_path iss = path) (issues_of (z_string lo hi path v)).
Proof.
  unfold z_string.
  destruct v as [[| | |s| |]|]; simpl; try (repeat constructor).
  assert (Hall : Forall (fun iss => issue_path iss = path)
                   ((if (js_length s <? lo)%nat then [too_small path lo] else [])
                    ++ match hi with
                       | Some m => if (m <? js_length s)%nat then [too_big path m] else []
                       | None => []
                       end)).
  { apply Forall_app. split.
    - destruct (_ <? _)%nat; repeat constructor.
    - destruct hi as [m|]; [destruct (_ <? _)%nat |]; repeat constructor. }
  destruct (_ ++ _); [constructor | exact Hall].
Qed.

(** A string schema reports no issue exactly when the property it reads
    is a string within its bounds. *)
Lemma z_string_no_issue lo hi path props k :
  issues_of (z_string lo hi path (obj_get props k)) = [] <-> field_ok lo hi props k.
Proof.
  unfold field_ok. split.
  - destruct (z_string lo hi path (obj_get props k)) as [issues|s] eqn:E.
    + simpl. intros ->. now apply z_string_inl in E.
    + intros _. exists s. now apply z_string_inr in E.
  - intros (s & Hs & Hlo & Hhi).
    assert (E : z_string lo hi path (obj_get props k) = inr s)
      by (apply z_string_inr; auto).
    now rewrite E.
Qed.

Lemma validateRequestSchema_issues props :
  issues_of (validateRequestSchema (JObj props))
  = issues_of (z_string 1 None ["id"] (obj_get props "id"))
    ++ issues_of (z_string 6 None ["salt"] (obj_get props "salt")).
Proof.
  unfold validateRequestSchema.
  destruct (z_string 1 None ["id"] _), (z_string 6 None ["salt"] _); reflexivity.
Qed.

Lemma postSchema_issues props :
  issues_of (postSchema (JObj props))
  = issues_of (z_string 1 (Some 100%nat) ["title"] (obj_get props "title"))
    ++ issues_of (z_string 1 (Some 1000%nat) ["content"] (obj_get props "content")).
Proof.
  unfold postSchema.
  destruct (z_string 1 (Some 100%nat) ["title"] _),
    (z_string 1 (Some 1000%nat) ["content"] _); reflexivity.
Qed.

(** Of the issues of two string schemas at different paths, those at the
    path of the first are there exactly when the first one fails. *)
Lemma issues_at_path (p q : list string) (l1 l2 : list Issue) :
  p <> q ->
  Forall (fun iss => issue_path iss = p) l1 ->
  Forall (fun iss => issue_path iss = q) l2 ->
  (Exists (fun iss => issue_path iss = p) (l1 ++ l2) <-> l1 <> [])
  /\ (Exists (fun iss => issue_path iss = q) (l1 ++ l2) <-> l2 <> []).
Proof.
  intros Hpq H1 H2. rewrite !Exists_app, !Exists_exists.
  rewrite Forall_forall in H1, H2. split; split.
  - intros [(x & Hx & Hp) | (x & Hx & Hp)].
    + intros ->. now apply not_elem_of_nil in Hx.
    + rewrite (H2 x Hx) in Hp. congruence.
  - destruct l1 as [|x l1]; [congruence |]. intros _. left. exists x.
    split; [left | apply H1; left].
  - intros [(x & Hx & Hp) | (x & Hx & Hp)].
    + rewrite (H1 x Hx) in Hp. congruence.
    + intros ->. now apply not_elem_of_nil in Hx.
  - destruct l2 as [|x l2]; [congruence |]. intros _. right. exists x.
    split; [left | apply H2; left].
Qed.

(** X9.  What the issues of a 400 say.  For a body that is an object,
    every issue of either schema points at one of the two properties the
    schema names, and a property has an issue exactly when it is missing,
    is not a string, or is out of its bounds.  For a body that is not an
    object there is one issue, of type [invalid_type], at the empty path. *)
Theorem X9_issues_name_the_failing_properties :
  (forall props,
      let issues := issues_of (validateRequestSchema (JObj props)) in
      Forall (fun iss => issue_path iss = ["id"] \/ issue_path iss = ["salt"]) issues
      /\ (Exists (fun iss => issue_path iss = ["id"]) issues
          <-> ~ field_ok 1 None props "id")
      /\ (Exists (fun iss => issue_path iss = ["salt"]) issues
          <-> ~ field_ok 6 None props "salt"))
  /\ (forall props,
      let issues := issues_of (postSchema (JObj props)) in
      Forall (fun iss => issue_path iss = ["title"] \/ issue_path iss = ["content"]) issues
      /\ (Exists (fun iss => issue_path iss = ["title"]) issues
          <-> ~ field_ok 1 (Some 100%nat) props "title")
      /\ (Exists (fun iss => issue_path iss = ["content"]) issues
          <-> ~ field_ok 1 (Some 1000%nat) props "content"))
  /\ (forall value,
      (forall props, value <> JObj props) ->
      validateRequestSchema value = inl [invalid_type [] "object" (type_name (Some value))]
      /\ postSchema value = inl [invalid_type [] "object" (type_name (Some value))]).
Proof.
  split; [| split].
  - intros props issues. unfold issues. rewrite validateRequestSchema_issues.
    pose proof (z_string_issue_paths 1 None ["id"] (obj_get props "id")) as H1.
    pose proof (z_string_issue_paths 6 None ["salt"] (obj_get props "salt")) as H2.
    destruct (issues_at_path ["id"] ["salt"] _ _ ltac:(discriminate) H1 H2) as [E1 E2].
    rewrite E1, E2, <- (z_string_no_issue 1 None ["id"]),
      <- (z_string_no_issue 6 None ["salt"]).
    split; [| tauto].
    apply Forall_app. split; eapply Forall_impl; eauto; simpl; auto.
  - intros props issues. unfold issues. rewrite postSchema_issues.
    pose proof (z_string_issue_paths 1 (Some 100%nat) ["title"] (obj_get props "title"))
      as H1.
    pose proof (z_string_issue_paths 1 (Some 1000%nat) ["content"]
                  (obj_get props "content")) as H2.
    destruct (issues_at_path ["title"] ["content"] _ _ ltac:(discriminate) H1 H2)
      as [E1 E2].
    rewrite E1, E2, <- (z_string_no_issue 1 (Some 100%nat) ["title"]),
      <- (z_string_no_issue 1 (Some 1000%nat) ["content"]).
    split; [| tauto].
    apply Forall_app. split; eapply Forall_impl; eauto; simpl; auto.
  - intros value Hno. destruct value as [| | | | |props]; try (split; reflexivity).
    now destruct (Hno props).
Qed.

(** X10.  A stored value that is JSON but neither an object nor [null]
    (a number, a string, a boolean, an array) has no [id] and no [salt]:
    the handler answers 200 with an empty object. *)
Theorem X10_list_latest_of_a_non_record :
  forall env st org value k text v,
    kv_fault env (kv_calls st) = None ->
    kv_fault env (S (kv_calls st)) = None ->
    last (keys_with_prefix (org +:+ ":") (met env st)) = Some k ->
    kv_others env (S (kv_calls st)) (met env st) !! k = Some text ->
    text <> "" ->
    JSON_parse text = inr v ->
    v <> JNull ->
    (forall props, v <> JObj props) ->
    fst (Part000.fetch (req_validate GET org value) env st)
    = Returns (c_json (JObj []) 200).
Proof.
  intros env st org value k text v Hf1 Hf2 Hlast Hget Hne Hparse Hnull Hobj.
  rewrite (get_req_validate_run _ _ _ _ Hf1 Hf2), Hlast, Hget.
  destruct text as [|c text]; [congruence |]. rewrite Hparse.
  destruct v as [| | | | |props]; try reflexivity; [congruence |].
  now destruct (Hobj props).
Qed.

(** X10 at an instance: the only value of the organization is the text
    [5]. *)
Lemma X10_non_record_witness :
  kv_fault Sample.env (kv_calls (Sample.state a_number)) = None
  /\ kv_fault Sample.env (S (kv_calls (Sample.state a_number))) = None
  /\ last (keys_with_prefix ("acme" +:+ ":") (met Sample.env (Sample.state a_number)))
     = Some "acme:x:2020-01-01T00:00:00.000Z"
  /\ kv_others Sample.env (S (kv_calls (Sample.state a_number)))
       (met Sample.env (Sample.state a_number)) !! "acme:x:2020-01-01T00:00:00.000Z"
     = Some "5"
  /\ JSON_parse "5" = inr (JNum "5")
  /\ fst (Part000.fetch (req_validate GET "acme" JNull) Sample.env (Sample.state a_number))
     = Returns (c_json (JObj []) 200).
Proof.
  split; [reflexivity |]. split; [reflexivity |].
  split; [vm_compute; reflexivity |]. split; [vm_compute; reflexivity |].
  split; [vm_compute; reflexivity |].
  apply (X10_list_latest_of_a_non_record Sample.env (Sample.state a_number) "acme" JNull
           "acme:x:2020-01-01T00:00:00.000Z" "5" (JNum "5"));
    try reflexivity; try discriminate; vm_compute; reflexivity.
Defined.

(** The rest of the section is about a store whose calls do not reject
    and which no other client changes meanwhile. *)
Section QuietStore.

Context (env : Env) (Hf : no_fault env) (Ha : alone env).

(** Whether or not a key matched, the namespace after a delete is the
    namespace before it without the keys that have the prefix. *)
Lemma delete_req_validate_lookup st org value i s :
  valid_request value i s ->
  forall k,
    RCX_VALIDATOR (snd (Part000.fetch (req_validate DELETE org value) env st)) !! k
    = if startsWith (org +:+ ":" +:+ i +:+ ":") k then None else RCX_VALIDATOR st !! k.
Proof.
  intros Hv k.
  destruct (keys_with_prefix (org +:+ ":" +:+ i +:+ ":") (RCX_VALIDATOR st))
    as [|k0 ks] eqn:Hk.
  - rewrite (delete_req_validate_run env Hf Ha _ _ _ _ _ Hv). cbv zeta. rewrite Hk.
    cbn [snd RCX_VALIDATOR].
    destruct (startsWith _ k) eqn:Hp; [| reflexivity].
    destruct (RCX_VALIDATOR st !! k) eqn:Hl; [| reflexivity].
    rewrite (proj1 (keys_with_prefix_nil _ _) Hk k) in Hp by eauto. discriminate.
  - apply (delete_req_validate_effect env Hf Ha _ _ _ _ _ Hv). rewrite Hk. discriminate.
Qed.

(** X11.  Deleting twice: after a [DELETE] for [(org, id)], no key with
    the prefix [org:id:] is left, so a second [DELETE] for the same pair
    answers 404, whatever its salt, and changes nothing. *)
Theorem X11_second_delete_finds_nothing :
  forall st org value i s value' s',
    valid_request value i s -> valid_request value' i s' ->
    let once := snd (Part000.fetch (req_validate DELETE org value) env st) in
    let twice := Part000.fetch (req_validate DELETE org value') env once in
    keys_with_prefix (org +:+ ":" +:+ i +:+ ":") (RCX_VALIDATOR once) = []
    /\ fst twice
       = Returns (c_json (JObj [("ok", JBool false);
                                ("message",
                                 JStr ("No data found for organization: " +:+ org));
                                ("errors", JArr [JStr "Organization not found"])]) 404)
    /\ RCX_VALIDATOR (snd twice) = RCX_VALIDATOR once.
Proof.
  intros st org value i s value' s' Hv Hv' once twice.
  assert (Hnil : keys_with_prefix (org +:+ ":" +:+ i +:+ ":") (RCX_VALIDATOR once) = []).
  { apply keys_with_prefix_nil. intros k [v Hk].
    destruct (startsWith _ k) eqn:Hp; [| reflexivity].
    unfold once in Hk. rewrite (delete_req_validate_lookup _ _ _ _ _ Hv), Hp in Hk.
    discriminate. }
  split; [exact Hnil |].
  unfold twice. rewrite (delete_req_validate_run env Hf Ha _ _ _ _ _ Hv'). cbv zeta.
  rewrite Hnil. split; reflexivity.
Qed.

(** X12.  Create, then delete: a [DELETE] for [(org, id)] that follows a
    create for [(org, id)] answers 200 with the salt of its own payload
    and removes the new record together with every older key that has
    the prefix [org:id:]; when there was no such older key, the namespace
    is back to what it was before the create. *)
Theorem X12_create_then_delete_restores :
  forall st org value i s value' s',
    valid_request value i s -> valid_request value' i s' ->
    let created := snd (Part000.fetch (req_validate POST org value) env st) in
    let run := Part000.fetch (req_validate DELETE org value') env created in
    fst run = Returns (c_json (JObj [("id", JStr i); ("salt", JStr s')]) 200)
    /\ (forall k,
          RCX_VALIDATOR (snd run) !! k
          = if startsWith (org +:+ ":" +:+ i +:+ ":") k then None
            else RCX_VALIDATOR st !! k)
    /\ (keys_with_prefix (org +:+ ":" +:+ i +:+ ":") (RCX_VALIDATOR st) = [] ->
        RCX_VALIDATOR (snd run) = RCX_VALIDATOR st).
Proof.
  intros st org value i s value' s' Hv Hv' created run.
  set (key := Part000.composite_key org i (toISOString (Date_now env (clock_reads st)))).
  assert (Hkv : RCX_VALIDATOR created
                = <[key := JSON_stringify
                             (Part000.stored_record org {| id := i; salt := s |}
                                (toISOString (Date_now env (clock_reads st))))]>
                    (RCX_VALIDATOR st)).
  { unfold created. rewrite (post_req_validate_state _ _ _ _ _ _ Hv Hf Ha). reflexivity. }
  assert (Hlook : forall k,
             RCX_VALIDATOR (snd run) !! k
             = if startsWith (org +:+ ":" +:+ i +:+ ":") k then None
               else RCX_VALIDATOR st !! k).
  { intros k. unfold run. rewrite (delete_req_validate_lookup _ _ _ _ _ Hv'), Hkv.
    destruct (startsWith _ k) eqn:Hp; [reflexivity |].
    apply lookup_insert_ne. intros <-.
    unfold key in Hp. rewrite startsWith_composite_key_id in Hp. discriminate. }
  split.
  - apply (delete_req_validate_effect env Hf Ha _ _ _ _ _ Hv').
    intros Hnil.
    assert (Hkey : startsWith (org +:+ ":" +:+ i +:+ ":") key = false).
    { apply (proj1 (keys_with_prefix_nil _ _) Hnil). rewrite Hkv, lookup_insert_eq. eauto. }
    unfold key in Hkey. rewrite startsWith_composite_key_id in Hkey. discriminate.
  - split; [exact Hlook |].
    intros Hnil. apply map_eq. intros k. rewrite Hlook.
    destruct (startsWith _ k) eqn:Hp; [| reflexivity].
    destruct (RCX_VALIDATOR st !! k) eqn:Hl; [| reflexivity].
    rewrite (proj1 (keys_with_prefix_nil _ _) Hnil k) in Hp by eauto. discriminate.
Qed.

(** X13.  Two creates for the same organization and identifier at the
    same millisecond write the same key: the second overwrites the first,
    and of the two records only the second, with its salt, is in the
    namespace. *)
Theorem X13_same_millisecond_overwrites :
  forall st org value1 value2 i s1 s2,
    valid_request value1 i s1 -> valid_request value2 i s2 ->
    Date_now env (clock_reads st) = Date_now env (S (clock_reads st)) ->
    let ts := toISOString (Date_now env (clock_reads st)) in
    let st1 := snd (Part000.fetch (req_validate POST org value1) env st) in
    let st2 := snd (Part000.fetch (req_validate POST org value2) env st1) in
    RCX_VALIDATOR st2
    = <[Part000.composite_key org i ts :=
          JSON_stringify (JObj [("org", JStr org); ("id", JStr i); ("salt", JStr s2);
                                ("timestamp", JStr ts)])]> (RCX_VALIDATOR st).
Proof.
  intros st org value1 value2 i s1 s2 Hv1 Hv2 Hclock ts st1 st2.
  unfold st2, st1.
  rewrite (post_req_validate_state _ _ _ _ _ _ Hv1 Hf Ha). cbv zeta.
  rewrite (post_req_validate_state _ _ _ _ _ _ Hv2 Hf Ha). cbv zeta.
  cbn [clock_reads RCX_VALIDATOR]. rewrite <- Hclock. fold ts.
  apply insert_insert_eq.
Qed.

(** X14.  Two creates for one organization that differ in the identifier
    or in the millisecond of capture write different keys, within the
    years written with four digits: both records are in the namespace
    afterwards. *)
Theorem X14_distinct_creates_keep_both :
  forall st org value1 value2 i1 s1 i2 s2,
    valid_request value1 i1 s1 -> valid_request value2 i2 s2 ->
    four_digit_year (Date_now env (clock_reads st)) ->
    four_digit_year (Date_now env (S (clock_reads st))) ->
    i1 <> i2 \/ Date_now env (clock_reads st) <> Date_now env (S (clock_reads st)) ->
    let ts1 := toISOString (Date_now env (clock_reads st)) in
    let ts2 := toISOString (Date_now env (S (clock_reads st))) in
    let st1 := snd (Part000.fetch (req_validate POST org value1) env st) in
    let st2 := snd (Part000.fetch (req_validate POST org value2) env st1) in
    Part000.composite_key org i1 ts1 <> Part000.composite_key org i2 ts2
    /\ RCX_VALIDATOR st2 !! Part000.composite_key org i1 ts1
       = Some (JSON_stringify (JObj [("org", JStr org); ("id", JStr i1);
                                     ("salt", JStr s1); ("timestamp", JStr ts1)]))
    /\ RCX_VALIDATOR st2 !! Part000.composite_key org i2 ts2
       = Some (JSON_stringify (JObj [("org", JStr org); ("id", JStr i2);
                                     ("salt", JStr s2); ("timestamp", JStr ts2)])).
Proof.
  intros st org value1 value2 i1 s1 i2 s2 Hv1 Hv2 Hy1 Hy2 Hdiff ts1 ts2 st1 st2.
  assert (Hne : Part000.composite_key org i1 ts1 <> Part000.composite_key org i2 ts2).
  { intros E. apply composite_key_inj in E as [Ei Et]; [| assumption ..].
    destruct Hdiff; contradiction. }
  split; [exact Hne |].
  unfold st2, st1.
  rewrite (post_req_validate_state _ _ _ _ _ _ Hv1 Hf Ha). cbv zeta.
  rewrite (post_req_validate_state _ _ _ _ _ _ Hv2 Hf Ha). cbv zeta.
  cbn [clock_reads RCX_VALIDATOR]. fold ts1 ts2. split.
  - rewrite lookup_insert_ne by congruence. apply lookup_insert_eq.
  - apply lookup_insert_eq.
Qed.

(** X15.  Organizations are not kept apart: a record created for the
    organization [org:x] has a key with the prefix [org:], so the list of
    [org] answers with it when no other key with that prefix sorts after
    it. *)
Theorem X15_list_latest_crosses_organizations :
  forall st org x value value' i s,
    valid_request value i s ->
    (forall k, is_Some (RCX_VALIDATOR st !! k) -> startsWith (org +:+ ":") k = true ->
               String.le k (Part000.composite_key (org +:+ ":" +:+ x) i
                              (toISOString (Date_now env (clock_reads st))))) ->
    fst (Part000.fetch (req_validate GET org value') env
           (snd (Part000.fetch (req_validate POST (org +:+ ":" +:+ x) value) env st)))
    = Returns (c_json (JObj [("id", JStr i); ("salt", JStr s)]) 200).
Proof.
  intros st org x value value' i s Hv Hmax.
  rewrite (post_req_validate_state _ _ _ _ _ _ Hv Hf Ha). cbv zeta.
  eapply list_latest_of_greatest; try assumption.
  - cbn [RCX_VALIDATOR]. apply lookup_insert_eq.
  - unfold Part000.composite_key. rewrite <- !append_assoc, !(append_assoc (org +:+ ":")).
    apply startsWith_append.
  - cbn [RCX_VALIDATOR]. intros k' Hs Hp.
    destruct (decide (Part000.composite_key (org +:+ ":" +:+ x) i
                        (toISOString (Date_now env (clock_reads st))) = k'))
      as [<- | Hne]; [reflexivity |].
    rewrite lookup_insert_ne in Hs by assumption. now apply Hmax.
Qed.

(** X16.  Delete, then list: after a [DELETE] for [(org, id)] the keys of
    the organization are those it had before without the keys that begin
    with [org:id:], in the same order; when every key of the organization
    began with [org:id:], the list that follows answers 404. *)
Theorem X16_list_after_delete :
  forall st org value value' i s,
    valid_request value i s ->
    let after := snd (Part000.fetch (req_validate DELETE org value) env st) in
    keys_with_prefix (org +:+ ":") (RCX_VALIDATOR after)
    = filter (fun k => startsWith (org +:+ ":" +:+ i +:+ ":") k = false)
        (keys_with_prefix (org +:+ ":") (RCX_VALIDATOR st))
    /\ ((forall k, is_Some (RCX_VALIDATOR st !! k) -> startsWith (org +:+ ":") k = true ->
                   startsWith (org +:+ ":" +:+ i +:+ ":") k = true) ->
        fst (Part000.fetch (req_validate GET org value') env after)
        = Returns (c_json (JObj [("ok", JBool false);
                                 ("message",
                                  JStr ("No data found for organization: " +:+ org));
                                 ("errors", JArr [JStr "Organization not found"])]) 404)).
Proof.
  intros st org value value' i s Hv after.
  pose proof (delete_req_validate_lookup st org value i s Hv) as Hlook. fold after in Hlook.
  split.
  - apply keys_with_prefix_ext.
    + apply StronglySorted_filter, keys_with_prefix_sorted.
    + apply NoDup_filter, keys_with_prefix_NoDup.
    + intros k. rewrite list_elem_of_filter, elem_of_keys_with_prefix, Hlook.
      destruct (startsWith (org +:+ ":" +:+ i +:+ ":") k).
      * split; [intros [[=] _] | intros [[? [=]] _]].
      * tauto.
  - intros Hall.
    assert (Hnil : keys_with_prefix (org +:+ ":") (RCX_VALIDATOR after) = []).
    { apply keys_with_prefix_nil. intros k Hk. rewrite Hlook in Hk.
      destruct (startsWith (org +:+ ":") k) eqn:Hp; [| reflexivity].
      destruct (startsWith (org +:+ ":" +:+ i +:+ ":") k) eqn:Hq.
      - now destruct Hk.
      - rewrite (Hall k Hk Hp) in Hq. discriminate. }
    rewrite get_req_validate_run by apply Hf.
    unfold met. rewrite Ha, Hnil. reflexivity.
Qed.

End QuietStore.

Lemma frozen_clock_no_fault : no_fault env_frozen_clock.
Proof. intros n. reflexivity. Qed.

Lemma frozen_clock_alone : alone env_frozen_clock.
Proof. intros n m. reflexivity. Qed.

Lemma sample_request_valid : valid_request Sample.request "abc" "s3cret!".
Proof. eexists. repeat split; try reflexivity; vm_compute; lia. Qed.

Lemma sample_request_other_salt_valid :
  valid_request Sample.request_other_salt "abc" "another-salt".
Proof. eexists. repeat split; try reflexivity; vm_compute; lia. Qed.

(** X11 at an instance: one record of ["abc"]; the first delete removes
    it, the second, with another salt, answers 404. *)
Lemma X11_second_delete_witness :
  valid_request Sample.request "abc" "s3cret!"
  /\ valid_request Sample.request_other_salt "abc" "another-salt"
  /\ no_fault Sample.env /\ alone Sample.env
  /\ keys_with_prefix ("acme" +:+ ":" +:+ "abc" +:+ ":")
       (RCX_VALIDATOR
          (snd (Part000.fetch (req_validate DELETE "acme" Sample.request) Sample.env
                  (Sample.state (Sample.one_record "acme" "abc" "s3cret!"
                                   "2023-11-14T22:13:20.000Z"))))) = []
  /\ status_of
       (fst (Part000.fetch (req_validate DELETE "acme" Sample.request_other_salt)
               Sample.env
               (snd (Part000.fetch (req_validate DELETE "acme" Sample.request) Sample.env
                       (Sample.state (Sample.one_record "acme" "abc" "s3cret!"
                                        "2023-11-14T22:13:20.000Z"))))))
     = Some 404%nat.
Proof.
  split; [exact sample_request_valid |].
  split; [exact sample_request_other_salt_valid |].
  split; [exact sample_env_no_fault |]. split; [exact sample_env_alone |].
  destruct (X11_second_delete_finds_nothing Sample.env sample_env_no_fault sample_env_alone
              (Sample.state (Sample.one_record "acme" "abc" "s3cret!"
                               "2023-11-14T22:13:20.000Z"))
              "acme" _ _ _ _ _ sample_request_valid sample_request_other_salt_valid)
    as (Hnil & Hans & _).
  split; [exact Hnil |]. rewrite Hans. reflexivity.
Defined.

(** X12 at an instance: on an empty namespace a create and a delete of
    the same identifier leave the namespace empty. *)
Lemma X12_create_then_delete_witness :
  valid_request Sample.request "abc" "s3cret!"
  /\ valid_request Sample.request_other_salt "abc" "another-salt"
  /\ fst (Part000.fetch (req_validate DELETE "acme" Sample.request_other_salt) Sample.env
            (snd (Part000.fetch (req_validate POST "acme" Sample.request) Sample.env
                    (Sample.state ∅))))
     = Returns (c_json (JObj [("id", JStr "abc"); ("salt", JStr "another-salt")]) 200)
  /\ RCX_VALIDATOR
       (snd (Part000.fetch (req_validate DELETE "acme" Sample.request_other_salt)
               Sample.env
               (snd (Part000.fetch (req_validate POST "acme" Sample.request) Sample.env
                       (Sample.state ∅)))))
     = RCX_VALIDATOR (Sample.state ∅).
Proof.
  split; [exact sample_request_valid |].
  split; [exact sample_request_other_salt_valid |].
  destruct (X12_create_then_delete_restores Sample.env sample_env_no_fault
              sample_env_alone (Sample.state ∅) "acme" _ _ _ _ _
              sample_request_valid sample_request_other_salt_valid)
    as (Hans & _ & Hback).
  split; [exact Hans |]. apply Hback. vm_compute. reflexivity.
Defined.

(** X13 at an instance: the clock stands still, and of two creates of
    ["abc"] only the salt of the second is stored. *)
Lemma X13_same_millisecond_witness :
  valid_request Sample.request "abc" "s3cret!"
  /\ valid_request Sample.request_other_salt "abc" "another-salt"
  /\ Date_now env_frozen_clock (clock_reads (Sample.state ∅))
     = Date_now env_frozen_clock (S (clock_reads (Sample.state ∅)))
  /\ RCX_VALIDATOR
       (snd (Part000.fetch (req_validate POST "acme" Sample.request_other_salt)
               env_frozen_clock
               (snd (Part000.fetch (req_validate POST "acme" Sample.request)
                       env_frozen_clock (Sample.state ∅)))))
     = <[Part000.composite_key "acme" "abc"
           (toISOString (Date_now env_frozen_clock (clock_reads (Sample.state ∅)))) :=
           JSON_stringify
             (JObj [("org", JStr "acme"); ("id", JStr "abc");
                    ("salt", JStr "another-salt");
                    ("timestamp",
                     JStr (toISOString
                             (Date_now env_frozen_clock
                                (clock_reads (Sample.state ∅)))))])]>
         (RCX_VALIDATOR (Sample.state ∅)).
Proof.
  split; [exact sample_request_valid |].
  split; [exact sample_request_other_salt_valid |].
  split; [reflexivity |].
  exact (X13_same_millisecond_overwrites env_frozen_clock frozen_clock_no_fault
           frozen_clock_alone (Sample.state ∅) "acme" _ _ _ _ _
           sample_request_valid sample_request_other_salt_valid eq_refl).
Defined.

(** X14 at an instance: two creates of ["abc"] one millisecond apart. *)
Lemma X14_distinct_creates_witness :
  valid_request Sample.request "abc" "s3cret!"
  /\ valid_request Sample.request_other_salt "abc" "another-salt"
  /\ four_digit_year (Date_now Sample.env (clock_reads (Sample.state ∅)))
  /\ four_digit_year (Date_now Sample.env (S (clock_reads (Sample.state ∅))))
  /\ Date_now Sample.env (clock_reads (Sample.state ∅)) + 1
     = Date_now Sample.env (S (clock_reads (Sample.state ∅)))
  /\ RCX_VALIDATOR
       (snd (Part000.fetch (req_validate POST "acme" Sample.request_other_salt)
               Sample.env
               (snd (Part000.fetch (req_validate POST "acme" Sample.request)
                       Sample.env (Sample.state ∅)))))
       !! Part000.composite_key "acme" "abc"
            (toISOString (Date_now Sample.env (clock_reads (Sample.state ∅))))
     = Some (JSON_stringify
               (JObj [("org", JStr "acme"); ("id", JStr "abc"); ("salt", JStr "s3cret!");
                      ("timestamp",
                       JStr (toISOString
                               (Date_now Sample.env (clock_reads (Sample.state ∅)))))])).
Proof.
  assert (H1 : four_digit_year (Date_now Sample.env (clock_reads (Sample.state ∅))))
    by (vm_compute; split; discriminate).
  assert (H2 : four_digit_year (Date_now Sample.env (S (clock_reads (Sample.state ∅)))))
    by (vm_compute; split; discriminate).
  split; [exact sample_request_valid |].
  split; [exact sample_request_other_salt_valid |].
  split; [exact H1 |]. split; [exact H2 |]. split; [reflexivity |].
  refine (proj1 (proj2 (X14_distinct_creates_keep_both Sample.env sample_env_no_fault
                          sample_env_alone (Sample.state ∅) "acme" _ _ _ _ _ _
                          sample_request_valid sample_request_other_salt_valid H1 H2 _))).
  right. vm_compute. discriminate.
Defined.

(** X15 at an instance: a create for the organization ["acme:eu"] on an
    empty namespace, then the list of ["acme"]. *)
Lemma X15_crosses_organizations_witness :
  valid_request Sample.request "abc" "s3cret!"
  /\ fst (Part000.fetch (req_validate GET "acme" JNull) Sample.env
            (snd (Part000.fetch (req_validate POST ("acme" +:+ ":" +:+ "eu")
                                   Sample.request)
                    Sample.env (Sample.state ∅))))
     = Returns (c_json (JObj [("id", JStr "abc"); ("salt", JStr "s3cret!")]) 200).
Proof.
  split; [exact sample_request_valid |].
  apply (X15_list_latest_crosses_organizations Sample.env sample_env_no_fault
           sample_env_alone (Sample.state ∅) "acme" "eu" _ JNull _ _
           sample_request_valid).
  intros k [v Hk]. cbn in Hk. rewrite lookup_empty in Hk. discriminate.
Defined.

(** X16 at an instance: the organization holds two records of ["abc"] and
    one of ["other"]; after the delete of ["abc"] the key of ["other"] is
    the listing. *)
Lemma X16_list_after_delete_witness :
  valid_request Sample.request "abc" "s3cret!"
  /\ keys_with_prefix ("acme" +:+ ":")
       (RCX_VALIDATOR
          (snd (Part000.fetch (req_validate DELETE "acme" Sample.request) Sample.env
                  (Sample.state three_records))))
     = filter (fun k => startsWith ("acme" +:+ ":" +:+ "abc" +:+ ":") k = false)
         (keys_with_prefix ("acme" +:+ ":") (RCX_VALIDATOR (Sample.state three_records)))
  /\ filter (fun k => startsWith ("acme" +:+ ":" +:+ "abc" +:+ ":") k = false)
       (keys_with_prefix ("acme" +:+ ":") (RCX_VALIDATOR (Sample.state three_records)))
     = ["acme:other:2022-01-01T00:00:00.000Z"].
Proof.
  split; [exact sample_request_valid |].
  split; [| vm_compute; reflexivity].
  exact (proj1 (X16_list_after_delete Sample.env sample_env_no_fault sample_env_alone
                  (Sample.state three_records) "acme" _ JNull _ _
                  sample_request_valid)).
Defined.

End Compositions.
